(** * hpkvfs-cloud: the chunked file layer over a flat key-value store

    A shallow embedding of the API routes of the repository
    ([write], [read], [list], [delete], [mkdir], [metadata]) and the paths
    of the file manager, together with the library and
    service behaviour they rely on, and the properties of the
    specification checked against them.

    Conventions of the embedding:
    - JavaScript numbers that hold integers (offsets, sizes, chunk indices,
      HTTP statuses, file modes) are [Z]; the values met here are far below
      2^53, where the arithmetic of doubles is exact.
    - A [Buffer] is a [list byte]; a JavaScript string that carries file
      content is the list of its UTF-16 code units ([jsstring]); paths, keys
      and messages are [string].
    - The remote store is a [Service]: its records in the order in which it
      enumerates them, a fault oracle telling which requests it refuses, its
      page size, and the log of the requests received so far.  A route is a
      function from the service before the request to the response and the
      service after it.
    - A request the service does not refuse is served from the records: a
      [GET] of an absent key answers 404, a [POST] inserts or replaces the
      record, a [DELETE] removes it, and a listing answers one page of the
      keys with the prefix, with a position marker while keys remain. *)

From Stdlib Require Import ZArith NArith Lia List Bool String Ascii.
From Stdlib.Strings Require Import Byte.
From Stdlib Require Import DecimalString DecimalZ DecimalNat Permutation.
Import ListNotations.

Local Open Scope string_scope.
Local Open Scope list_scope.
Local Open Scope Z_scope.

(** Template literals and [+] on strings. *)
Infix "+++" := String.append (right associativity, at level 60).

(** ** Constants ([src/lib/constants.ts], [src/lib/posix.ts]) *)

Definition METADATA_SUFFIX : string := ".__meta__".
Definition CHUNK_SUFFIX : string := ".chunk".
Definition MAX_CHUNK_SIZE : Z := 3000.
Definition DEFAULT_DIR_MODE : Z := 16877.
Definition DEFAULT_FILE_MODE : Z := 33188.
Definition S_IFMT : Z := 61440.   (* 0o170000 *)
Definition S_IFDIR : Z := 16384.  (* 0o040000 *)

(** ** JavaScript string primitives on paths and keys *)

Module JsString.

(** [s.startsWith(p)] *)
Definition startsWith (s p : string) : bool := String.prefix p s.

(** [s.endsWith(suf)] *)
Definition endsWith (s suf : string) : bool :=
  (String.length suf <=? String.length s)%nat &&
  String.eqb
    (String.substring (String.length s - String.length suf) (String.length suf) s)
    suf.

(** [s.substring(n)] *)
Definition substringFrom (n : nat) (s : string) : string :=
  String.substring n (String.length s - n) s.

(** [s.slice(0, -1)] *)
Definition dropLast (s : string) : string :=
  String.substring 0 (String.length s - 1) s.

(** [s.includes("/")] *)
Fixpoint includesChar (c : ascii) (s : string) : bool :=
  match s with
  | EmptyString => false
  | String a r => Ascii.eqb a c || includesChar c r
  end.

(** [s.split(c)] for a one-character separator: never the empty list. *)
Fixpoint split (c : ascii) (s : string) : list string :=
  match s with
  | EmptyString => [EmptyString]
  | String a r =>
      if Ascii.eqb a c then EmptyString :: split c r
      else match split c r with
           | [] => [String a EmptyString]
           | p :: ps => String a p :: ps
           end
  end.

(** Truthiness of a string: [!s] holds of the empty string only. *)
Definition truthy (s : string) : bool :=
  match s with EmptyString => false | _ => true end.

(** [`${n}`] for an integer [n]. *)
Definition ofZ (n : Z) : string := NilZero.string_of_int (Z.to_int n).

End JsString.

(** ** Key derivation *)

Definition metadataKeyOf (path : string) : string := path +++ METADATA_SUFFIX.

Definition chunkKeyOf (path : string) (chunkIndex : Z) : string :=
  path +++ CHUNK_SUFFIX +++ JsString.ofZ chunkIndex.

Definition chunkPrefixOf (path : string) : string := path +++ CHUNK_SUFFIX.

(** ** Buffers and content strings *)

Definition Buffer := list byte.

(** A content string: UTF-16 code units. *)
Definition jsstring := list N.

Definition byte_of_N (n : N) : byte :=
  match Byte.of_N (n mod 256)%N with
  | Some b => b
  | None => x00
  end.

Module Utf8.

Definition REPLACEMENT : N := 65533. (* U+FFFD *)

(** The code units of one code point. *)
Definition units_of_code_point (cp : N) : jsstring :=
  if (cp <? 65536)%N then [cp]
  else [(55296 + (cp - 65536) / 1024)%N; (56320 + (cp - 65536) mod 1024)%N].

(** Decoder state: at a boundary, or inside a sequence with [need] more
    continuation bytes, the code point so far and the range the next byte
    must lie in. *)
Inductive dstate :=
| Boundary
| Inside (need : nat) (cp : N) (lo hi : N).

(** A byte met at a boundary. *)
Definition lead (b : N) : jsstring * dstate :=
  if (b <=? 127)%N then ([b], Boundary)
  else if ((194 <=? b) && (b <=? 223))%N then ([], Inside 0 (N.land b 31) 128 191)
  else if (b =? 224)%N then ([], Inside 1 (N.land b 15) 160 191)
  else if (b =? 237)%N then ([], Inside 1 (N.land b 15) 128 159)
  else if ((225 <=? b) && (b <=? 239))%N then ([], Inside 1 (N.land b 15) 128 191)
  else if (b =? 240)%N then ([], Inside 2 (N.land b 7) 144 191)
  else if (b =? 244)%N then ([], Inside 2 (N.land b 7) 128 143)
  else if ((241 <=? b) && (b <=? 243))%N then ([], Inside 2 (N.land b 7) 128 191)
  else ([REPLACEMENT], Boundary).

Definition step (st : dstate) (b : N) : jsstring * dstate :=
  match st with
  | Boundary => lead b
  | Inside need cp lo hi =>
      if ((lo <=? b) && (b <=? hi))%N then
        let cp' := (cp * 64 + N.land b 63)%N in
        match need with
        | O => (units_of_code_point cp', Boundary)
        | S k => ([], Inside k cp' 128 191)
        end
      else
        (* the broken sequence is replaced, the byte is read again *)
        let '(out, st') := lead b in (REPLACEMENT :: out, st')
  end.

Fixpoint decode_from (st : dstate) (bs : Buffer) : jsstring :=
  match bs with
  | [] => match st with Boundary => [] | Inside _ _ _ _ => [REPLACEMENT] end
  | b :: rest =>
      let '(out, st') := step st (Byte.to_N b) in
      out ++ decode_from st' rest
  end.

(** [buf.toString('utf8')]: ill-formed sequences become U+FFFD. *)
Definition decode (bs : Buffer) : jsstring := decode_from Boundary bs.

Definition is_high (c : N) : bool := ((55296 <=? c) && (c <=? 56319))%N.
Definition is_low (c : N) : bool := ((56320 <=? c) && (c <=? 57343))%N.

Definition encode_code_point (cp : N) : Buffer :=
  if (cp <? 128)%N then [byte_of_N cp]
  else if (cp <? 2048)%N then
    [byte_of_N (192 + cp / 64); byte_of_N (128 + cp mod 64)]
  else if (cp <? 65536)%N then
    [byte_of_N (224 + cp / 4096); byte_of_N (128 + (cp / 64) mod 64);
     byte_of_N (128 + cp mod 64)]
  else
    [byte_of_N (240 + cp / 262144); byte_of_N (128 + (cp / 4096) mod 64);
     byte_of_N (128 + (cp / 64) mod 64); byte_of_N (128 + cp mod 64)].

(** [Buffer.from(s, 'utf8')] and the body of [new Response(s)]: surrogate
    pairs are one code point, a lone surrogate is U+FFFD. *)
Fixpoint encode (s : jsstring) : Buffer :=
  match s with
  | [] => []
  | c :: rest =>
      if is_high c then
        match rest with
        | d :: rest' =>
            if is_low d then
              encode_code_point (65536 + (c - 55296) * 1024 + (d - 56320))%N
                ++ encode rest'
            else encode_code_point REPLACEMENT ++ encode rest
        | [] => encode_code_point REPLACEMENT
        end
      else if is_low c then encode_code_point REPLACEMENT ++ encode rest
      else encode_code_point c ++ encode rest
  end.

End Utf8.

Module Base64.

(** The value of a character of the alphabet (the URL-safe letters
    included), [None] for any other character. *)
Definition sextet (c : ascii) : option N :=
  let n := N_of_ascii c in
  if ((65 <=? n) && (n <=? 90))%N then Some (n - 65)%N
  else if ((97 <=? n) && (n <=? 122))%N then Some (n - 71)%N
  else if ((48 <=? n) && (n <=? 57))%N then Some (n + 4)%N
  else if ((n =? 43) || (n =? 45))%N then Some 62%N
  else if ((n =? 47) || (n =? 95))%N then Some 63%N
  else None.

(** The sextets of the text up to the first [=]; characters outside the
    alphabet are skipped. *)
Fixpoint sextets (s : string) : list N :=
  match s with
  | EmptyString => []
  | String c r =>
      if Ascii.eqb c "="%char then []
      else match sextet c with
           | Some v => v :: sextets r
           | None => sextets r
           end
  end.

Fixpoint bytes_of_sextets (l : list N) : Buffer :=
  match l with
  | a :: b :: c :: d :: r =>
      byte_of_N (a * 4 + b / 16) :: byte_of_N ((b mod 16) * 16 + c / 4)
        :: byte_of_N ((c mod 4) * 64 + d) :: bytes_of_sextets r
  | [a; b; c] =>
      [byte_of_N (a * 4 + b / 16); byte_of_N ((b mod 16) * 16 + c / 4)]
  | [a; b] => [byte_of_N (a * 4 + b / 16)]
  | _ => []
  end.

(** [Buffer.from(text, 'base64')] *)
Definition decode (text : string) : Buffer := bytes_of_sextets (sextets text).

Definition letter (v : N) : ascii :=
  ascii_of_N
    (if (v <? 26) then v + 65
     else if (v <? 52) then v + 71
     else if (v <? 62) then v - 4
     else if (v =? 62) then 43 else 47)%N.

(** [buf.toString('base64')], what a client sends as the request body. *)
Fixpoint encode (bs : Buffer) : string :=
  match bs with
  | [] => EmptyString
  | [x] =>
      let a := Byte.to_N x in
      String (letter (a / 4)) (String (letter ((a mod 4) * 16)) "==")
  | [x; y] =>
      let a := Byte.to_N x in
      let b := Byte.to_N y in
      String (letter (a / 4)) (String (letter ((a mod 4) * 16 + b / 16))
        (String (letter ((b mod 16) * 4)) "="))
  | x :: y :: z :: r =>
      let a := Byte.to_N x in
      let b := Byte.to_N y in
      let c := Byte.to_N z in
      String (letter (a / 4)) (String (letter ((a mod 4) * 16 + b / 16))
        (String (letter ((b mod 16) * 4 + c / 64)) (String (letter (c mod 64))
          (encode r))))
  end.

End Base64.

(** ** Node's [Buffer] *)

Module Buf.

(** [Buffer.alloc(n)]: [n] zero bytes. *)
Definition alloc (n : Z) : Buffer := repeat x00 (Z.to_nat n).

Definition length (b : Buffer) : Z := Z.of_nat (List.length b).

(** [source.copy(target, targetStart, sourceStart, sourceEnd)]: the target
    after the copy.  The number of bytes copied is cut to what the source
    holds and to the room left in the target. *)
Definition copy (source target : Buffer) (targetStart sourceStart sourceEnd : Z)
  : Buffer :=
  if (length target <=? targetStart) || (sourceEnd <=? sourceStart) then target
  else
    let nb := Z.min (Z.min (sourceEnd - sourceStart) (length target - targetStart))
                    (length source - sourceStart) in
    if nb <=? 0 then target
    else
      firstn (Z.to_nat targetStart) target
        ++ firstn (Z.to_nat nb) (skipn (Z.to_nat sourceStart) source)
        ++ skipn (Z.to_nat (targetStart + nb)) target.

End Buf.

(** [s.length] and [s.substring(a, b)] on content strings. *)
Module Text.

Definition length (s : jsstring) : Z := Z.of_nat (List.length s).

Definition clamp (s : jsstring) (a : Z) : Z := Z.max 0 (Z.min a (length s)).

Definition substring (s : jsstring) (a b : Z) : jsstring :=
  let lo := Z.min (clamp s a) (clamp s b) in
  let hi := Z.max (clamp s a) (clamp s b) in
  firstn (Z.to_nat (hi - lo)) (skipn (Z.to_nat lo) s).

Definition ofString (s : string) : jsstring :=
  map N_of_ascii (list_ascii_of_string s).

End Text.

(** [Math.ceil(a / b)] for integers [a] and [b > 0] *)
Definition ceil_div (a b : Z) : Z := - ((- a) / b).

(** ** The data model *)

(** The [Metadata] interface of the routes. *)
Record Metadata := mkMetadata {
  mode : Z;
  uid : Z;
  gid : Z;
  size : Z;
  atime : Z;
  mtime : Z;
  ctime : Z;
  num_chunks : option Z
}.

(** A stored value is a string.  The strings that are the JSON text of a
    metadata object are kept in parsed form ([Json]): [JSON.parse] gives the
    object back and [JSON.stringify] stores it.  [Text] holds the code units
    of any other string; [JSON.parse] throws on it. *)
Inductive Value :=
| Text (s : jsstring)
| Json (m : Metadata).

Definition quote : string := String (ascii_of_nat 34) EmptyString.

Definition json_field (name : string) (v : Z) : string :=
  quote +++ name +++ quote +++ ":" +++ JsString.ofZ v.

(** [JSON.stringify(metadata)] *)
Definition JSON_stringify (m : Metadata) : string :=
  "{" +++ json_field "mode" (mode m) +++ "," +++ json_field "uid" (uid m)
      +++ "," +++ json_field "gid" (gid m) +++ "," +++ json_field "size" (size m)
      +++ "," +++ json_field "atime" (atime m) +++ "," +++ json_field "mtime" (mtime m)
      +++ "," +++ json_field "ctime" (ctime m)
      +++ match num_chunks m with
          | Some n => "," +++ json_field "num_chunks" n
          | None => EmptyString
          end
      +++ "}".

(** The string a value is. *)
Definition value_string (v : Value) : jsstring :=
  match v with
  | Text s => s
  | Json m => Text.ofString (JSON_stringify m)
  end.

(** [(mode & 0o170000) === 0o040000] *)
Definition isDirectoryMode (m : Z) : bool := Z.land m S_IFMT =? S_IFDIR.

(** ** The key-value service *)

(** The four requests the routes send through [callHpkVApi]. *)
Inductive ApiCall :=
| GetRecord (key : string)
| PostRecord (key : string) (value : Value)
| DeleteRecord (key : string)
| ListKeys (prefix : string) (delimiter : option string) (marker : option string).

(** A request that does not get an [ok] response: the service answers with
    an error status and a text, or the request does not get through. *)
Inductive Failure :=
| HttpFailure (status : Z) (text : string)
| NetworkFailure (message : string).

Record Service := mkService {
  records : list (string * Value);
  fault : ApiCall -> option Failure;
  pageLimit : nat;
  groupsByDelimiter : bool;
  calls : list ApiCall
}.

Module Store.

Fixpoint lookup (k : string) (l : list (string * Value)) : option Value :=
  match l with
  | [] => None
  | (k', v) :: r => if String.eqb k k' then Some v else lookup k r
  end.

(** Upsert: a key already present keeps its place. *)
Fixpoint put (k : string) (v : Value) (l : list (string * Value))
  : list (string * Value) :=
  match l with
  | [] => [(k, v)]
  | (k', v') :: r =>
      if String.eqb k k' then (k, v) :: r else (k', v') :: put k v r
  end.

Fixpoint remove (k : string) (l : list (string * Value)) : list (string * Value) :=
  match l with
  | [] => []
  | (k', v') :: r =>
      if String.eqb k k' then remove k r else (k', v') :: remove k r
  end.

Definition keys (l : list (string * Value)) : list string := map fst l.

Definition keysWithPrefix (p : string) (l : list (string * Value)) : list string :=
  filter (fun k => JsString.startsWith k p) (keys l).

(** The part of [rest] up to and including the first [d], when there is one. *)
Fixpoint upToDelimiter (d : ascii) (rest : string) : option string :=
  match rest with
  | EmptyString => None
  | String a r =>
      if Ascii.eqb a d then Some (String a EmptyString)
      else option_map (String a) (upToDelimiter d r)
  end.

(** A key listed under [p] with a delimiter: keys with the delimiter after
    the prefix are reported as the common prefix that ends at it. *)
Definition grouped (p : string) (d : string) (k : string) : string :=
  match d with
  | String c EmptyString =>
      match upToDelimiter c (JsString.substringFrom (String.length p) k) with
      | Some g => p +++ g
      | None => k
      end
  | _ => k
  end.

End Store.

(** What [callHpkVApi] returns: [{ data, error, status }]. *)
Inductive ApiData :=
| DRecord (value : Value)
| DItems (items : list string) (nextMarker : option string)
| DDone.

Record ApiResult := mkApiResult {
  api_data : option ApiData;
  api_error : option string;
  api_status : Z
}.

Definition failed (f : Failure) : ApiResult :=
  match f with
  | HttpFailure st text =>
      mkApiResult None
        (Some ("HPKV API Error (" +++ JsString.ofZ st +++ "): "
                 +++ String.substring 0 200 text)) st
  | NetworkFailure msg => mkApiResult None (Some ("Network error: " +++ msg)) 500
  end.

Definition notFound : ApiResult := failed (HttpFailure 404 "Record not found").

(** The position a marker stands for. *)
Definition markerPosition (marker : option string) : nat :=
  match marker with
  | None => O
  | Some m => match NilZero.uint_of_string m with
              | Some u => Nat.of_uint u
              | None => O
              end
  end.

Definition markerOf (n : nat) : string := NilZero.string_of_uint (Nat.to_uint n).

Definition pageSize (svc : Service) : nat := Nat.max 1 (pageLimit svc).

(** The keys a list request is about, in the order of enumeration. *)
Definition listed (svc : Service) (prefix : string) (delimiter : option string)
  : list string :=
  match delimiter with
  | Some d =>
      if groupsByDelimiter svc
      then map (Store.grouped prefix d) (Store.keysWithPrefix prefix (records svc))
      else Store.keysWithPrefix prefix (records svc)
  | None => Store.keysWithPrefix prefix (records svc)
  end.

(** The answer of the service to a request it accepts, and its records
    afterwards. *)
Definition serve (svc : Service) (c : ApiCall) : ApiResult * list (string * Value) :=
  match c with
  | GetRecord k =>
      match Store.lookup k (records svc) with
      | Some v => (mkApiResult (Some (DRecord v)) None 200, records svc)
      | None => (notFound, records svc)
      end
  | PostRecord k v =>
      (mkApiResult (Some DDone) None 200, Store.put k v (records svc))
  | DeleteRecord k =>
      match Store.lookup k (records svc) with
      | Some _ => (mkApiResult (Some DDone) None 200, Store.remove k (records svc))
      | None => (notFound, records svc)
      end
  | ListKeys p d m =>
      let all := listed svc p d in
      let pos := markerPosition m in
      let next := if (pos + pageSize svc <? List.length all)%nat
                  then Some (markerOf (pos + pageSize svc)) else None in
      (mkApiResult (Some (DItems (firstn (pageSize svc) (skipn pos all)) next)) None 200,
       records svc)
  end.

(** The service once it has received [c] and holds [recs]. *)
Definition received (c : ApiCall) (recs : list (string * Value)) (svc : Service)
  : Service :=
  mkService recs (fault svc) (pageLimit svc) (groupsByDelimiter svc) (c :: calls svc).

(** [callHpkVApi] ([src/lib/hpkv-api.ts]): one request to the service. *)
Definition callHpkVApi (c : ApiCall) (svc : Service) : ApiResult * Service :=
  match fault svc c with
  | Some f => (failed f, received c (records svc) svc)
  | None => let '(r, recs) := serve svc c in (r, received c recs svc)
  end.

(** ** Responses of the routes *)

Record Entry := mkEntry { name : string; isDir : bool }.

Inductive Payload :=
| ErrorJson (error : string)
| BytesWritten (bytesWritten : Z)
| Body (content : Buffer)
| Entries (entries : list Entry)
| SuccessJson
| SuccessMessage (message : string).

Record Response := mkResponse { resp_status : Z; resp_payload : Payload }.

(** The result of the [getMetadata] helpers. *)
Record MetadataResult := mkMetadataResult {
  mr_metadata : option Metadata;
  mr_error : option string;
  mr_status : Z
}.

(** The result of the [getChunk] helpers. *)
Record ChunkResult := mkChunkResult {
  cr_chunkData : option jsstring;
  cr_error : option string;
  cr_status : Z
}.

(** [{ error, status }] *)
Record CallStatus := mkCallStatus { cs_error : option string; cs_status : Z }.

(** The derivation of [num_chunks] applied to the parsed record: when the
    field is absent and [size > 0] it becomes [ceil(size / MAX_CHUNK_SIZE)];
    a field that is present is kept. *)
Definition withNumChunks (m : Metadata) : Metadata :=
  if (0 <? size m) && (match num_chunks m with None => true | Some _ => false end)
  then mkMetadata (mode m) (uid m) (gid m) (size m) (atime m) (mtime m) (ctime m)
         (Some (ceil_div (size m) MAX_CHUNK_SIZE))
  else m.

(** ** The write route ([src/app/api/write/route.ts], [POST]) *)

Module WriteRoute.

Definition getMetadata (path : string) (svc : Service) : MetadataResult * Service :=
  let metadataKey := path +++ METADATA_SUFFIX in
  let '(r, svc1) := callHpkVApi (GetRecord metadataKey) svc in
  if api_status r =? 404 then (mkMetadataResult None None 404, svc1)
  else
    match api_error r with
    | Some error =>
        (mkMetadataResult None (Some ("Failed to get metadata: " +++ error))
           (api_status r), svc1)
    | None =>
        match api_data r with
        | Some (DRecord (Json metadataObject)) =>
            (mkMetadataResult (Some (withNumChunks metadataObject)) None 200, svc1)
        | Some (DRecord (Text (_ :: _))) =>
            (mkMetadataResult None (Some "Failed to parse metadata JSON") 500, svc1)
        | _ =>
            (mkMetadataResult None (Some "Metadata found but invalid format") 500,
             svc1)
        end
    end.

Definition writeMetadata (path : string) (metadata : Metadata) (svc : Service)
  : CallStatus * Service :=
  let metadataKey := path +++ METADATA_SUFFIX in
  let '(r, svc1) := callHpkVApi (PostRecord metadataKey (Json metadata)) svc in
  (mkCallStatus (api_error r) (api_status r), svc1).

Definition writeChunk (path : string) (chunkIndex : Z) (chunkData : jsstring)
  (svc : Service) : CallStatus * Service :=
  let chunkKey := path +++ CHUNK_SUFFIX +++ JsString.ofZ chunkIndex in
  let '(r, svc1) := callHpkVApi (PostRecord chunkKey (Text chunkData)) svc in
  (mkCallStatus (api_error r) (api_status r), svc1).

Definition getChunk (path : string) (chunkIndex : Z) (svc : Service)
  : ChunkResult * Service :=
  let chunkKey := path +++ CHUNK_SUFFIX +++ JsString.ofZ chunkIndex in
  let '(r, svc1) := callHpkVApi (GetRecord chunkKey) svc in
  if api_status r =? 404 then (mkChunkResult None None 404, svc1)
  else
    match api_error r with
    | Some error =>
        (mkChunkResult None
           (Some ("Failed to get chunk " +++ JsString.ofZ chunkIndex +++ ": " +++ error))
           (api_status r), svc1)
    | None =>
        (mkChunkResult
           (match api_data r with
            | Some (DRecord v) => Some (value_string v)
            | _ => None
            end) None 200, svc1)
    end.

(** The body of the loop over the affected chunks: the new content of
    chunk [i] from its existing content. *)
Definition newChunkOf (existingChunk writeData : Buffer)
  (offset writeEnd i currentWriteOffset : Z) : Buffer * Z :=
  let chunkStart := i * MAX_CHUNK_SIZE in
  let writeStartInChunk := Z.max 0 (offset - chunkStart) in
  let writeEndInChunk := Z.min MAX_CHUNK_SIZE (writeEnd - chunkStart) in
  let bytesToWriteInChunk := writeEndInChunk - writeStartInChunk in
  let newChunkSize := Z.max (Buf.length existingChunk) writeEndInChunk in
  let newChunk := Buf.alloc newChunkSize in
  let newChunk :=
    if 0 <? writeStartInChunk
    then Buf.copy existingChunk newChunk 0 0
           (Z.min writeStartInChunk (Buf.length existingChunk))
    else newChunk in
  let newChunk :=
    Buf.copy writeData newChunk writeStartInChunk currentWriteOffset
      (currentWriteOffset + bytesToWriteInChunk) in
  let newChunk :=
    if writeEndInChunk <? Buf.length existingChunk
    then Buf.copy existingChunk newChunk writeEndInChunk writeEndInChunk
           (Buf.length existingChunk)
    else newChunk in
  (newChunk, bytesToWriteInChunk).

(** [for (let i = startChunk; i <= endChunk; i++)], [count] iterations
    left; the result is the response of an early [return] or the final
    [currentWriteOffset]. *)
Fixpoint writeChunks (count : nat) (path : string) (writeData : Buffer)
  (offset writeEnd i currentWriteOffset : Z) (svc : Service)
  : (Response + Z) * Service :=
  match count with
  | O => (inr currentWriteOffset, svc)
  | S count' =>
      let '(g, svc1) := getChunk path i svc in
      match cr_error g with
      | Some getChunkError =>
          (inl (mkResponse (cr_status g) (ErrorJson getChunkError)), svc1)
      | None =>
          let existingChunk :=
            match cr_chunkData g with
            | Some (c :: s) => Utf8.encode (c :: s)
            | _ => Buf.alloc 0
            end in
          let '(newChunk, bytesToWriteInChunk) :=
            newChunkOf existingChunk writeData offset writeEnd i currentWriteOffset in
          let '(w, svc2) := writeChunk path i (Utf8.decode newChunk) svc1 in
          match cs_error w with
          | Some writeChunkError =>
              (inl (mkResponse (cs_status w)
                      (ErrorJson ("Failed to write chunk " +++ JsString.ofZ i +++ ": "
                                    +++ writeChunkError))), svc2)
          | None =>
              writeChunks count' path writeData offset writeEnd (i + 1)
                (currentWriteOffset + bytesToWriteInChunk) svc2
          end
      end
  end.

(** [POST]: [path] and [offset] are the query parameters (an absent path
    is the empty string, [offset] the parsed integer), [body] the text of
    the request and [now] the clock in seconds. *)
Definition POST (path : string) (offset : Z) (body : string) (now : Z)
  (svc : Service) : Response * Service :=
  if negb (JsString.truthy path) then
    (mkResponse 400 (ErrorJson "Path and offset parameters are required"), svc)
  else if offset <? 0 then (mkResponse 400 (ErrorJson "Invalid offset"), svc)
  else if negb (JsString.truthy body) then
    (mkResponse 400 (ErrorJson "Request body with base64 data is required"), svc)
  else
    let writeData := Base64.decode body in
    let writeSize := Buf.length writeData in
    if writeSize =? 0 then (mkResponse 200 (BytesWritten 0), svc)
    else
      let '(mr, svc1) := getMetadata path svc in
      match mr_error mr with
      | Some metaError => (mkResponse (mr_status mr) (ErrorJson metaError), svc1)
      | None =>
          let isNewFile :=
            match mr_metadata mr with None => true | Some _ => false end in
          let metadata :=
            match mr_metadata mr with
            | None => mkMetadata DEFAULT_FILE_MODE 1000 1000 0 now now now (Some 0)
            | Some m => m
            end in
          if negb isNewFile && isDirectoryMode (mode metadata) then
            (mkResponse 400 (ErrorJson "Path is a directory"), svc1)
          else
            let writeEnd := offset + writeSize in
            let startChunk := offset / MAX_CHUNK_SIZE in
            let endChunk := (writeEnd - 1) / MAX_CHUNK_SIZE in
            match writeChunks (Z.to_nat (endChunk - startChunk + 1)) path writeData
                    offset writeEnd startChunk 0 svc1 with
            | (inl response, svc2) => (response, svc2)
            | (inr _, svc2) =>
                let newSize := Z.max (size metadata) writeEnd in
                let metadata :=
                  mkMetadata (mode metadata) (uid metadata) (gid metadata) newSize
                    now now (if isNewFile then now else ctime metadata)
                    (Some (ceil_div newSize MAX_CHUNK_SIZE)) in
                let '(w, svc3) := writeMetadata path metadata svc2 in
                match cs_error w with
                | Some metaWriteError =>
                    (mkResponse (cs_status w)
                       (ErrorJson ("Write succeeded but failed to update metadata: "
                                     +++ metaWriteError)), svc3)
                | None => (mkResponse 200 (BytesWritten writeSize), svc3)
                end
            end
      end.

End WriteRoute.

(** ** The read route ([GET] with [path], [offset] and [size]) *)

Module ReadRoute.

Definition getMetadata (path : string) (svc : Service) : MetadataResult * Service :=
  let metadataKey := path +++ METADATA_SUFFIX in
  let '(r, svc1) := callHpkVApi (GetRecord metadataKey) svc in
  match api_error r with
  | Some error =>
      (mkMetadataResult None (Some ("Failed to get metadata: " +++ error))
         (api_status r), svc1)
  | None =>
      match api_data r with
      | Some (DRecord (Json metadataObject)) =>
          (mkMetadataResult (Some (withNumChunks metadataObject)) None 200, svc1)
      | Some (DRecord (Text (_ :: _))) =>
          (mkMetadataResult None (Some "Failed to parse metadata JSON") 500, svc1)
      | _ =>
          (mkMetadataResult None (Some "Metadata not found or invalid format") 404,
           svc1)
      end
  end.

Definition getChunk (path : string) (chunkIndex : Z) (svc : Service)
  : ChunkResult * Service :=
  let chunkKey := path +++ CHUNK_SUFFIX +++ JsString.ofZ chunkIndex in
  let '(r, svc1) := callHpkVApi (GetRecord chunkKey) svc in
  match api_error r with
  | Some error =>
      (mkChunkResult None
         (if api_status r =? 404 then None
          else Some ("Failed to get chunk " +++ JsString.ofZ chunkIndex +++ ": "
                       +++ error))
         (api_status r), svc1)
  | None =>
      (mkChunkResult
         (match api_data r with
          | Some (DRecord v) => Some (value_string v)
          | _ => None
          end) None 200, svc1)
  end.

(** [for (let i = startChunk; i <= endChunk && i < numChunks; i++)] with
    [count] values of [i] left up to [endChunk]; the result is the response
    of an early [return] or [combinedData] when the loop is left. *)
Fixpoint readChunks (count : nat) (path : string) (offset readSize numChunks i : Z)
  (combinedData : jsstring) (bytesRead : Z) (svc : Service)
  : (Response + jsstring) * Service :=
  match count with
  | O => (inr combinedData, svc)
  | S count' =>
      if negb (i <? numChunks) then (inr combinedData, svc)
      else
        let '(g, svc1) := getChunk path i svc in
        let failure :=
          match cr_error g with
          | Some chunkError =>
              if negb (cr_status g =? 404)
              then Some (mkResponse (cr_status g) (ErrorJson chunkError))
              else None
          | None => None
          end in
        match failure with
        | Some response => (inl response, svc1)
        | None =>
            let chunkContent :=
              match cr_chunkData g with Some s => s | None => [] end in
            let chunkStartOffset := i * MAX_CHUNK_SIZE in
            let readStartInChunk := Z.max 0 (offset - chunkStartOffset) in
            let readEndInChunk :=
              Z.min (Text.length chunkContent) (offset + readSize - chunkStartOffset) in
            let bytesToReadFromChunk := Z.max 0 (readEndInChunk - readStartInChunk) in
            let combinedData :=
              if 0 <? bytesToReadFromChunk
              then combinedData
                     ++ Text.substring chunkContent readStartInChunk readEndInChunk
              else combinedData in
            let bytesRead :=
              if 0 <? bytesToReadFromChunk then bytesRead + bytesToReadFromChunk
              else bytesRead in
            if readSize <=? bytesRead then (inr combinedData, svc1)
            else readChunks count' path offset readSize numChunks (i + 1)
                   combinedData bytesRead svc1
        end
  end.

(** [GET]: [offset] and [size] are the parsed integers. *)
Definition GET (path : string) (offset readLength : Z) (svc : Service)
  : Response * Service :=
  if negb (JsString.truthy path) then
    (mkResponse 400 (ErrorJson "Path, offset, and size parameters are required"), svc)
  else if (offset <? 0) || (readLength <? 0) then
    (mkResponse 400 (ErrorJson "Invalid offset or size"), svc)
  else if readLength =? 0 then (mkResponse 200 (Body []), svc)
  else
    let '(mr, svc1) := getMetadata path svc in
    match mr_error mr, mr_metadata mr with
    | Some metaError, _ => (mkResponse (mr_status mr) (ErrorJson metaError), svc1)
    | None, None => (mkResponse (mr_status mr) (ErrorJson "Metadata not found"), svc1)
    | None, Some metadata =>
        if isDirectoryMode (mode metadata) then
          (mkResponse 400 (ErrorJson "Path is a directory"), svc1)
        else
          let fileSize := size metadata in
          if fileSize <=? offset then (mkResponse 200 (Body []), svc1)
          else
            let readSize := Z.min readLength (fileSize - offset) in
            if readSize <=? 0 then (mkResponse 200 (Body []), svc1)
            else
              let numChunks :=
                match num_chunks metadata with
                | Some n => n
                | None => ceil_div fileSize MAX_CHUNK_SIZE
                end in
              let startChunk := offset / MAX_CHUNK_SIZE in
              let endChunk := (offset + readSize - 1) / MAX_CHUNK_SIZE in
              match readChunks (Z.to_nat (endChunk - startChunk + 1)) path offset
                      readSize numChunks startChunk [] 0 svc1 with
              | (inl response, svc2) => (response, svc2)
              | (inr combinedData, svc2) =>
                  let combinedData :=
                    if readSize <? Text.length combinedData
                    then Text.substring combinedData 0 readSize
                    else combinedData in
                  (mkResponse 200 (Body (Utf8.encode combinedData)), svc2)
              end
    end.

End ReadRoute.

(** ** The list route ([src/app/api/list/route.ts], [GET]) *)

Module ListRoute.

(** An insertion-ordered [Map] from names to entries: [map.set(k, v)]
    keeps the place of a key already present and replaces its value. *)
Fixpoint mapSet (m : list (string * Entry)) (k : string) (v : Entry)
  : list (string * Entry) :=
  match m with
  | [] => [(k, v)]
  | (k', v') :: r =>
      if String.eqb k k' then (k, v) :: r else (k', v') :: mapSet r k v
  end.

(** [Array.from(new Map(entries.map(e => [e.name, e])).values())] *)
Definition uniqueEntries (entries : list Entry) : list Entry :=
  map snd (fold_left (fun m e => mapSet m (name e) e) entries []).

Definition setHas (s : list string) (x : string) : bool :=
  existsb (String.eqb x) s.

(** One turn of [for (const item of data.items)]: the entries and the set
    of processed prefixes after the item with this key. *)
Definition processItem (prefix : string) (st : list Entry * list string)
  (key : string) : list Entry * list string :=
  let '(entries, processedPrefixes) := st in
  if String.eqb prefix "/" && String.eqb key "/.__meta__" then st
  else if String.eqb key (JsString.dropLast prefix +++ METADATA_SUFFIX) then st
  else if JsString.endsWith key METADATA_SUFFIX then
    let fullPath :=
      String.substring 0 (String.length key - String.length METADATA_SUFFIX) key in
    if JsString.startsWith fullPath prefix then
      let name := JsString.substringFrom (String.length prefix) fullPath in
      if JsString.truthy name && negb (JsString.includesChar "/" name)
      then (entries ++ [mkEntry name false], processedPrefixes)
      else st
    else st
  else if JsString.startsWith key prefix then
    let relativePath := JsString.substringFrom (String.length prefix) key in
    let parts := JsString.split "/" relativePath in
    match parts with
    | dirName :: _ :: _ =>
        if JsString.truthy dirName then
          if negb (setHas processedPrefixes dirName)
          then (entries ++ [mkEntry dirName true], dirName :: processedPrefixes)
          else st
        else st
    | _ => st
    end
  else st.

(** The loop over the items and the removal of duplicates. *)
Definition entriesOf (prefix : string) (items : list string) : list Entry :=
  uniqueEntries (fst (fold_left (processItem prefix) items ([], []))).

Definition GET (path : string) (svc : Service) : Response * Service :=
  if negb (JsString.truthy path) then
    (mkResponse 400 (ErrorJson "Path parameter is required"), svc)
  else
    let prefix :=
      if String.eqb path "/" then "/"
      else if JsString.endsWith path "/" then path else path +++ "/" in
    let '(r, svc1) := callHpkVApi (ListKeys prefix (Some "/") None) svc in
    match api_error r with
    | Some error =>
        (mkResponse (api_status r) (ErrorJson ("Failed to list keys: " +++ error)), svc1)
    | None =>
        match api_data r with
        | Some (DItems items _) => (mkResponse 200 (Entries (entriesOf prefix items)), svc1)
        | _ => (mkResponse 500 (ErrorJson "Invalid response from HPKV list API"), svc1)
        end
    end.

End ListRoute.

(** ** The delete route ([DELETE]) *)

Module DeleteRoute.

Definition getMetadata (path : string) (svc : Service) : MetadataResult * Service :=
  let metadataKey :=
    if String.eqb path "/" then "/.__meta__" else path +++ METADATA_SUFFIX in
  let '(r, svc1) := callHpkVApi (GetRecord metadataKey) svc in
  if api_status r =? 404 then (mkMetadataResult None None 404, svc1)
  else
    match api_error r with
    | Some error =>
        (mkMetadataResult None (Some ("Failed to get metadata: " +++ error))
           (api_status r), svc1)
    | None =>
        match api_data r with
        | Some (DRecord (Json metadataObject)) =>
            (mkMetadataResult (Some (withNumChunks metadataObject)) None 200, svc1)
        | Some (DRecord (Text (_ :: _))) =>
            (mkMetadataResult None (Some "Failed to parse metadata JSON") 500, svc1)
        | _ =>
            (mkMetadataResult None (Some "Metadata found but invalid format") 500,
             svc1)
        end
    end.

(** [{ keys, error, status }] *)
Record KeysResult := mkKeysResult {
  kr_keys : option (list string);
  kr_error : option string;
  kr_status : Z
}.

(** The [do ... while (marker)] loop of [listAllKeysWithPrefix]; [None]
    when [fuel] requests were not enough to reach the last page. *)
Fixpoint listPages (fuel : nat) (prefix : string) (marker : option string)
  (allKeys : list string) (svc : Service) : option KeysResult * Service :=
  match fuel with
  | O => (None, svc)
  | S fuel' =>
      let '(r, svc1) := callHpkVApi (ListKeys prefix None marker) svc in
      match api_error r with
      | Some error =>
          (Some (mkKeysResult None
                   (Some ("Failed to list keys with prefix " +++ prefix +++ ": "
                            +++ error)) (api_status r)), svc1)
      | None =>
          match api_data r with
          | Some (DItems items nextMarker) =>
              let allKeys := allKeys ++ items in
              match nextMarker with
              | Some (String c m) =>
                  listPages fuel' prefix (Some (String c m)) allKeys svc1
              | _ => (Some (mkKeysResult (Some allKeys) None 200), svc1)
              end
          | _ =>
              (Some (mkKeysResult None (Some "Invalid response from HPKV list API")
                       500), svc1)
          end
      end
  end.

(** Enough requests for every page the service can cut its records into. *)
Definition listAllKeysWithPrefix (prefix : string) (svc : Service)
  : option KeysResult * Service :=
  listPages (S (List.length (records svc))) prefix None [] svc.

Definition deleteKey (key : string) (svc : Service) : CallStatus * Service :=
  let '(r, svc1) := callHpkVApi (DeleteRecord key) svc in
  if api_status r =? 404 then (mkCallStatus None 200, svc1)
  else (mkCallStatus (api_error r) (api_status r), svc1).

(** [Promise.all(keysToDelete.map(key => deleteKey(key, ...)))]: every
    deletion is issued, the results come in the order of the keys. *)
Fixpoint deleteAll (keysToDelete : list string) (svc : Service)
  : list CallStatus * Service :=
  match keysToDelete with
  | [] => ([], svc)
  | key :: rest =>
      let '(r, svc1) := deleteKey key svc in
      let '(rs, svc2) := deleteAll rest svc1 in
      (r :: rs, svc2)
  end.

(** [results.find(r => r.error)] *)
Definition firstError (results : list CallStatus) : option CallStatus :=
  find (fun r => match cs_error r with Some _ => true | None => false end) results.

(** Branch 2a of [DELETE]: the path is a directory. *)
Definition deleteDirectory (path metadataKey : string) (svc1 : Service)
  : option Response * Service :=
  let prefix := if JsString.endsWith path "/" then path else path +++ "/" in
  match listAllKeysWithPrefix prefix svc1 with
  | (None, svc2) => (None, svc2)
  | (Some l, svc2) =>
      match kr_error l with
      | Some listError =>
          (Some (mkResponse (kr_status l)
                   (ErrorJson ("Failed to check if directory is empty: "
                                 +++ listError))), svc2)
      | None =>
          match kr_keys l with
          | Some (_ :: _) =>
              (Some (mkResponse 400 (ErrorJson "Directory not empty")), svc2)
          | _ =>
              let '(d, svc3) := deleteKey metadataKey svc2 in
              match cs_error d with
              | Some deleteMetaError =>
                  (Some (mkResponse (cs_status d)
                           (ErrorJson ("Failed to delete directory metadata: "
                                         +++ deleteMetaError))), svc3)
              | None => (Some (mkResponse 200 SuccessJson), svc3)
              end
          end
      end
  end.

(** Branch 2b of [DELETE]: a file, or no metadata; [keysToDelete] holds the
    metadata key when it is to be deleted. *)
Definition deleteFile (path : string) (keysToDelete : list string) (svc1 : Service)
  : option Response * Service :=
  let chunkPrefix := path +++ CHUNK_SUFFIX in
  match listAllKeysWithPrefix chunkPrefix svc1 with
  | (None, svc2) => (None, svc2)
  | (Some l, svc2) =>
      let keysToDelete :=
        match kr_error l with
        | Some _ => keysToDelete
        | None =>
            match kr_keys l with
            | Some chunkKeys => keysToDelete ++ chunkKeys
            | None => keysToDelete
            end
        end in
      let '(results, svc3) := deleteAll keysToDelete svc2 in
      match firstError results with
      | Some firstError =>
          (Some (mkResponse (cs_status firstError)
                   (ErrorJson ("Failed to delete one or more keys for " +++ path
                                 +++ ": "
                                 +++ match cs_error firstError with
                                     | Some e => e
                                     | None => EmptyString
                                     end))), svc3)
      | None => (Some (mkResponse 200 SuccessJson), svc3)
      end
  end.

(** [DELETE]; [None] only if the listing ran out of fuel. *)
Definition DELETE (path : string) (svc : Service) : option Response * Service :=
  if negb (JsString.truthy path) || String.eqb path "/" then
    (Some (mkResponse 400
             (ErrorJson "Path parameter is required and cannot be root (/)")), svc)
  else
    let '(mr, svc1) := getMetadata path svc in
    let metaStatus := mr_status mr in
    let metadata := mr_metadata mr in
    match (if metaStatus =? 404 then None else mr_error mr) with
    | Some metaError => (Some (mkResponse metaStatus (ErrorJson metaError)), svc1)
    | None =>
        let isDirectory :=
          match metadata with
          | Some m => isDirectoryMode (mode m)
          | None => false
          end in
        let metadataKey := path +++ METADATA_SUFFIX in
        if isDirectory then deleteDirectory path metadataKey svc1
        else
          deleteFile path
            (match metadata with
             | Some _ => [metadataKey]
             | None => if metaStatus =? 404 then [metadataKey] else []
             end) svc1
    end.

End DeleteRoute.

(** ** The mkdir route ([src/app/api/mkdir/route.ts], [POST]) *)

Module MkdirRoute.

(** As in the other routes, without the derivation of [num_chunks]. *)
Definition getMetadata (path : string) (svc : Service) : MetadataResult * Service :=
  let metadataKey :=
    if String.eqb path "/" then "/.__meta__" else path +++ METADATA_SUFFIX in
  let '(r, svc1) := callHpkVApi (GetRecord metadataKey) svc in
  if api_status r =? 404 then (mkMetadataResult None None 404, svc1)
  else
    match api_error r with
    | Some error =>
        (mkMetadataResult None (Some ("Failed to get metadata: " +++ error))
           (api_status r), svc1)
    | None =>
        match api_data r with
        | Some (DRecord (Json metadataObject)) =>
            (mkMetadataResult (Some metadataObject) None 200, svc1)
        | Some (DRecord (Text (_ :: _))) =>
            (mkMetadataResult None (Some "Failed to parse metadata JSON") 500, svc1)
        | _ =>
            (mkMetadataResult None (Some "Metadata found but invalid format") 500,
             svc1)
        end
    end.

Definition writeMetadata (path : string) (metadata : Metadata) (svc : Service)
  : CallStatus * Service :=
  let metadataKey := path +++ METADATA_SUFFIX in
  let '(r, svc1) := callHpkVApi (PostRecord metadataKey (Json metadata)) svc in
  (mkCallStatus (api_error r) (api_status r), svc1).

Definition POST (path : string) (now : Z) (svc : Service) : Response * Service :=
  if negb (JsString.truthy path) || String.eqb path "/" then
    (mkResponse 400 (ErrorJson "Path parameter is required and cannot be root (/)"), svc)
  else if JsString.endsWith path "/" then
    (mkResponse 400 (ErrorJson "Directory path should not end with a slash"), svc)
  else
    let '(mr, svc1) := getMetadata path svc in
    match mr_error mr with
    | Some metaError =>
        (mkResponse (mr_status mr)
           (ErrorJson ("Failed to check existing path: " +++ metaError)), svc1)
    | None =>
        match mr_metadata mr with
        | Some metadata =>
            if isDirectoryMode (mode metadata) then
              (mkResponse 200 (SuccessMessage "Directory already exists"), svc1)
            else
              (mkResponse 409 (ErrorJson "Path exists but is not a directory"), svc1)
        | None =>
            let newMetadata :=
              mkMetadata DEFAULT_DIR_MODE 1000 1000 0 now now now None in
            let '(w, svc2) := writeMetadata path newMetadata svc1 in
            match cs_error w with
            | Some writeMetaError =>
                (mkResponse (cs_status w)
                   (ErrorJson ("Failed to create directory metadata: "
                                 +++ writeMetaError)), svc2)
            | None => (mkResponse 201 SuccessJson, svc2)
            end
        end
    end.

End MkdirRoute.

(** ** The metadata route ([src/app/api/metadata/route.ts], [GET]) *)

Module MetadataRoute.

(** The body of the response: the error object or the metadata object. *)
Inductive MetadataPayload :=
| MetadataError (error : string)
| MetadataObject (metadataObject : Metadata).

Record MetadataResponse := mkMetadataResponse {
  meta_status : Z;
  meta_payload : MetadataPayload
}.

(** [GET]: the stored object is returned as it is parsed, [num_chunks] is
    not derived here. *)
Definition GET (path : string) (svc : Service) : MetadataResponse * Service :=
  if negb (JsString.truthy path) then
    (mkMetadataResponse 400 (MetadataError "Path parameter is required"), svc)
  else
    let metadataKey :=
      if String.eqb path "/" then "/.__meta__" else path +++ METADATA_SUFFIX in
    let '(r, svc1) := callHpkVApi (GetRecord metadataKey) svc in
    match api_error r with
    | Some error =>
        (mkMetadataResponse (api_status r)
           (MetadataError ("Failed to get metadata: " +++ error)), svc1)
    | None =>
        match api_data r with
        | Some (DRecord (Json metadataObject)) =>
            (mkMetadataResponse 200 (MetadataObject metadataObject), svc1)
        | Some (DRecord (Text (_ :: _))) =>
            (mkMetadataResponse 500 (MetadataError "Failed to parse metadata JSON"), svc1)
        | _ =>
            (mkMetadataResponse 404
               (MetadataError "Metadata not found or invalid format"), svc1)
        end
    end.

End MetadataRoute.

(** ** The file manager ([FileManager] of the components): the paths it
    builds *)

Module FileManager.

(** [currentPath === "/" ? `/${name}` : `${currentPath}/${name}`]: the path
    of an entry of the current directory, as [handleNavigate],
    [handleDelete], [handleCreateDir], [handleEdit] and the upload build
    it. *)
Definition childPath (currentPath name : string) : string :=
  if String.eqb currentPath "/" then "/" +++ name else currentPath +++ "/" +++ name.

(** [parts.join("/")] *)
Fixpoint join (parts : list string) : string :=
  match parts with
  | [] => EmptyString
  | [p] => p
  | p :: rest => p +++ "/" +++ join rest
  end.

(** [handleNavigate]: the current path after a click on [entry]; a click
    on a file opens the editor and leaves the path. *)
Definition handleNavigate (currentPath : string) (entry : Entry) : string :=
  if isDir entry then childPath currentPath (name entry) else currentPath.

(** [handleGoUp]: the current path after the button. *)
Definition handleGoUp (currentPath : string) : string :=
  if String.eqb currentPath "/" then currentPath
  else
    let parts := filter JsString.truthy (JsString.split "/" currentPath) in
    let parts := removelast parts in
    match parts with
    | [] => "/"
    | _ :: _ => "/" +++ join parts
    end.

End FileManager.

(** * The vocabulary of the properties *)

(** A service that refuses nothing. *)
Definition noFault : ApiCall -> option Failure := fun _ => None.

Definition faultless (svc : Service) : Prop := forall c, fault svc c = None.

Definition emptyService : Service := mkService [] noFault 1000 false [].

(** A request on one of the chunk keys of [path]. *)
Definition onChunkOf (path : string) (c : ApiCall) : Prop :=
  exists i,
    match c with
    | GetRecord k | PostRecord k _ | DeleteRecord k => k = chunkKeyOf path i
    | ListKeys _ _ _ => False
    end.

(** The invariant of the data model on one metadata value. *)
Definition chunkCountInvariant (m : Metadata) : Prop :=
  0 < size m -> num_chunks m = Some (ceil_div (size m) MAX_CHUNK_SIZE).

Definition regularFile (size' : Z) (chunks : option Z) : Metadata :=
  mkMetadata DEFAULT_FILE_MODE 1000 1000 size' 0 0 0 chunks.

Definition directory : Metadata :=
  mkMetadata DEFAULT_DIR_MODE 1000 1000 0 0 0 0 None.

(** A file of 5000 bytes whose record says seven chunks. *)
Definition staleCountService : Service :=
  mkService [("/f.__meta__", Json (regularFile 5000 (Some 7)))] noFault 1000 false [].

(** A file of 6000 bytes, none of whose chunks was ever written. *)
Definition sparseService : Service :=
  mkService [("/s.__meta__", Json (regularFile 6000 (Some 2)))] noFault 1000 false [].

(** A request that stores no metadata object. *)
Definition storesNoMetadata (c : ApiCall) : Prop :=
  match c with
  | PostRecord _ (Json _) => False
  | _ => True
  end.

(** C4 as the specification states it, for one request whose body decodes
    to no byte: success reporting 0 bytes, no request on a chunk key, and a
    metadata record for the path afterwards. *)
Definition zeroWriteClaim (path : string) (offset : Z) (body : string) (now : Z)
  (svc : Service) : Prop :=
  let '(response, svc') := WriteRoute.POST path offset body now svc in
  response = mkResponse 200 (BytesWritten 0)
  /\ (forall c, In c (calls svc') -> onChunkOf path c -> In c (calls svc))
  /\ Store.lookup (metadataKeyOf path) (records svc') <> None.

(** Two states of the service that differ at most in the log of requests. *)
Definition sameStore (a b : Service) : Prop :=
  records a = records b /\ fault a = fault b /\ pageLimit a = pageLimit b
  /\ groupsByDelimiter a = groupsByDelimiter b.

(** The service never answers 404 to a request on a record it holds. *)
Definition honest404 (svc : Service) : Prop :=
  forall c text, fault svc c <> Some (HttpFailure 404 text).

Definition isRead (c : ApiCall) : Prop :=
  match c with
  | GetRecord _ | ListKeys _ _ _ => True
  | _ => False
  end.

(** The records once every key of [keys] is removed. *)
Definition removeAll (keys : list string) (l : list (string * Value))
  : list (string * Value) :=
  fold_left (fun l k => Store.remove k l) keys l.

(** A directory [/d] with one file in it. *)
Definition dirService : Service :=
  mkService [("/d.__meta__", Json directory); ("/d/x.__meta__", Json (regularFile 0 None))]
    noFault 1000 false [].

(** An empty directory [/d] beside a file [/e]. *)
Definition emptyDirService : Service :=
  mkService [("/d.__meta__", Json directory); ("/e.__meta__", Json (regularFile 0 None))]
    noFault 1000 false [].

(** A directory whose path ends in a slash. *)
Definition slashDirService : Service :=
  mkService [("/d/.__meta__", Json directory)] noFault 1000 false [].

Definition twoChunkRecords : list (string * Value) :=
  [("/f.__meta__", Json (regularFile 3004 (Some 2)));
   ("/f.chunk0", Text (repeat 97%N 3000));
   ("/f.chunk1", Text (repeat 98%N 4))].

(** A file of two chunks in a service that lists one key per page. *)
Definition fileService : Service := mkService twoChunkRecords noFault 1 false [].

(** The same file in a service that refuses every list request. *)
Definition brokenScanService : Service :=
  mkService twoChunkRecords
    (fun c => match c with
              | ListKeys _ _ _ => Some (HttpFailure 503 "unavailable")
              | _ => None
              end) 1 false [].

(** The store of the listing example: a file [/a/x] and a file [/a/y/z],
    enumerated as they are (no grouping by the delimiter). *)
Definition listingService : Service :=
  mkService [("/a/x.__meta__", Json (regularFile 0 None));
             ("/a/y/z.__meta__", Json (regularFile 0 None))] noFault 1000 false [].

(** The byte at index [j] of a buffer, zero past its end. *)
Definition byteAt (b : Buffer) (j : Z) : byte := nth (Z.to_nat j) b x00.

(** The number of bytes [copy] moves. *)
Definition copied (source target : Buffer) (targetStart sourceStart sourceEnd : Z) : Z :=
  Z.max 0 (Z.min (Z.min (sourceEnd - sourceStart) (Buf.length target - targetStart))
                 (Buf.length source - sourceStart)).

(** Bytes and code units below 128: text in ASCII. *)
Definition asciiBytes (b : Buffer) : Prop := Forall (fun x => (Byte.to_N x < 128)%N) b.

Definition asciiText (s : jsstring) : Prop := Forall (fun c => (c < 128)%N) s.

(** The bytes of chunk [i] of [path] as the write route reads them: the
    stored string in UTF-8, nothing when the key is absent. *)
Definition chunkBytes (recs : list (string * Value)) (path : string) (i : Z) : Buffer :=
  match Store.lookup (chunkKeyOf path i) recs with
  | Some v => Utf8.encode (value_string v)
  | None => []
  end.

(** The byte at position [k] of the file: byte [k mod MAX_CHUNK_SIZE] of
    chunk [k / MAX_CHUNK_SIZE], zero where the chunk holds none. *)
Definition fileByte (recs : list (string * Value)) (path : string) (k : Z) : byte :=
  byteAt (chunkBytes recs path (k / MAX_CHUNK_SIZE)) (k mod MAX_CHUNK_SIZE).

(** The content the write route gives chunk [i] when the existing records
    are [recs]. *)
Definition writtenChunk (recs : list (string * Value)) (path : string)
  (writeData : Buffer) (offset : Z) (i : Z) : Buffer :=
  fst (WriteRoute.newChunkOf (chunkBytes recs path i) writeData offset
         (offset + Buf.length writeData) i
         (Z.max offset (i * MAX_CHUNK_SIZE) - offset)).

(** C3 as the specification states it, for one write: the bytes of the
    range are the data, every other byte of the file is as before. *)
Definition writeFrameClaim (path : string) (offset : Z) (body : string) (now : Z)
  (svc : Service) : Prop :=
  forall k, 0 <= k ->
    fileByte (records (snd (WriteRoute.POST path offset body now svc))) path k
    = if (offset <=? k) && (k <? offset + Buf.length (Base64.decode body))
      then byteAt (Base64.decode body) (k - offset)
      else fileByte (records svc) path k.

(** A file holding the two bytes [AB]. *)
Definition smallFileService : Service :=
  mkService [("/f.__meta__", Json (regularFile 2 (Some 1))); ("/f.chunk0", Text [65; 66]%N)]
    noFault 1000 false [].

(** C1 as the specification states it, for one request: the read of as
    many bytes as were written at offset 0 returns them. *)
Definition roundTripClaim (path : string) (body : string) (now : Z) (svc : Service)
  : Prop :=
  fst (ReadRoute.GET path 0 (Buf.length (Base64.decode body))
         (snd (WriteRoute.POST path 0 body now svc)))
  = mkResponse 200 (Body (Base64.decode body)).

(** Case analysis on the comparisons of a goal. *)
Ltac by_cases :=
  repeat match goal with
    | |- context [Z.leb ?a ?b] => destruct (Z.leb_spec a b)
    | |- context [Z.ltb ?a ?b] => destruct (Z.ltb_spec a b)
    end; cbn [andb]; try reflexivity; try lia.

(** The size the metadata record of [path] gives, 0 without a record. *)
Definition storedSize (recs : list (string * Value)) (path : string) : Z :=
  match Store.lookup (metadataKeyOf path) recs with
  | Some (Json m) => size m
  | _ => 0
  end.

(** ** The vocabulary of the further properties *)

(** A request that can change the record under [k]. *)
Definition writesKey (k : string) (c : ApiCall) : Prop :=
  match c with
  | PostRecord k' _ | DeleteRecord k' => k' = k
  | _ => False
  end.

(** The characters of a printed integer: the digits and the sign. *)
Definition numeralChar (c : ascii) : bool :=
  Ascii.eqb c "-"%char
  || ((48 <=? nat_of_ascii c)%nat && (nat_of_ascii c <=? 57)%nat).

(** The part of the content [C] that chunk [i] holds. *)
Definition chunkSlice (C : Buffer) (i : Z) : Buffer :=
  firstn (Z.to_nat MAX_CHUNK_SIZE) (skipn (Z.to_nat (i * MAX_CHUNK_SIZE)) C).

(** The records hold the regular file [path] with the ASCII content [C],
    chunk by chunk and without a gap: the metadata record gives the length
    of [C] as the size, chunk [i] holds the text of bytes
    [i * MAX_CHUNK_SIZE ..] of [C], and there is no chunk past the end. *)
Definition holdsFile (recs : list (string * Value)) (path : string) (C : Buffer)
  : Prop :=
  asciiBytes C
  /\ (exists m,
        Store.lookup (metadataKeyOf path) recs = Some (Json m)
        /\ isDirectoryMode (mode m) = false
        /\ size m = Buf.length C
        /\ (num_chunks m = None
            \/ num_chunks m = Some (ceil_div (size m) MAX_CHUNK_SIZE)))
  /\ (forall i, 0 <= i -> i * MAX_CHUNK_SIZE < Buf.length C ->
        Store.lookup (chunkKeyOf path i) recs
        = Some (Text (map Byte.to_N (chunkSlice C i))))
  /\ (forall i, i < 0 \/ Buf.length C <= i * MAX_CHUNK_SIZE ->
        Store.lookup (chunkKeyOf path i) recs = None).

(** The records hold nothing for [path]. *)
Definition noRecordOf (recs : list (string * Value)) (path : string) : Prop :=
  Store.lookup (metadataKeyOf path) recs = None
  /\ forall i, Store.lookup (chunkKeyOf path i) recs = None.

(** The content [C] once [D] is written over it at [offset]; a write that
    starts past the end of [C] leaves zero bytes in between. *)
Definition spliced (C : Buffer) (offset : Z) (D : Buffer) : Buffer :=
  firstn (Z.to_nat offset) (C ++ Buf.alloc (offset - Buf.length C))
    ++ D ++ skipn (Z.to_nat (offset + Buf.length D)) C.

(** The bytes of [C] a read of [len] bytes at [offset] asks for. *)
Definition sliceOf (C : Buffer) (offset len : Z) : Buffer :=
  firstn (Z.to_nat len) (skipn (Z.to_nat offset) C).

(** A sequence of writes to one path, each an offset, a request body and the
    clock at the request; the service after them, one after the other. *)
Fixpoint afterWrites (path : string) (ws : list (Z * string * Z)) (svc : Service)
  : Service :=
  match ws with
  | [] => svc
  | (offset, body, now) :: rest =>
      afterWrites path rest (snd (WriteRoute.POST path offset body now svc))
  end.

(** The same writes on a plain byte array. *)
Fixpoint contentAfter (ws : list (Z * string * Z)) (C : Buffer) : Buffer :=
  match ws with
  | [] => C
  | (offset, body, _) :: rest =>
      contentAfter rest (spliced C offset (Base64.decode body))
  end.

(** Each write carries ASCII data, at least one byte, and skips no chunk:
    it starts no later than in the chunk where the content the writes before
    it have left ends. *)
Fixpoint contiguousWrites (ws : list (Z * string * Z)) (C : Buffer) : Prop :=
  match ws with
  | [] => True
  | (offset, body, _) :: rest =>
      0 <= offset
      /\ offset / MAX_CHUNK_SIZE <= Buf.length C / MAX_CHUNK_SIZE
      /\ Base64.decode body <> []
      /\ asciiBytes (Base64.decode body)
      /\ contiguousWrites rest (spliced C offset (Base64.decode body))
  end.

(** A name that is one component of a path: not empty, no slash. *)
Definition componentName (s : string) : Prop :=
  s <> EmptyString /\ JsString.includesChar "/" s = false.

(** The prefix the list route scans for [path]. *)
Definition listPrefix (path : string) : string :=
  if String.eqb path "/" then "/"
  else if JsString.endsWith path "/" then path else path +++ "/".

(** The service does not refuse the deletion of [k]. *)
Definition deletable (svc : Service) (k : string) : bool :=
  match fault svc (DeleteRecord k) with
  | None => true
  | Some _ => false
  end.

(** The file of two chunks in a service that refuses to delete chunk 0. *)
Definition stubbornService : Service :=
  mkService twoChunkRecords
    (fun c => match c with
              | DeleteRecord k =>
                  if String.eqb k "/f.chunk0" then Some (HttpFailure 500 "busy") else None
              | _ => None
              end) 1000 false [].

(** The paths the file manager can be at: the root, and what a click on
    an entry reaches from there. *)
Inductive browsable : string -> Prop :=
| browsable_root : browsable "/"
| browsable_child cur n :
    browsable cur -> componentName n -> browsable (FileManager.childPath cur n).

(** A request a read of the range [offset, offset + len) of [path] may
    send: for the metadata record, or for a chunk that overlaps the range. *)
Definition readRequest (path : string) (offset len : Z) (c : ApiCall) : Prop :=
  c = GetRecord (metadataKeyOf path)
  \/ exists i,
       offset / MAX_CHUNK_SIZE <= i <= (offset + len - 1) / MAX_CHUNK_SIZE
       /\ c = GetRecord (chunkKeyOf path i).

(** * Properties *)

(** ** Strings and keys *)

Lemma append_inj_l (p a b : string) : p +++ a = p +++ b -> a = b.
Proof.
  induction p as [|c p IH]; simpl; intros H; [exact H|].
  injection H as H. auto.
Qed.

Lemma append_assoc (a b c : string) : (a +++ b) +++ c = a +++ b +++ c.
Proof. induction a as [|x a IH]; simpl; [reflexivity | now rewrite IH]. Qed.

Lemma prefix_append (p s : string) : String.prefix p (p +++ s) = true.
Proof.
  induction p as [|c p IH]; simpl; [now destruct s|].
  destruct (ascii_dec c c) as [_|n]; [exact IH | now elim n].
Qed.

Lemma truthy_nonempty (s : string) : s <> EmptyString -> JsString.truthy s = true.
Proof. destruct s; [congruence | reflexivity]. Qed.

Lemma to_int_parses (i : Z) :
  NilZero.int_of_string (NilZero.string_of_int (Z.to_int i)) = Some (Z.to_int i).
Proof.
  apply NilZero.isi; destruct i; simpl; try discriminate;
    intros [= H]; now apply DecimalPos.Unsigned.to_uint_nonnil in H.
Qed.

Lemma ofZ_inj (i j : Z) : JsString.ofZ i = JsString.ofZ j -> i = j.
Proof.
  unfold JsString.ofZ. intros H.
  apply DecimalZ.to_int_inj.
  pose proof (to_int_parses i) as Hi. rewrite H, to_int_parses in Hi. congruence.
Qed.

Lemma chunkKeyOf_inj (path : string) (i j : Z) :
  chunkKeyOf path i = chunkKeyOf path j -> i = j.
Proof.
  unfold chunkKeyOf. intros H.
  now apply append_inj_l, append_inj_l, ofZ_inj in H.
Qed.

Lemma chunkKey_not_metadataKey (path : string) (i : Z) :
  chunkKeyOf path i <> metadataKeyOf path.
Proof.
  unfold chunkKeyOf, metadataKeyOf. intros H. apply append_inj_l in H. discriminate.
Qed.

Lemma chunkKey_has_chunkPrefix (path : string) (i : Z) :
  JsString.startsWith (chunkKeyOf path i) (chunkPrefixOf path) = true.
Proof.
  unfold JsString.startsWith, chunkKeyOf, chunkPrefixOf.
  rewrite <- append_assoc. apply prefix_append.
Qed.

(** ** The records of the service *)

Lemma lookup_put_same k v l : Store.lookup k (Store.put k v l) = Some v.
Proof.
  induction l as [|[k' v'] l IH]; simpl.
  - now rewrite String.eqb_refl.
  - destruct (String.eqb k k') eqn:E; simpl; [now rewrite String.eqb_refl|].
    now rewrite E.
Qed.

Lemma lookup_put_other k k' v l :
  k' <> k -> Store.lookup k' (Store.put k v l) = Store.lookup k' l.
Proof.
  intros N. induction l as [|[k2 v2] l IH]; simpl.
  - apply String.eqb_neq in N. now rewrite N.
  - destruct (String.eqb k k2) eqn:E; simpl.
    + apply String.eqb_eq in E. subst k2.
      apply String.eqb_neq in N. now rewrite N.
    + now rewrite IH.
Qed.

Lemma lookup_remove_same k l : Store.lookup k (Store.remove k l) = None.
Proof.
  induction l as [|[k' v'] l IH]; simpl; [reflexivity|].
  destruct (String.eqb k k') eqn:E; simpl; [exact IH | now rewrite E].
Qed.

Lemma lookup_remove_other k k' l :
  k' <> k -> Store.lookup k' (Store.remove k l) = Store.lookup k' l.
Proof.
  intros N. induction l as [|[k2 v2] l IH]; simpl; [reflexivity|].
  destruct (String.eqb k k2) eqn:E; simpl.
  - apply String.eqb_eq in E. subst k2.
    apply String.eqb_neq in N. now rewrite N.
  - now rewrite IH.
Qed.

Lemma remove_absent k l : Store.lookup k l = None -> Store.remove k l = l.
Proof.
  induction l as [|[k' v'] l IH]; simpl; [reflexivity|].
  destruct (String.eqb k k'); [discriminate|]. intros H. now rewrite IH.
Qed.

Lemma lookup_in_keys k l : Store.lookup k l <> None <-> In k (Store.keys l).
Proof.
  induction l as [|[k' v'] l IH]; simpl; [tauto|].
  destruct (String.eqb k k') eqn:E.
  - apply String.eqb_eq in E. subst. split; [auto | discriminate].
  - apply String.eqb_neq in E. rewrite IH. split; [auto|]. intros [F|F]; congruence.
Qed.

(** ** Requests the service accepts *)

Lemma call_get_found svc k v :
  fault svc (GetRecord k) = None -> Store.lookup k (records svc) = Some v ->
  callHpkVApi (GetRecord k) svc
  = (mkApiResult (Some (DRecord v)) None 200, received (GetRecord k) (records svc) svc).
Proof. intros F L. unfold callHpkVApi. rewrite F. simpl. now rewrite L. Qed.

Lemma call_get_absent svc k :
  fault svc (GetRecord k) = None -> Store.lookup k (records svc) = None ->
  callHpkVApi (GetRecord k) svc = (notFound, received (GetRecord k) (records svc) svc).
Proof. intros F L. unfold callHpkVApi. rewrite F. simpl. now rewrite L. Qed.

Lemma call_post svc k v :
  fault svc (PostRecord k v) = None ->
  callHpkVApi (PostRecord k v) svc
  = (mkApiResult (Some DDone) None 200,
     received (PostRecord k v) (Store.put k v (records svc)) svc).
Proof. intros F. unfold callHpkVApi. now rewrite F. Qed.

(** No request changes what the service refuses, how it pages or groups. *)
Lemma call_keeps_behaviour c svc :
  let svc' := snd (callHpkVApi c svc) in
  fault svc' = fault svc /\ pageLimit svc' = pageLimit svc
  /\ groupsByDelimiter svc' = groupsByDelimiter svc.
Proof.
  unfold callHpkVApi. destruct (fault svc c); [simpl; auto|].
  destruct (serve svc c). simpl. auto.
Qed.

(** ** Reading ([ReadRoute]) *)

Lemma read_getMetadata_absent path svc :
  Store.lookup (metadataKeyOf path) (records svc) = None ->
  fault svc (GetRecord (metadataKeyOf path)) = None ->
  exists e svc',
    ReadRoute.getMetadata path svc = (mkMetadataResult None (Some e) 404, svc').
Proof.
  intros L F. unfold ReadRoute.getMetadata.
  fold (metadataKeyOf path). rewrite (call_get_absent _ _ F L). simpl.
  eexists _, _. reflexivity.
Qed.

Lemma read_getMetadata_found path svc m :
  Store.lookup (metadataKeyOf path) (records svc) = Some (Json m) ->
  fault svc (GetRecord (metadataKeyOf path)) = None ->
  ReadRoute.getMetadata path svc
  = (mkMetadataResult (Some (withNumChunks m)) None 200,
     received (GetRecord (metadataKeyOf path)) (records svc) svc).
Proof.
  intros L F. unfold ReadRoute.getMetadata.
  fold (metadataKeyOf path). now rewrite (call_get_found _ _ _ F L).
Qed.

Lemma read_getChunk_absent path i svc :
  Store.lookup (chunkKeyOf path i) (records svc) = None ->
  fault svc (GetRecord (chunkKeyOf path i)) = None ->
  ReadRoute.getChunk path i svc
  = (mkChunkResult None None 404,
     received (GetRecord (chunkKeyOf path i)) (records svc) svc).
Proof.
  intros L F. unfold ReadRoute.getChunk.
  fold (chunkKeyOf path i). now rewrite (call_get_absent _ _ F L).
Qed.

(** C8, as amended: a read of [size > 0] bytes of a path without a metadata
    record fails with status 404 (NotFound) at every offset; a read of
    [size = 0] bytes succeeds with an empty body, the metadata is not
    looked at. *)
Theorem read_without_metadata path offset len svc :
  path <> EmptyString -> 0 <= offset -> 0 <= len ->
  Store.lookup (metadataKeyOf path) (records svc) = None ->
  fault svc (GetRecord (metadataKeyOf path)) = None ->
  (0 < len ->
   resp_status (fst (ReadRoute.GET path offset len svc)) = 404
   /\ exists e, resp_payload (fst (ReadRoute.GET path offset len svc)) = ErrorJson e)
  /\ (len = 0 -> ReadRoute.GET path offset len svc = (mkResponse 200 (Body []), svc)).
Proof.
  intros P O S L F. unfold ReadRoute.GET.
  rewrite (truthy_nonempty _ P). simpl negb. cbv iota.
  replace (offset <? 0) with false by (symmetry; apply Z.ltb_ge; lia).
  replace (len <? 0) with false by (symmetry; apply Z.ltb_ge; lia).
  simpl orb. cbv iota. split.
  - intros Hpos. replace (len =? 0) with false by (symmetry; apply Z.eqb_neq; lia).
    destruct (read_getMetadata_absent path svc L F) as (e & svc' & ->). simpl.
    split; [reflexivity | now exists e].
  - intros ->. reflexivity.
Qed.

Lemma read_without_metadata_witness :
  resp_status (fst (ReadRoute.GET "/nofile" 7 3 emptyService)) = 404
  /\ ReadRoute.GET "/nofile" 7 0 emptyService = (mkResponse 200 (Body []), emptyService).
Proof.
  assert (P : "/nofile" <> EmptyString) by discriminate.
  split.
  - apply (read_without_metadata "/nofile" 7 3 emptyService P); try lia; reflexivity.
  - apply (read_without_metadata "/nofile" 7 0 emptyService P); try lia; reflexivity.
Defined.

(** C8, as stated, fails for [size = 0]: the path has no metadata record
    and the read answers 200 with an empty body. *)
Lemma read_of_nothing_succeeds :
  Store.lookup (metadataKeyOf "/nofile") (records emptyService) = None
  /\ fst (ReadRoute.GET "/nofile" 0 0 emptyService) = mkResponse 200 (Body [])
  /\ resp_status (fst (ReadRoute.GET "/nofile" 0 0 emptyService)) <> 404.
Proof. repeat split. discriminate. Qed.

Lemma withNumChunks_mode m : mode (withNumChunks m) = mode m.
Proof. unfold withNumChunks. now destruct (_ && _). Qed.

Lemma withNumChunks_size m : size (withNumChunks m) = size m.
Proof. unfold withNumChunks. now destruct (_ && _). Qed.

Lemma chunk_index_of_range i offset len :
  0 < len -> i * MAX_CHUNK_SIZE <= offset ->
  offset + len <= (i + 1) * MAX_CHUNK_SIZE ->
  offset / MAX_CHUNK_SIZE = i /\ (offset + len - 1) / MAX_CHUNK_SIZE = i.
Proof.
  unfold MAX_CHUNK_SIZE. intros L A B. split; symmetry.
  - apply Z.div_unique_pos with (r := offset - i * 3000); lia.
  - apply Z.div_unique_pos with (r := offset + len - 1 - i * 3000); lia.
Qed.

(** One turn of the read loop on a chunk whose key is absent: nothing is
    added to the data read so far. *)
Lemma readChunks_absent count path offset readSize numChunks i combinedData bytesRead svc :
  Store.lookup (chunkKeyOf path i) (records svc) = None ->
  fault svc (GetRecord (chunkKeyOf path i)) = None ->
  ReadRoute.readChunks (S count) path offset readSize numChunks i combinedData
    bytesRead svc
  = if negb (i <? numChunks) then (inr combinedData, svc)
    else
      let svc1 := received (GetRecord (chunkKeyOf path i)) (records svc) svc in
      if readSize <=? bytesRead then (inr combinedData, svc1)
      else ReadRoute.readChunks count path offset readSize numChunks (i + 1)
             combinedData bytesRead svc1.
Proof.
  intros C F. cbn [ReadRoute.readChunks].
  destruct (negb (i <? numChunks)); [reflexivity|].
  rewrite read_getChunk_absent by assumption.
  cbn [cr_error cr_chunkData cr_status].
  assert (Z.max 0 (Z.min (Text.length []) (offset + readSize - i * MAX_CHUNK_SIZE)
                   - Z.max 0 (offset - i * MAX_CHUNK_SIZE)) = 0) as ->
    by (unfold Text.length; cbn [List.length Z.of_nat]; lia).
  reflexivity.
Qed.

(** C2, as amended: a read whose range lies below the file size and inside
    one chunk index whose key is absent returns an empty body (no byte at
    all): the absent chunk is read as the empty string and adds nothing. *)
Theorem sparse_read_is_empty path offset len svc m i :
  path <> EmptyString -> 0 <= offset -> 0 <= len ->
  Store.lookup (metadataKeyOf path) (records svc) = Some (Json m) ->
  isDirectoryMode (mode m) = false ->
  0 < size m -> offset + len <= size m ->
  i * MAX_CHUNK_SIZE <= offset -> offset + len <= (i + 1) * MAX_CHUNK_SIZE ->
  Store.lookup (chunkKeyOf path i) (records svc) = None ->
  fault svc (GetRecord (metadataKeyOf path)) = None ->
  fault svc (GetRecord (chunkKeyOf path i)) = None ->
  fst (ReadRoute.GET path offset len svc) = mkResponse 200 (Body []).
Proof.
  intros P O L M D S R A B C F1 F2. unfold ReadRoute.GET.
  rewrite (truthy_nonempty _ P). simpl negb. cbv iota.
  replace (offset <? 0) with false by (symmetry; apply Z.ltb_ge; lia).
  replace (len <? 0) with false by (symmetry; apply Z.ltb_ge; lia).
  simpl orb. cbv iota.
  destruct (Z.eqb_spec len 0) as [->|N]; [reflexivity|].
  rewrite (read_getMetadata_found _ _ _ M F1).
  cbn [mr_error mr_metadata mr_status].
  rewrite withNumChunks_mode, D, withNumChunks_size.
  replace (size m <=? offset) with false by (symmetry; apply Z.leb_gt; lia).
  rewrite (Z.min_l len) by lia.
  replace (len <=? 0) with false by (symmetry; apply Z.leb_gt; lia).
  destruct (chunk_index_of_range i offset len) as [E1 E2]; try lia.
  rewrite E1, E2. replace (i - i + 1) with 1 by lia.
  change (Z.to_nat 1) with 1%nat.
  assert (T : (len <? Text.length []) = false)
    by (apply Z.ltb_ge; unfold Text.length; cbn [List.length Z.of_nat]; lia).
  rewrite readChunks_absent by assumption.
  destruct (negb (i <? _)); [cbn [fst]; now rewrite T|].
  cbv zeta. replace (len <=? 0) with false by (symmetry; apply Z.leb_gt; lia).
  cbn [ReadRoute.readChunks fst]. now rewrite T.
Qed.

Lemma sparse_read_is_empty_witness :
  fst (ReadRoute.GET "/s" 3100 4 sparseService) = mkResponse 200 (Body []).
Proof.
  apply (sparse_read_is_empty "/s" 3100 4 sparseService (regularFile 6000 (Some 2)) 1);
    try reflexivity; try discriminate; unfold MAX_CHUNK_SIZE; simpl; lia.
Defined.

(** C2, as stated, fails: four bytes asked of a never-written chunk below
    the file size, and the body is not four zero bytes. *)
Lemma sparse_read_returns_no_zeros :
  Store.lookup (chunkKeyOf "/s" 1) (records sparseService) = None
  /\ fst (ReadRoute.GET "/s" 3100 4 sparseService) = mkResponse 200 (Body [])
  /\ fst (ReadRoute.GET "/s" 3100 4 sparseService)
     <> mkResponse 200 (Body (repeat x00 4)).
Proof. repeat split. discriminate. Qed.

(** ** Writing ([WriteRoute]) *)

Lemma call_logs c svc : calls (snd (callHpkVApi c svc)) = c :: calls svc.
Proof.
  unfold callHpkVApi. destruct (fault svc c); [reflexivity|].
  now destruct (serve svc c).
Qed.

Lemma write_getMetadata_logs path svc :
  calls (snd (WriteRoute.getMetadata path svc))
  = GetRecord (metadataKeyOf path) :: calls svc.
Proof.
  unfold WriteRoute.getMetadata. fold (metadataKeyOf path).
  pose proof (call_logs (GetRecord (metadataKeyOf path)) svc) as H.
  destruct (callHpkVApi _ svc) as [r svc1]. simpl in H.
  destruct (api_status r =? 404); [exact H|].
  destruct (api_error r); [exact H|].
  destruct (api_data r) as [[[[|]|]| |]|]; exact H.
Qed.

Lemma write_getChunk_logs path i svc :
  calls (snd (WriteRoute.getChunk path i svc)) = GetRecord (chunkKeyOf path i) :: calls svc.
Proof.
  unfold WriteRoute.getChunk. fold (chunkKeyOf path i).
  pose proof (call_logs (GetRecord (chunkKeyOf path i)) svc) as H.
  destruct (callHpkVApi _ svc) as [r svc1]. simpl in H.
  destruct (api_status r =? 404); [exact H|].
  destruct (api_error r); exact H.
Qed.

Lemma writeChunk_logs path i data svc :
  calls (snd (WriteRoute.writeChunk path i data svc))
  = PostRecord (chunkKeyOf path i) (Text data) :: calls svc.
Proof.
  unfold WriteRoute.writeChunk. fold (chunkKeyOf path i).
  pose proof (call_logs (PostRecord (chunkKeyOf path i) (Text data)) svc) as H.
  now destruct (callHpkVApi _ svc) as [r svc1].
Qed.

Lemma writeMetadata_logs path m svc :
  calls (snd (WriteRoute.writeMetadata path m svc))
  = PostRecord (metadataKeyOf path) (Json m) :: calls svc.
Proof.
  unfold WriteRoute.writeMetadata. fold (metadataKeyOf path).
  pose proof (call_logs (PostRecord (metadataKeyOf path) (Json m)) svc) as H.
  now destruct (callHpkVApi _ svc) as [r svc1].
Qed.

(** The loop over the chunks stores chunks only. *)
Lemma writeChunks_logs count path writeData offset writeEnd :
  forall i cur svc,
  exists new,
    calls (snd (WriteRoute.writeChunks count path writeData offset writeEnd i cur svc))
    = new ++ calls svc
    /\ Forall storesNoMetadata new.
Proof.
  induction count as [|count IH]; intros i cur svc; cbn [WriteRoute.writeChunks].
  - exists []. split; [reflexivity | constructor].
  - pose proof (write_getChunk_logs path i svc) as G.
    destruct (WriteRoute.getChunk path i svc) as [g svc1]. cbn [snd] in G.
    destruct (cr_error g).
    + exists [GetRecord (chunkKeyOf path i)]. split; [exact G|]. now repeat constructor.
    + destruct (WriteRoute.newChunkOf _ _ _ _ _ _) as [newChunk n].
      pose proof (writeChunk_logs path i (Utf8.decode newChunk) svc1) as W.
      destruct (WriteRoute.writeChunk path i _ svc1) as [w svc2]. cbn [snd] in W.
      destruct (cs_error w).
      * exists [PostRecord (chunkKeyOf path i) (Text (Utf8.decode newChunk));
                GetRecord (chunkKeyOf path i)].
        cbn [snd]. rewrite W, G. split; [reflexivity | now repeat constructor].
      * destruct (IH (i + 1) (cur + n) svc2) as (new & E & A).
        exists (new ++ [PostRecord (chunkKeyOf path i) (Text (Utf8.decode newChunk));
                        GetRecord (chunkKeyOf path i)]).
        rewrite E, W, G, <- app_assoc. split; [reflexivity|].
        apply Forall_app. split; [exact A | now repeat constructor].
Qed.

Lemma ceil_div_spec a b :
  0 < b -> (ceil_div a b - 1) * b < a <= ceil_div a b * b.
Proof.
  intros B. unfold ceil_div.
  pose proof (Z.div_mod (- a) b ltac:(lia)) as E.
  pose proof (Z.mod_pos_bound (- a) b B) as R. nia.
Qed.

(** What [getMetadata] returns comes from the stored record: the size as
    stored, [num_chunks] as stored when the record has one, derived from
    the size when it has none. *)
Lemma write_getMetadata_returns path svc m' :
  mr_metadata (fst (WriteRoute.getMetadata path svc)) = Some m' ->
  exists m,
    Store.lookup (metadataKeyOf path) (records svc) = Some (Json m)
    /\ m' = withNumChunks m.
Proof.
  unfold WriteRoute.getMetadata, callHpkVApi. fold (metadataKeyOf path).
  destruct (fault svc _) as [f|].
  - cbn [fst]. destruct (api_status (failed f) =? 404); [discriminate|].
    destruct f; discriminate.
  - cbn [serve]. destruct (Store.lookup _ _) as [v|]; [|discriminate].
    cbn. destruct v as [[|c s]|m]; try discriminate.
    intros [= <-]. now exists m.
Qed.

(** Every metadata object the write route stores. *)
Lemma POST_stores path offset body now svc :
  exists new,
    calls (snd (WriteRoute.POST path offset body now svc)) = new ++ calls svc
    /\ forall key m, In (PostRecord key (Json m)) new ->
         key = metadataKeyOf path /\ 0 < size m
         /\ num_chunks m = Some (ceil_div (size m) MAX_CHUNK_SIZE).
Proof.
  assert (Z : exists new : list ApiCall, calls svc = new ++ calls svc
              /\ forall key m, In (PostRecord key (Json m)) new ->
                   key = metadataKeyOf path /\ 0 < size m
                   /\ num_chunks m = Some (ceil_div (size m) MAX_CHUNK_SIZE))
    by (exists []; split; [reflexivity | intros ? ? []]).
  unfold WriteRoute.POST.
  destruct (negb (JsString.truthy path)); [exact Z|].
  destruct (Z.ltb_spec offset 0) as [|O]; [exact Z|].
  destruct (negb (JsString.truthy body)); [exact Z|].
  destruct (Z.eqb_spec (Buf.length (Base64.decode body)) 0) as [|S]; [exact Z|].
  clear Z.
  pose proof (write_getMetadata_logs path svc) as G.
  destruct (WriteRoute.getMetadata path svc) as [mr svc1]. cbn [snd] in G.
  assert (Z1 : exists new : list ApiCall, calls svc1 = new ++ calls svc
              /\ forall key m, In (PostRecord key (Json m)) new ->
                   key = metadataKeyOf path /\ 0 < size m
                   /\ num_chunks m = Some (ceil_div (size m) MAX_CHUNK_SIZE)).
  { exists [GetRecord (metadataKeyOf path)]. split; [exact G|].
    intros ? ? [F|[]]. discriminate. }
  destruct (mr_error mr); [exact Z1|].
  destruct (_ && _); [exact Z1|]. clear Z1.
  match goal with |- context [WriteRoute.writeChunks ?n ?p ?d ?o ?e ?i ?c ?s] =>
    destruct (writeChunks_logs n p d o e i c s) as (new & E & A);
    destruct (WriteRoute.writeChunks n p d o e i c s) as [[response|cur] svc2]
  end; cbn [snd] in E.
  - exists (new ++ [GetRecord (metadataKeyOf path)]). cbn [snd].
    rewrite E, G, <- app_assoc. split; [reflexivity|].
    intros key m I. apply in_app_or in I. destruct I as [I|[F|[]]]; [|discriminate].
    rewrite Forall_forall in A. now apply A in I.
  - match goal with |- context [WriteRoute.writeMetadata ?p ?m ?s] =>
      pose proof (writeMetadata_logs p m s) as W;
      destruct (WriteRoute.writeMetadata p m s) as [w svc3];
      set (stored := m) in *
    end. cbn [snd] in W.
    exists (PostRecord (metadataKeyOf path) (Json stored)
              :: new ++ [GetRecord (metadataKeyOf path)]).
    split.
    + destruct (cs_error w); cbn [snd]; rewrite W, E, G; cbn [app];
        now rewrite <- app_assoc.
    + intros key m [I|I].
      * injection I as <- <-. split; [reflexivity|]. subst stored. cbn [size num_chunks].
        split; [|reflexivity].
        unfold Buf.length in *. lia.
      * apply in_app_or in I. destruct I as [I|[F|[]]]; [|discriminate].
        rewrite Forall_forall in A. now apply A in I.
Qed.

(** C5, as amended: every metadata object the write route stores has
    [size > 0] and [num_chunks = ceil(size / MAX_CHUNK_SIZE)]; what
    [getMetadata] returns has the stored size, and [num_chunks] derived from
    the size when the stored record has none, but returned as stored when
    the record has one, whether or not it agrees with the size. *)
Theorem num_chunks_derivation path offset body now svc :
  (exists new,
     calls (snd (WriteRoute.POST path offset body now svc)) = new ++ calls svc
     /\ forall key m, In (PostRecord key (Json m)) new ->
          key = metadataKeyOf path /\ chunkCountInvariant m)
  /\ (forall m', mr_metadata (fst (WriteRoute.getMetadata path svc)) = Some m' ->
      exists m,
        Store.lookup (metadataKeyOf path) (records svc) = Some (Json m)
        /\ size m' = size m
        /\ (num_chunks m = None -> chunkCountInvariant m')
        /\ (forall n, num_chunks m = Some n -> num_chunks m' = Some n)).
Proof.
  split.
  - destruct (POST_stores path offset body now svc) as (new & E & A).
    exists new. split; [exact E|]. intros key m I.
    destruct (A key m I) as (K & _ & N). split; [exact K | now intros _].
  - intros m' H. destruct (write_getMetadata_returns _ _ _ H) as (m & L & ->).
    exists m. split; [exact L|]. split; [apply withNumChunks_size|].
    unfold chunkCountInvariant, withNumChunks. split.
    + intros N. rewrite N. destruct (Z.ltb_spec 0 (size m)); cbn; [reflexivity | lia].
    + intros n N. rewrite N. now rewrite andb_false_r.
Qed.

(** C5, as stated, fails: the record of a file of 5000 bytes says seven
    chunks; [getMetadata] returns the seven, and ceil(5000 / 3000) is 2. *)
Lemma stale_num_chunks_is_returned :
  mr_metadata (fst (WriteRoute.getMetadata "/f" staleCountService))
  = Some (regularFile 5000 (Some 7))
  /\ ~ chunkCountInvariant (regularFile 5000 (Some 7)).
Proof.
  split; [reflexivity|]. unfold chunkCountInvariant. cbn. intros H.
  specialize (H eq_refl). discriminate.
Qed.

(** C4, as amended: a write whose body decodes to no byte sends no request
    on a chunk key and changes no chunk; with an empty body it is refused
    with status 400, with a body that is not empty it succeeds and reports 0
    bytes written. *)
Theorem zero_length_write path offset body now svc :
  path <> EmptyString -> 0 <= offset -> Base64.decode body = [] ->
  (body = EmptyString ->
   fst (WriteRoute.POST path offset body now svc)
   = mkResponse 400 (ErrorJson "Request body with base64 data is required"))
  /\ (body <> EmptyString ->
      fst (WriteRoute.POST path offset body now svc) = mkResponse 200 (BytesWritten 0))
  /\ (forall c, In c (calls (snd (WriteRoute.POST path offset body now svc))) ->
      onChunkOf path c -> In c (calls svc))
  /\ (forall i,
      Store.lookup (chunkKeyOf path i)
        (records (snd (WriteRoute.POST path offset body now svc)))
      = Store.lookup (chunkKeyOf path i) (records svc)).
Proof.
  intros P O D. unfold WriteRoute.POST.
  rewrite (truthy_nonempty _ P). cbn [negb].
  replace (offset <? 0) with false by (symmetry; apply Z.ltb_ge; lia).
  rewrite D. cbn [Buf.length List.length Z.of_nat Z.eqb].
  destruct body as [|c body]; cbn [JsString.truthy negb fst snd].
  - repeat split; auto. congruence.
  - repeat split; auto. discriminate.
Qed.

Lemma zero_length_write_witness :
  fst (WriteRoute.POST "/f" 0 "=" 0 emptyService) = mkResponse 200 (BytesWritten 0)
  /\ forall i,
      Store.lookup (chunkKeyOf "/f" i)
        (records (snd (WriteRoute.POST "/f" 0 "=" 0 emptyService)))
      = Store.lookup (chunkKeyOf "/f" i) (records emptyService).
Proof.
  assert (P : "/f" <> EmptyString) by discriminate.
  assert (O : 0 <= 0) by lia.
  assert (D : Base64.decode "=" = []) by reflexivity.
  destruct (zero_length_write "/f" 0 "=" 0 emptyService P O D) as (_ & A & _ & B).
  split; [apply A; discriminate | exact B].
Defined.

(** C4, as stated, fails: zero bytes of data are the empty body, and the
    route refuses it with status 400. *)
Lemma empty_body_is_refused :
  Base64.decode EmptyString = []
  /\ fst (WriteRoute.POST "/f" 0 EmptyString 0 emptyService)
     = mkResponse 400 (ErrorJson "Request body with base64 data is required")
  /\ ~ zeroWriteClaim "/f" 0 EmptyString 0 emptyService.
Proof.
  repeat split. unfold zeroWriteClaim. cbn. intros (H & _). discriminate.
Qed.

(** A body that is not empty and decodes to no byte: the write succeeds and
    the path still has no metadata record. *)
Lemma zero_bytes_create_no_metadata :
  WriteRoute.POST "/f" 0 "=" 0 emptyService
  = (mkResponse 200 (BytesWritten 0), emptyService)
  /\ Store.lookup (metadataKeyOf "/f") (records emptyService) = None.
Proof. split; reflexivity. Qed.

(** ** Listing and deleting ([DeleteRoute]) *)

Lemma sameStore_refl a : sameStore a a.
Proof. now repeat split. Qed.

Lemma sameStore_sym a b : sameStore a b -> sameStore b a.
Proof. intros (R & F & P & G). now repeat split. Qed.

Lemma sameStore_trans a b c : sameStore a b -> sameStore b c -> sameStore a c.
Proof.
  intros (R & F & P & G) (R' & F' & P' & G'). repeat split; congruence.
Qed.

Lemma serve_same c a b : sameStore a b -> serve a c = serve b c.
Proof.
  intros (R & F & P & G). destruct c; cbn [serve]; unfold listed, pageSize;
    now rewrite ?R, ?P, ?G.
Qed.

Lemma call_result_same c a b :
  sameStore a b -> fst (callHpkVApi c a) = fst (callHpkVApi c b).
Proof.
  intros H. unfold callHpkVApi. rewrite (serve_same c a b H).
  destruct H as (R & F & P & G). rewrite F.
  destruct (fault b c); [reflexivity|]. now destruct (serve b c).
Qed.

Lemma call_read_same c svc : isRead c -> sameStore svc (snd (callHpkVApi c svc)).
Proof.
  intros H. unfold callHpkVApi. destruct (fault svc c); [now repeat split|].
  destruct c; try contradiction; cbn [serve].
  - destruct (Store.lookup key (records svc)); now repeat split.
  - now repeat split.
Qed.

Lemma listPages_same fuel prefix :
  forall marker acc a b,
  sameStore a b ->
  fst (DeleteRoute.listPages fuel prefix marker acc a)
  = fst (DeleteRoute.listPages fuel prefix marker acc b)
  /\ sameStore a (snd (DeleteRoute.listPages fuel prefix marker acc a)).
Proof.
  induction fuel as [|fuel IH]; intros marker acc a b H; cbn [DeleteRoute.listPages].
  - split; [reflexivity | apply sameStore_refl].
  - pose proof (call_result_same (ListKeys prefix None marker) a b H) as E.
    pose proof (call_read_same (ListKeys prefix None marker) a I) as A.
    pose proof (call_read_same (ListKeys prefix None marker) b I) as B.
    destruct (callHpkVApi _ a) as [r a1], (callHpkVApi _ b) as [r' b1].
    cbn [fst snd] in *. subst r'.
    destruct (api_error r); [now split|].
    destruct (api_data r) as [[v|items [[|c m]|]|]|]; try now split.
    destruct (IH (Some (String c m)) (acc ++ items) a1 b1) as [E' S'].
    + eapply sameStore_trans; [apply sameStore_sym, A|].
      eapply sameStore_trans; [exact H | exact B].
    + split; [exact E' | eapply sameStore_trans; eassumption].
Qed.

Lemma markerOf_nonempty n : exists c m, markerOf n = String c m.
Proof.
  unfold markerOf, NilZero.string_of_uint.
  destruct (Nat.to_uint n); cbn; eauto.
Qed.

Lemma markerPosition_markerOf n : markerPosition (Some (markerOf n)) = n.
Proof.
  unfold markerPosition, markerOf.
  destruct (Nat.to_uint n) eqn:E;
    [cbn; rewrite <- (DecimalNat.Unsigned.of_to n), E; reflexivity | ..];
    rewrite NilZero.usu by discriminate; rewrite <- E;
    apply DecimalNat.Unsigned.of_to.
Qed.

Lemma firstn_plus {A} (a b : nat) (l : list A) :
  firstn (a + b) l = firstn a l ++ firstn b (skipn a l).
Proof.
  revert l. induction a as [|a IH]; intros l; [reflexivity|].
  destruct l; cbn; [now destruct b | now rewrite IH].
Qed.

(** The loop over the pages returns, and what it returns without an error
    is every key with the prefix. *)
Lemma listPages_complete prefix :
  forall fuel pos marker acc svc,
  markerPosition marker = pos ->
  acc = firstn pos (Store.keysWithPrefix prefix (records svc)) ->
  (pos <= List.length (Store.keysWithPrefix prefix (records svc)))%nat ->
  (List.length (Store.keysWithPrefix prefix (records svc)) < fuel + pos)%nat ->
  exists l,
    fst (DeleteRoute.listPages fuel prefix marker acc svc) = Some l
    /\ (DeleteRoute.kr_error l = None ->
        DeleteRoute.kr_keys l = Some (Store.keysWithPrefix prefix (records svc))).
Proof.
  induction fuel as [|fuel IH]; intros pos marker acc svc M A L F; [lia|].
  cbn [DeleteRoute.listPages]. unfold callHpkVApi.
  destruct (fault svc (ListKeys prefix None marker)) as [f|].
  - destruct f; (eexists; split; [reflexivity | discriminate]).
  - cbn [serve listed api_error api_data]. rewrite M.
    set (all := Store.keysWithPrefix prefix (records svc)) in *.
    set (page := pageSize svc).
    assert (P : (1 <= page)%nat) by (unfold page, pageSize; lia).
    destruct (Nat.ltb_spec (pos + page) (List.length all)) as [More|Last].
    + destruct (markerOf_nonempty (pos + page)) as (c & m & E). rewrite E, <- E.
      apply (IH (pos + page)%nat).
      * apply markerPosition_markerOf.
      * cbn [records received]. fold all. rewrite firstn_plus. now rewrite A.
      * cbn [records received]. fold all. lia.
      * cbn [records received]. fold all. lia.
    + eexists. split; [reflexivity|]. cbn [DeleteRoute.kr_error DeleteRoute.kr_keys].
      intros _. f_equal. rewrite A.
      rewrite (firstn_all2 (n := page) (skipn pos all))
        by (rewrite length_skipn; lia).
      apply firstn_skipn.
Qed.

Lemma listAllKeysWithPrefix_returns prefix svc :
  exists l,
    fst (DeleteRoute.listAllKeysWithPrefix prefix svc) = Some l
    /\ (DeleteRoute.kr_error l = None ->
        DeleteRoute.kr_keys l = Some (Store.keysWithPrefix prefix (records svc))).
Proof.
  unfold DeleteRoute.listAllKeysWithPrefix.
  apply (listPages_complete prefix _ O None []); try reflexivity; [lia|].
  unfold Store.keysWithPrefix, Store.keys.
  pose proof (filter_length_le (fun k => JsString.startsWith k prefix)
                (map fst (records svc))) as H.
  rewrite length_map in H. lia.
Qed.

Lemma listAllKeysWithPrefix_same prefix a b :
  sameStore a b ->
  fst (DeleteRoute.listAllKeysWithPrefix prefix a)
  = fst (DeleteRoute.listAllKeysWithPrefix prefix b)
  /\ sameStore a (snd (DeleteRoute.listAllKeysWithPrefix prefix a)).
Proof.
  intros H. unfold DeleteRoute.listAllKeysWithPrefix.
  destruct H as (R & H). rewrite R.
  apply listPages_same. now split.
Qed.

Lemma listPages_no_error prefix svc0 :
  (forall marker, fault svc0 (ListKeys prefix None marker) = None) ->
  forall fuel marker acc svc l,
  fault svc = fault svc0 ->
  fst (DeleteRoute.listPages fuel prefix marker acc svc) = Some l ->
  DeleteRoute.kr_error l = None.
Proof.
  intros F. induction fuel as [|fuel IH]; intros marker acc svc l S; [discriminate|].
  cbn [DeleteRoute.listPages]. unfold callHpkVApi. rewrite S, F.
  cbn [serve api_error api_data].
  destruct (if (_ <? _)%nat then _ else _) as [[|c m]|].
  - now intros [= <-].
  - apply IH. exact S.
  - now intros [= <-].
Qed.

Lemma delete_getMetadata_found path svc m :
  path <> "/" ->
  Store.lookup (metadataKeyOf path) (records svc) = Some (Json m) ->
  fault svc (GetRecord (metadataKeyOf path)) = None ->
  DeleteRoute.getMetadata path svc
  = (mkMetadataResult (Some (withNumChunks m)) None 200,
     received (GetRecord (metadataKeyOf path)) (records svc) svc).
Proof.
  intros R L F. unfold DeleteRoute.getMetadata.
  apply String.eqb_neq in R. rewrite R. fold (metadataKeyOf path).
  now rewrite (call_get_found _ _ _ F L).
Qed.

Lemma delete_getMetadata_absent path svc :
  path <> "/" ->
  Store.lookup (metadataKeyOf path) (records svc) = None ->
  fault svc (GetRecord (metadataKeyOf path)) = None ->
  DeleteRoute.getMetadata path svc
  = (mkMetadataResult None None 404,
     received (GetRecord (metadataKeyOf path)) (records svc) svc).
Proof.
  intros R L F. unfold DeleteRoute.getMetadata.
  apply String.eqb_neq in R. rewrite R. fold (metadataKeyOf path).
  now rewrite (call_get_absent _ _ F L).
Qed.

Lemma deleteKey_accepted key svc :
  fault svc (DeleteRecord key) = None ->
  DeleteRoute.deleteKey key svc
  = (mkCallStatus None 200,
     received (DeleteRecord key) (Store.remove key (records svc)) svc).
Proof.
  intros F. unfold DeleteRoute.deleteKey, callHpkVApi. rewrite F. cbn [serve].
  destruct (Store.lookup key (records svc)) eqn:L; cbn.
  - reflexivity.
  - now rewrite (remove_absent _ _ L).
Qed.

(** A deletion that reports no error has removed the key, if the service is
    honest about 404. *)
Lemma deleteKey_done key svc :
  honest404 svc ->
  cs_error (fst (DeleteRoute.deleteKey key svc)) = None ->
  records (snd (DeleteRoute.deleteKey key svc)) = Store.remove key (records svc).
Proof.
  intros H. destruct (fault svc (DeleteRecord key)) as [f|] eqn:F.
  - unfold DeleteRoute.deleteKey, callHpkVApi. rewrite F.
    destruct f as [st text|msg]; cbn.
    + destruct (Z.eqb_spec st 404) as [->|]; [now elim (H (DeleteRecord key) text)|].
      discriminate.
    + discriminate.
  - now rewrite (deleteKey_accepted _ _ F).
Qed.

Lemma deleteKey_keeps_faults key svc :
  fault (snd (DeleteRoute.deleteKey key svc)) = fault svc.
Proof.
  unfold DeleteRoute.deleteKey.
  pose proof (call_keeps_behaviour (DeleteRecord key) svc) as H.
  destruct (callHpkVApi _ svc) as [r svc1]. cbn in H.
  now destruct (api_status r =? 404).
Qed.

Lemma deleteAll_done keys :
  forall svc,
  honest404 svc ->
  DeleteRoute.firstError (fst (DeleteRoute.deleteAll keys svc)) = None ->
  records (snd (DeleteRoute.deleteAll keys svc)) = removeAll keys (records svc).
Proof.
  induction keys as [|key keys IH]; intros svc H E; [reflexivity|].
  cbn [DeleteRoute.deleteAll] in *.
  pose proof (deleteKey_done key svc H) as D.
  pose proof (deleteKey_keeps_faults key svc) as K.
  destruct (DeleteRoute.deleteKey key svc) as [r svc1]. cbn [fst snd] in *.
  specialize (IH svc1).
  destruct (DeleteRoute.deleteAll keys svc1) as [rs svc2]. cbn [fst snd] in *.
  unfold DeleteRoute.firstError in E. cbn [find] in E.
  destruct (cs_error r); [discriminate|].
  unfold removeAll. cbn [fold_left]. rewrite <- D by reflexivity.
  apply IH; [|exact E]. unfold honest404. now rewrite K.
Qed.

Lemma deleteAll_accepted keys :
  forall svc,
  (forall key, In key keys -> fault svc (DeleteRecord key) = None) ->
  DeleteRoute.firstError (fst (DeleteRoute.deleteAll keys svc)) = None
  /\ records (snd (DeleteRoute.deleteAll keys svc)) = removeAll keys (records svc).
Proof.
  induction keys as [|key keys IH]; intros svc H; [now split|].
  cbn [DeleteRoute.deleteAll].
  rewrite (deleteKey_accepted key svc) by (apply H; now left).
  destruct (IH (received (DeleteRecord key) (Store.remove key (records svc)) svc))
    as [E R]; [intros k I; apply H; now right|].
  destruct (DeleteRoute.deleteAll keys _) as [rs svc2]. cbn [fst snd] in *.
  split; [exact E | exact R].
Qed.

Lemma lookup_removeAll_absent k keys :
  forall l, Store.lookup k l = None -> Store.lookup k (removeAll keys l) = None.
Proof.
  induction keys as [|key keys IH]; intros l H; [exact H|].
  apply IH. destruct (String.eqb_spec k key) as [->|N].
  - apply lookup_remove_same.
  - now rewrite lookup_remove_other.
Qed.

Lemma lookup_removeAll_in k keys :
  forall l, In k keys -> Store.lookup k (removeAll keys l) = None.
Proof.
  induction keys as [|key keys IH]; intros l []; cbn.
  - subst. apply lookup_removeAll_absent, lookup_remove_same.
  - now apply IH.
Qed.

(** C10: deleting a path that is not a directory, when the scan for its
    chunk keys fails with a store error: the error is not reported, the
    metadata key is deleted, the route answers success, and every chunk key
    the file had is still in the store. *)
Theorem delete_survives_failed_scan path svc l e :
  path <> EmptyString -> path <> "/" ->
  (Store.lookup (metadataKeyOf path) (records svc) = None
   \/ exists m, Store.lookup (metadataKeyOf path) (records svc) = Some (Json m)
                /\ isDirectoryMode (mode m) = false) ->
  fault svc (GetRecord (metadataKeyOf path)) = None ->
  fst (DeleteRoute.listAllKeysWithPrefix (chunkPrefixOf path) svc) = Some l ->
  DeleteRoute.kr_error l = Some e ->
  fault svc (DeleteRecord (metadataKeyOf path)) = None ->
  fst (DeleteRoute.DELETE path svc) = Some (mkResponse 200 SuccessJson)
  /\ records (snd (DeleteRoute.DELETE path svc))
     = Store.remove (metadataKeyOf path) (records svc)
  /\ forall i,
       Store.lookup (chunkKeyOf path i) (records (snd (DeleteRoute.DELETE path svc)))
       = Store.lookup (chunkKeyOf path i) (records svc).
Proof.
  intros P R M F1 S E F2.
  assert (G : fst (DeleteRoute.DELETE path svc) = Some (mkResponse 200 SuccessJson)
              /\ records (snd (DeleteRoute.DELETE path svc))
                 = Store.remove (metadataKeyOf path) (records svc)).
  { unfold DeleteRoute.DELETE.
  rewrite (truthy_nonempty _ P), (proj2 (String.eqb_neq _ _) R). cbn [negb orb].
    set (svc1 := received (GetRecord (metadataKeyOf path)) (records svc) svc).
    assert (Same : sameStore svc1 svc) by now repeat split.
    destruct (listAllKeysWithPrefix_same (chunkPrefixOf path) svc1 svc Same)
      as [E1 S1].
    rewrite S in E1.
    assert (Tail : let r := DeleteRoute.deleteFile path [metadataKeyOf path] svc1 in
      fst r = Some (mkResponse 200 SuccessJson)
      /\ records (snd r) = Store.remove (metadataKeyOf path) (records svc)).
    { unfold DeleteRoute.deleteFile. fold (chunkPrefixOf path).
      destruct (DeleteRoute.listAllKeysWithPrefix _ svc1) as [o svc2].
      cbn [fst snd] in *. subst o. rewrite E.
      destruct S1 as (R1 & Fa & _).
      destruct (deleteAll_accepted [metadataKeyOf path] svc2) as [A B].
      - intros k [<-|[]]. now rewrite <- Fa.
      - destruct (DeleteRoute.deleteAll _ svc2) as [results svc3].
        cbn [fst snd] in *. rewrite A. cbn [fst snd]. split; [reflexivity|].
        rewrite B, <- R1. reflexivity. }
    destruct M as [M|(m & M & D)].
    - rewrite (delete_getMetadata_absent _ _ R M F1).
      cbn [mr_status mr_metadata mr_error Z.eqb Pos.eqb]. fold svc1.
      exact Tail.
    - rewrite (delete_getMetadata_found _ _ _ R M F1).
      cbn [mr_status mr_metadata mr_error Z.eqb Pos.eqb]. fold svc1.
      rewrite withNumChunks_mode, D. exact Tail. }
  destruct G as [G1 G2]. repeat split; [exact G1 | exact G2|].
  intros i. rewrite G2. apply lookup_remove_other, chunkKey_not_metadataKey.
Qed.

Lemma delete_survives_failed_scan_witness :
  fst (DeleteRoute.DELETE "/f" brokenScanService) = Some (mkResponse 200 SuccessJson)
  /\ records (snd (DeleteRoute.DELETE "/f" brokenScanService))
     = Store.remove (metadataKeyOf "/f") (records brokenScanService)
  /\ forall i,
       Store.lookup (chunkKeyOf "/f" i)
         (records (snd (DeleteRoute.DELETE "/f" brokenScanService)))
       = Store.lookup (chunkKeyOf "/f" i) (records brokenScanService).
Proof.
  eapply (delete_survives_failed_scan "/f" brokenScanService).
  - discriminate.
  - discriminate.
  - right. eexists. split; reflexivity.
  - reflexivity.
  - reflexivity.
  - reflexivity.
  - reflexivity.
Defined.

(** The route on a path whose metadata says it is a file. *)
Lemma DELETE_file path svc m :
  path <> EmptyString -> path <> "/" ->
  Store.lookup (metadataKeyOf path) (records svc) = Some (Json m) ->
  isDirectoryMode (mode m) = false ->
  fault svc (GetRecord (metadataKeyOf path)) = None ->
  DeleteRoute.DELETE path svc
  = DeleteRoute.deleteFile path [metadataKeyOf path]
      (received (GetRecord (metadataKeyOf path)) (records svc) svc).
Proof.
  intros P R M D F. unfold DeleteRoute.DELETE.
  rewrite (truthy_nonempty _ P), (proj2 (String.eqb_neq _ _) R). cbn [negb orb].
  rewrite (delete_getMetadata_found _ _ _ R M F).
  cbn [mr_status mr_metadata mr_error Z.eqb Pos.eqb].
  now rewrite withNumChunks_mode, D.
Qed.

(** The route on a path whose metadata says it is a directory. *)
Lemma DELETE_directory path svc m :
  path <> EmptyString -> path <> "/" ->
  Store.lookup (metadataKeyOf path) (records svc) = Some (Json m) ->
  isDirectoryMode (mode m) = true ->
  fault svc (GetRecord (metadataKeyOf path)) = None ->
  DeleteRoute.DELETE path svc
  = DeleteRoute.deleteDirectory path (metadataKeyOf path)
      (received (GetRecord (metadataKeyOf path)) (records svc) svc).
Proof.
  intros P R M D F. unfold DeleteRoute.DELETE.
  rewrite (truthy_nonempty _ P), (proj2 (String.eqb_neq _ _) R). cbn [negb orb].
  rewrite (delete_getMetadata_found _ _ _ R M F).
  cbn [mr_status mr_metadata mr_error Z.eqb Pos.eqb].
  now rewrite withNumChunks_mode, D.
Qed.

(** C6, as amended: when the scan for the chunk keys did not fail, after
    a delete of a regular file that answers success neither a chunk key of
    the path (whatever its index) nor its metadata key is in the store. *)
Theorem delete_cascades path svc m :
  path <> EmptyString -> path <> "/" ->
  Store.lookup (metadataKeyOf path) (records svc) = Some (Json m) ->
  isDirectoryMode (mode m) = false ->
  fault svc (GetRecord (metadataKeyOf path)) = None ->
  honest404 svc ->
  (forall l, fst (DeleteRoute.listAllKeysWithPrefix (chunkPrefixOf path) svc) = Some l ->
             DeleteRoute.kr_error l = None) ->
  fst (DeleteRoute.DELETE path svc) = Some (mkResponse 200 SuccessJson) ->
  (forall i,
     Store.lookup (chunkKeyOf path i) (records (snd (DeleteRoute.DELETE path svc))) = None)
  /\ Store.lookup (metadataKeyOf path) (records (snd (DeleteRoute.DELETE path svc))) = None.
Proof.
  intros P R M D F H Scan. rewrite (DELETE_file path svc m P R M D F).
  set (svc1 := received (GetRecord (metadataKeyOf path)) (records svc) svc).
  assert (Same : sameStore svc1 svc) by now repeat split.
  destruct (listAllKeysWithPrefix_same (chunkPrefixOf path) svc1 svc Same) as [E1 S1].
  destruct (listAllKeysWithPrefix_returns (chunkPrefixOf path) svc) as (l & E & K).
  specialize (K (Scan l E)). rewrite E in E1.
  unfold DeleteRoute.deleteFile. fold (chunkPrefixOf path).
  destruct (DeleteRoute.listAllKeysWithPrefix _ svc1) as [o svc2].
  cbn [fst snd] in *. subst o. rewrite (Scan l E), K.
  destruct S1 as (R1 & Fa & _).
  assert (H2 : honest404 svc2) by (unfold honest404; now rewrite <- Fa).
  pose proof (deleteAll_done
                ([metadataKeyOf path] ++ Store.keysWithPrefix (chunkPrefixOf path)
                                           (records svc)) svc2 H2) as Done.
  destruct (DeleteRoute.deleteAll _ svc2) as [results svc3]. cbn [fst snd] in *.
  destruct (DeleteRoute.firstError results); [discriminate|].
  intros _. cbn [snd]. rewrite (Done eq_refl), <- R1. cbn [records svc1 received].
  split.
  - intros i. destruct (Store.lookup (chunkKeyOf path i) (records svc)) eqn:L.
    + apply lookup_removeAll_in. right.
      apply filter_In. split; [|apply chunkKey_has_chunkPrefix].
      apply lookup_in_keys. now rewrite L.
    + now apply lookup_removeAll_absent.
  - apply lookup_removeAll_in. now left.
Qed.

Lemma delete_cascades_witness :
  (forall i,
     Store.lookup (chunkKeyOf "/f" i) (records (snd (DeleteRoute.DELETE "/f" fileService)))
     = None)
  /\ Store.lookup (metadataKeyOf "/f") (records (snd (DeleteRoute.DELETE "/f" fileService)))
     = None.
Proof.
  apply (delete_cascades "/f" fileService (regularFile 3004 (Some 2))).
  - discriminate.
  - discriminate.
  - reflexivity.
  - reflexivity.
  - reflexivity.
  - intros c text. discriminate.
  - intros l [= <-]. reflexivity.
  - reflexivity.
Defined.

(** C6, as stated, fails: the service refuses the list requests, the delete
    of the file answers success, and chunk 0 of the file is still there. *)
Lemma delete_leaves_chunks_behind :
  fst (DeleteRoute.DELETE "/f" brokenScanService) = Some (mkResponse 200 SuccessJson)
  /\ Store.lookup (chunkKeyOf "/f" 0)
       (records (snd (DeleteRoute.DELETE "/f" brokenScanService)))
     = Some (Text (repeat 97%N 3000)).
Proof. split; reflexivity. Qed.

(** C7: a directory (not the root, its path without a final slash) in a
    store that answers the requests.  If a key exists under [path + "/"],
    the delete fails with status 400, "Directory not empty", and the records
    are as before; if none exists, it answers success and the records are
    as before except for the removed metadata key of the directory. *)
Theorem directory_delete path svc m :
  path <> EmptyString -> path <> "/" -> JsString.endsWith path "/" = false ->
  Store.lookup (metadataKeyOf path) (records svc) = Some (Json m) ->
  isDirectoryMode (mode m) = true ->
  fault svc (GetRecord (metadataKeyOf path)) = None ->
  (forall marker, fault svc (ListKeys (path +++ "/") None marker) = None) ->
  fault svc (DeleteRecord (metadataKeyOf path)) = None ->
  (Store.keysWithPrefix (path +++ "/") (records svc) <> [] ->
   fst (DeleteRoute.DELETE path svc) = Some (mkResponse 400 (ErrorJson "Directory not empty"))
   /\ records (snd (DeleteRoute.DELETE path svc)) = records svc)
  /\ (Store.keysWithPrefix (path +++ "/") (records svc) = [] ->
      fst (DeleteRoute.DELETE path svc) = Some (mkResponse 200 SuccessJson)
      /\ records (snd (DeleteRoute.DELETE path svc))
         = Store.remove (metadataKeyOf path) (records svc)).
Proof.
  intros P R T M D F1 F2 F3. rewrite (DELETE_directory path svc m P R M D F1).
  set (svc1 := received (GetRecord (metadataKeyOf path)) (records svc) svc).
  assert (Same : sameStore svc1 svc) by now repeat split.
  destruct (listAllKeysWithPrefix_same (path +++ "/") svc1 svc Same) as [E1 S1].
  destruct (listAllKeysWithPrefix_returns (path +++ "/") svc) as (l & E & K).
  assert (NoErr : DeleteRoute.kr_error l = None).
  { unfold DeleteRoute.listAllKeysWithPrefix in E.
    exact (listPages_no_error _ svc F2 _ _ _ svc l eq_refl E). }
  specialize (K NoErr). rewrite E in E1.
  unfold DeleteRoute.deleteDirectory. rewrite T.
  destruct (DeleteRoute.listAllKeysWithPrefix _ svc1) as [o svc2].
  cbn [fst snd] in *. subst o. rewrite NoErr, K.
  destruct S1 as (R1 & Fa & _).
  split.
  - intros N. destruct (Store.keysWithPrefix _ _); [congruence|].
    cbn [fst snd]. split; [reflexivity | now rewrite <- R1].
  - intros ->. rewrite deleteKey_accepted by now rewrite <- Fa.
    cbn [fst snd cs_error records received]. split; [reflexivity | now rewrite <- R1].
Qed.

Lemma directory_delete_witness :
  (fst (DeleteRoute.DELETE "/d" dirService)
   = Some (mkResponse 400 (ErrorJson "Directory not empty"))
   /\ records (snd (DeleteRoute.DELETE "/d" dirService)) = records dirService)
  /\ (fst (DeleteRoute.DELETE "/d" emptyDirService) = Some (mkResponse 200 SuccessJson)
      /\ records (snd (DeleteRoute.DELETE "/d" emptyDirService))
         = Store.remove (metadataKeyOf "/d") (records emptyDirService)).
Proof.
  split.
  - apply (directory_delete "/d" dirService directory); try reflexivity; discriminate.
  - apply (directory_delete "/d" emptyDirService directory); try reflexivity; discriminate.
Defined.

(** A directory record under a path that ends in a slash lies under the
    prefix the route scans: such a directory is never found empty. *)
Lemma directory_with_final_slash :
  Store.keysWithPrefix ("/d/" +++ "/") (records slashDirService) = []
  /\ fst (DeleteRoute.DELETE "/d/" slashDirService)
     = Some (mkResponse 400 (ErrorJson "Directory not empty")).
Proof. split; reflexivity. Qed.

(** ** Listing a directory ([ListRoute]) *)

(** C9, as amended: the store holds exactly the keys [/a/x.__meta__] and
    [/a/y/z.__meta__], in either order, and answers the list request in one
    page.  If it groups the keys by the delimiter (the nested key is
    reported as [/a/y/]), listing [/a] gives exactly the entries [x], a
    file, and [y], a directory, in the order of enumeration; if it reports
    the nested metadata key as it is, the listing is [x] alone. *)
Theorem listing_of_two_keys svc v1 v2 :
  records svc = [("/a/x.__meta__", v1); ("/a/y/z.__meta__", v2)]
  \/ records svc = [("/a/y/z.__meta__", v2); ("/a/x.__meta__", v1)] ->
  fault svc (ListKeys "/a/" (Some "/") None) = None ->
  (2 <= pageLimit svc)%nat ->
  (groupsByDelimiter svc = true ->
   exists es,
     fst (ListRoute.GET "/a" svc) = mkResponse 200 (Entries es)
     /\ Permutation es [mkEntry "x" false; mkEntry "y" true])
  /\ (groupsByDelimiter svc = false ->
      fst (ListRoute.GET "/a" svc) = mkResponse 200 (Entries [mkEntry "x" false])).
Proof.
  destruct svc as [recs flt limit groups log]. cbn [records fault pageLimit groupsByDelimiter].
  intros R F L.
  assert (E : Nat.max 1 limit = S (S (limit - 2))) by lia.
  unfold ListRoute.GET. change (negb (JsString.truthy "/a")) with false. cbv iota.
  change (if String.eqb "/a" "/" then "/"
          else if JsString.endsWith "/a" "/" then "/a" else "/a" +++ "/") with "/a/".
  unfold callHpkVApi. cbn [fault]. rewrite F. cbn [serve]. unfold listed, pageSize.
  cbn [records pageLimit groupsByDelimiter]. rewrite E.
  split; intros ->; destruct R as [-> | ->]; cbn; rewrite firstn_nil.
  - eexists. split; [reflexivity | apply Permutation_refl].
  - eexists. split; [reflexivity | apply perm_swap].
  - reflexivity.
  - reflexivity.
Qed.

Lemma listing_of_two_keys_witness :
  fst (ListRoute.GET "/a" listingService) = mkResponse 200 (Entries [mkEntry "x" false]).
Proof.
  refine (proj2 (listing_of_two_keys listingService (Json (regularFile 0 None))
                   (Json (regularFile 0 None)) _ _ _) _).
  - left. reflexivity.
  - reflexivity.
  - cbn. lia.
  - reflexivity.
Defined.

(** C9, as stated, fails: the two keys enumerated as they are, and [y] is
    not in the listing. *)
Lemma nested_metadata_key_is_dropped :
  Store.keys (records listingService) = ["/a/x.__meta__"; "/a/y/z.__meta__"]
  /\ ListRoute.entriesOf "/a/" ["/a/x.__meta__"; "/a/y/z.__meta__"]
     = [mkEntry "x" false]
  /\ ListRoute.entriesOf "/a/" ["/a/y/z.__meta__"; "/a/x.__meta__"]
     = [mkEntry "x" false]
  /\ fst (ListRoute.GET "/a" listingService) = mkResponse 200 (Entries [mkEntry "x" false])
  /\ ~ In (mkEntry "y" true) [mkEntry "x" false].
Proof. repeat split. intros [H|[]]. discriminate. Qed.

(** ** Buffers *)

Lemma nth_splice {A} (target piece : list A) (ts j : nat) (d : A) :
  (ts + List.length piece <= List.length target)%nat ->
  nth j (firstn ts target ++ piece ++ skipn (ts + List.length piece) target) d
  = if (j <? ts)%nat then nth j target d
    else if (j <? ts + List.length piece)%nat then nth (j - ts) piece d
    else nth j target d.
Proof.
  intros H.
  assert (L : List.length (firstn ts target) = ts) by (rewrite length_firstn; lia).
  destruct (Nat.ltb_spec j ts) as [A1|A1].
  - rewrite app_nth1 by lia. rewrite nth_firstn.
    destruct (Nat.ltb_spec j ts); [reflexivity | lia].
  - rewrite app_nth2 by lia. rewrite L.
    destruct (Nat.ltb_spec j (ts + List.length piece)) as [A2|A2].
    + now rewrite app_nth1 by lia.
    + rewrite app_nth2 by lia. rewrite nth_skipn. f_equal. lia.
Qed.

Lemma length_splice {A} (target piece : list A) (ts : nat) :
  (ts + List.length piece <= List.length target)%nat ->
  List.length (firstn ts target ++ piece ++ skipn (ts + List.length piece) target)
  = List.length target.
Proof.
  intros H. rewrite !length_app, length_firstn, length_skipn. lia.
Qed.

Lemma copy_splice source target ts ss se :
  0 <= ts <= Buf.length target -> 0 <= ss ->
  exists piece,
    piece = firstn (Z.to_nat (copied source target ts ss se)) (skipn (Z.to_nat ss) source)
    /\ Buf.copy source target ts ss se
       = firstn (Z.to_nat ts) target ++ piece
           ++ skipn (Z.to_nat ts + List.length piece) target
    /\ List.length piece = Z.to_nat (copied source target ts ss se)
    /\ (Z.to_nat ts + List.length piece <= List.length target)%nat.
Proof.
  intros T S. eexists. split; [reflexivity|].
  assert (PL : List.length (firstn (Z.to_nat (copied source target ts ss se))
                              (skipn (Z.to_nat ss) source))
               = Z.to_nat (copied source target ts ss se)).
  { rewrite length_firstn, length_skipn. unfold copied, Buf.length. lia. }
  assert (Fit : (Z.to_nat ts + Z.to_nat (copied source target ts ss se)
                 <= List.length target)%nat).
  { unfold copied, Buf.length in *. lia. }
  rewrite PL. split; [|now split].
  assert (Nop : copied source target ts ss se = 0 ->
          target = firstn (Z.to_nat ts) target
                     ++ firstn (Z.to_nat (copied source target ts ss se))
                          (skipn (Z.to_nat ss) source)
                     ++ skipn (Z.to_nat ts + Z.to_nat (copied source target ts ss se))
                          target).
  { intros ->. cbn [Z.to_nat firstn app]. rewrite Nat.add_0_r. symmetry.
    apply firstn_skipn. }
  unfold Buf.copy.
  destruct (Z.leb_spec (Buf.length target) ts) as [C1|C1].
  { apply Nop. unfold copied. lia. }
  destruct (Z.leb_spec se ss) as [C2|C2].
  { apply Nop. unfold copied. lia. }
  cbn [orb].
  destruct (Z.leb_spec (Z.min (Z.min (se - ss) (Buf.length target - ts))
                          (Buf.length source - ss)) 0) as [C3|C3].
  { apply Nop. unfold copied. lia. }
  assert (NB : copied source target ts ss se
               = Z.min (Z.min (se - ss) (Buf.length target - ts))
                   (Buf.length source - ss)) by (unfold copied; lia).
  rewrite <- NB. do 3 f_equal. unfold copied, Buf.length. lia.
Qed.

(** [copy] byte by byte. *)
Lemma byteAt_copy source target ts ss se j :
  0 <= ts <= Buf.length target -> 0 <= ss -> 0 <= j ->
  byteAt (Buf.copy source target ts ss se) j
  = if (ts <=? j) && (j <? ts + copied source target ts ss se)
    then byteAt source (ss + (j - ts))
    else byteAt target j.
Proof.
  intros T S J. destruct (copy_splice source target ts ss se T S)
    as (piece & P & -> & L & F).
  unfold byteAt. rewrite nth_splice by exact F. rewrite L.
  destruct (Z.leb_spec ts j) as [A|A]; cbn [andb].
  - destruct (Nat.ltb_spec (Z.to_nat j) (Z.to_nat ts)); [lia|].
    destruct (Z.ltb_spec j (ts + copied source target ts ss se)) as [B|B].
    + destruct (Nat.ltb_spec (Z.to_nat j)
                  (Z.to_nat ts + Z.to_nat (copied source target ts ss se))); [|lia].
      rewrite P, nth_firstn.
      destruct (Nat.ltb_spec (Z.to_nat j - Z.to_nat ts)
                  (Z.to_nat (copied source target ts ss se))); [|lia].
      rewrite nth_skipn. f_equal. lia.
    + destruct (Nat.ltb_spec (Z.to_nat j)
                  (Z.to_nat ts + Z.to_nat (copied source target ts ss se)));
        [|reflexivity].
      assert (0 <= copied source target ts ss se) by (unfold copied; lia). lia.
  - destruct (Nat.ltb_spec (Z.to_nat j) (Z.to_nat ts)); [reflexivity | lia].
Qed.

Lemma length_copy source target ts ss se :
  0 <= ts <= Buf.length target -> 0 <= ss ->
  Buf.length (Buf.copy source target ts ss se) = Buf.length target.
Proof.
  intros T S. destruct (copy_splice source target ts ss se T S)
    as (piece & P & -> & L & F).
  unfold Buf.length. now rewrite length_splice.
Qed.

Lemma byteAt_alloc n j : byteAt (Buf.alloc n) j = x00.
Proof. unfold byteAt, Buf.alloc. apply nth_repeat. Qed.

Lemma length_alloc n : 0 <= n -> Buf.length (Buf.alloc n) = n.
Proof. intros H. unfold Buf.length, Buf.alloc. rewrite repeat_length. lia. Qed.

Lemma byteAt_beyond b j : Buf.length b <= j -> byteAt b j = x00.
Proof. intros H. unfold byteAt, Buf.length in *. apply nth_overflow. lia. Qed.

(** The new content of chunk [i], byte by byte: the bytes of the write
    window come from the data, every other byte from the existing chunk
    (zero where it had none). *)
Lemma newChunkOf_bytes existing writeData offset writeEnd i cur :
  0 <= offset -> 0 < Buf.length writeData ->
  writeEnd = offset + Buf.length writeData ->
  i * MAX_CHUNK_SIZE < writeEnd -> offset < i * MAX_CHUNK_SIZE + MAX_CHUNK_SIZE ->
  cur = Z.max offset (i * MAX_CHUNK_SIZE) - offset ->
  snd (WriteRoute.newChunkOf existing writeData offset writeEnd i cur)
  = Z.min MAX_CHUNK_SIZE (writeEnd - i * MAX_CHUNK_SIZE)
    - Z.max 0 (offset - i * MAX_CHUNK_SIZE)
  /\ Buf.length (fst (WriteRoute.newChunkOf existing writeData offset writeEnd i cur))
     = Z.max (Buf.length existing) (Z.min MAX_CHUNK_SIZE (writeEnd - i * MAX_CHUNK_SIZE))
  /\ forall j, 0 <= j ->
       byteAt (fst (WriteRoute.newChunkOf existing writeData offset writeEnd i cur)) j
       = if (Z.max 0 (offset - i * MAX_CHUNK_SIZE) <=? j)
            && (j <? Z.min MAX_CHUNK_SIZE (writeEnd - i * MAX_CHUNK_SIZE))
         then byteAt writeData (i * MAX_CHUNK_SIZE + j - offset)
         else byteAt existing j.
Proof.
  intros O D W Lo Hi C. unfold WriteRoute.newChunkOf. cbn [fst snd].
  split; [reflexivity|].
  remember (i * MAX_CHUNK_SIZE) as cs eqn:Ecs.
  remember (Z.max 0 (offset - cs)) as ws eqn:Ews.
  remember (Z.min MAX_CHUNK_SIZE (writeEnd - cs)) as we eqn:Ewe.
  remember (Buf.length existing) as le eqn:Ele.
  remember (Buf.length writeData) as ld eqn:Eld.
  assert (Le0 : 0 <= le) by (subst le; unfold Buf.length; lia).
  assert (M : MAX_CHUNK_SIZE = 3000) by reflexivity.
  assert (Wnd : 0 <= ws < we) by lia.
  remember (Buf.alloc (Z.max le we)) as a0 eqn:Ea0.
  assert (L0 : Buf.length a0 = Z.max le we) by (subst a0; apply length_alloc; lia).
  assert (B0 : forall j, byteAt a0 j = x00) by (intros; subst a0; apply byteAt_alloc).
  remember (if 0 <? ws then Buf.copy existing a0 0 0 (Z.min ws le) else a0) as a1 eqn:Ea1.
  assert (L1 : Buf.length a1 = Z.max le we).
  { subst a1. destruct (0 <? ws); [rewrite length_copy|]; lia. }
  assert (B1 : forall j, 0 <= j ->
            byteAt a1 j = if j <? Z.min ws le then byteAt existing j else x00).
  { intros j J. subst a1. destruct (Z.ltb_spec 0 ws).
    - rewrite byteAt_copy by lia. unfold copied. rewrite L0, <- Ele, B0.
      replace (0 + (j - 0)) with j by lia. by_cases.
    - rewrite B0. by_cases. }
  remember (Buf.copy writeData a1 ws cur (cur + (we - ws))) as a2 eqn:Ea2.
  assert (L2 : Buf.length a2 = Z.max le we) by (subst a2; rewrite length_copy; lia).
  assert (B2 : forall j, 0 <= j ->
            byteAt a2 j = if (ws <=? j) && (j <? we)
                          then byteAt writeData (cs + j - offset)
                          else byteAt a1 j).
  { intros j J. subst a2. rewrite byteAt_copy by lia. unfold copied.
    rewrite L1, <- Eld.
    replace (Z.max 0 (Z.min (Z.min (cur + (we - ws) - cur) (Z.max le we - ws)) (ld - cur)))
      with (we - ws) by lia.
    replace (ws + (we - ws)) with we by lia.
    replace (cur + (j - ws)) with (cs + j - offset) by lia. reflexivity. }
  assert (B3 : forall j, 0 <= j ->
            byteAt (if we <? le then Buf.copy existing a2 we we le else a2) j
            = if (we <=? j) && (j <? le) then byteAt existing j else byteAt a2 j).
  { intros j J. destruct (Z.ltb_spec we le).
    - rewrite byteAt_copy by lia. unfold copied. rewrite L2, <- Ele.
      replace (we + Z.max 0 (Z.min (Z.min (le - we) (Z.max le we - we)) (le - we)))
        with le by lia.
      replace (we + (j - we)) with j by lia. reflexivity.
    - by_cases. }
  split.
  - destruct (we <? le); [rewrite length_copy|]; lia.
  - intros j J. rewrite B3, B2, B1 by exact J.
    destruct (Z.leb_spec ws j), (Z.ltb_spec j we), (Z.leb_spec we j), (Z.ltb_spec j le),
      (Z.ltb_spec j (Z.min ws le)); cbn [andb]; try reflexivity; try lia;
      symmetry; apply byteAt_beyond; lia.
Qed.

(** ** UTF-8 on ASCII *)

Lemma byte_of_to_N b : byte_of_N (Byte.to_N b) = b.
Proof.
  unfold byte_of_N. pose proof (Byte.to_N_bounded b) as H.
  rewrite N.mod_small by lia. now rewrite Byte.of_to_N.
Qed.

Lemma to_N_byte_of_N c : (c < 256)%N -> Byte.to_N (byte_of_N c) = c.
Proof.
  intros H. unfold byte_of_N. rewrite N.mod_small by lia.
  destruct (Byte.of_N c) as [b|] eqn:E.
  - now apply Byte.to_of_N.
  - apply Byte.of_N_None_iff in E. lia.
Qed.

Lemma lead_ascii c : (c < 128)%N -> Utf8.lead c = ([c], Utf8.Boundary).
Proof.
  intros H. unfold Utf8.lead. destruct (N.leb_spec c 127); [reflexivity | lia].
Qed.

Lemma decode_ascii_app b rest :
  asciiBytes b -> Utf8.decode (b ++ rest) = map Byte.to_N b ++ Utf8.decode rest.
Proof.
  unfold Utf8.decode. induction 1 as [|x b A _ IH]; [reflexivity|].
  cbn [app Utf8.decode_from Utf8.step map]. rewrite (lead_ascii _ A).
  cbn [app]. now rewrite IH.
Qed.

Lemma decode_ascii b : asciiBytes b -> Utf8.decode b = map Byte.to_N b.
Proof.
  intros A. rewrite <- (app_nil_r b) at 1. rewrite (decode_ascii_app _ _ A).
  apply app_nil_r.
Qed.

Lemma encode_ascii s : asciiText s -> Utf8.encode s = map byte_of_N s.
Proof.
  induction 1 as [|c s A _ IH]; [reflexivity|].
  cbn [Utf8.encode map]. unfold Utf8.is_high, Utf8.is_low.
  destruct (N.leb_spec 55296 c); [lia|]. cbn [andb].
  destruct (N.leb_spec 56320 c); [lia|]. cbn [andb].
  unfold Utf8.encode_code_point. destruct (N.ltb_spec c 128); [|lia].
  cbn [app]. now rewrite IH.
Qed.

Lemma asciiText_of_bytes b : asciiBytes b -> asciiText (map Byte.to_N b).
Proof. unfold asciiBytes, asciiText. intros A. now apply Forall_map. Qed.

Lemma asciiBytes_of_text s : asciiText s -> asciiBytes (map byte_of_N s).
Proof.
  unfold asciiBytes, asciiText. intros A. apply Forall_map.
  eapply Forall_impl; [|exact A]. intros c H. cbv beta in *.
  rewrite to_N_byte_of_N; lia.
Qed.

(** ASCII bytes stored as text come back as they were. *)
Lemma encode_decode_ascii b : asciiBytes b -> Utf8.encode (Utf8.decode b) = b.
Proof.
  intros A. rewrite (decode_ascii _ A), encode_ascii by now apply asciiText_of_bytes.
  rewrite map_map. rewrite <- (map_id b) at 2. apply map_ext. apply byte_of_to_N.
Qed.

Lemma asciiBytes_by_index b :
  (forall j, 0 <= j -> (Byte.to_N (byteAt b j) < 128)%N) -> asciiBytes b.
Proof.
  intros H. apply Forall_nth. intros n d L.
  rewrite (nth_indep b d x00 L). specialize (H (Z.of_nat n) ltac:(lia)).
  unfold byteAt in H. now rewrite Nat2Z.id in H.
Qed.

Lemma asciiBytes_at b j : asciiBytes b -> (Byte.to_N (byteAt b j) < 128)%N.
Proof.
  intros A. unfold byteAt.
  destruct (Nat.lt_ge_cases (Z.to_nat j) (List.length b)) as [L|L].
  - unfold asciiBytes in A. rewrite Forall_forall in A. apply A. now apply nth_In.
  - rewrite nth_overflow by exact L. reflexivity.
Qed.

(** ** The loop of the write route *)

Lemma write_getChunk_accepted path i svc :
  fault svc (GetRecord (chunkKeyOf path i)) = None ->
  exists st,
    WriteRoute.getChunk path i svc
    = (mkChunkResult
         (option_map value_string (Store.lookup (chunkKeyOf path i) (records svc)))
         None st,
       received (GetRecord (chunkKeyOf path i)) (records svc) svc).
Proof.
  intros F. unfold WriteRoute.getChunk, callHpkVApi. fold (chunkKeyOf path i).
  rewrite F. cbn [serve].
  destruct (Store.lookup (chunkKeyOf path i) (records svc)); cbn; eexists; reflexivity.
Qed.

Lemma existingChunk_is_chunkBytes recs path i :
  match option_map value_string (Store.lookup (chunkKeyOf path i) recs) with
  | Some (c :: s) => Utf8.encode (c :: s)
  | _ => Buf.alloc 0
  end = chunkBytes recs path i.
Proof.
  unfold chunkBytes. destruct (Store.lookup (chunkKeyOf path i) recs) as [v|]; cbn.
  - now destruct (value_string v).
  - reflexivity.
Qed.

Lemma writeChunk_accepted path i data svc :
  fault svc (PostRecord (chunkKeyOf path i) (Text data)) = None ->
  WriteRoute.writeChunk path i data svc
  = (mkCallStatus None 200,
     received (PostRecord (chunkKeyOf path i) (Text data))
       (Store.put (chunkKeyOf path i) (Text data) (records svc)) svc).
Proof.
  intros F. unfold WriteRoute.writeChunk. fold (chunkKeyOf path i).
  now rewrite (call_post _ _ _ F).
Qed.

Lemma chunkBytes_put_other recs path k v i :
  k <> chunkKeyOf path i -> chunkBytes (Store.put k v recs) path i = chunkBytes recs path i.
Proof.
  intros N. unfold chunkBytes. rewrite lookup_put_other; [reflexivity|].
  intros E. now apply N.
Qed.

(** The loop in a service that refuses nothing: every chunk of the range
    gets its new content, computed from what the chunk held before the
    request, and no other record changes. *)
Lemma writeChunks_accepted path writeData offset :
  0 <= offset -> 0 < Buf.length writeData ->
  forall count i cur svc,
  faultless svc ->
  offset < (i + 1) * MAX_CHUNK_SIZE ->
  (i + Z.of_nat count - 1) * MAX_CHUNK_SIZE < offset + Buf.length writeData ->
  ((0 < count)%nat -> cur = Z.max offset (i * MAX_CHUNK_SIZE) - offset) ->
  exists cur' svc',
    WriteRoute.writeChunks count path writeData offset (offset + Buf.length writeData)
      i cur svc = (inr cur', svc')
    /\ faultless svc'
    /\ (forall i', i <= i' < i + Z.of_nat count ->
        Store.lookup (chunkKeyOf path i') (records svc')
        = Some (Text (Utf8.decode (writtenChunk (records svc) path writeData offset i'))))
    /\ (forall k, (forall i', i <= i' < i + Z.of_nat count -> k <> chunkKeyOf path i') ->
        Store.lookup k (records svc') = Store.lookup k (records svc)).
Proof.
  intros O D. induction count as [|count IH]; intros i cur svc F Lo Hi C.
  - exists cur, svc. cbn [WriteRoute.writeChunks]. repeat split; try assumption.
    intros i' Hi'. lia.
  - cbn [WriteRoute.writeChunks]. specialize (C ltac:(lia)).
    destruct (write_getChunk_accepted path i svc (F _)) as (st & ->).
    cbn [cr_error cr_chunkData]. rewrite existingChunk_is_chunkBytes.
    destruct (newChunkOf_bytes (chunkBytes (records svc) path i) writeData offset
                (offset + Buf.length writeData) i cur O D eq_refl)
      as (N & _); try (unfold MAX_CHUNK_SIZE in *; lia).
    destruct (WriteRoute.newChunkOf _ _ _ _ _ _) as [newChunk n] eqn:En.
    cbn [snd] in N.
    rewrite writeChunk_accepted by apply F. cbn [cs_error].
    set (svc2 := received _ _ _).
    destruct (IH (i + 1) (cur + n) svc2) as (cur' & svc' & E & F' & A & B).
    + exact F.
    + unfold MAX_CHUNK_SIZE in *. lia.
    + unfold MAX_CHUNK_SIZE in *. lia.
    + intros Pos. unfold MAX_CHUNK_SIZE in *. lia.
    + exists cur', svc'. split; [exact E|]. split; [exact F'|]. split.
      * intros i' Hi'. destruct (Z.eq_dec i' i) as [->|Ne].
        -- rewrite B.
           ++ cbn [svc2 records received]. rewrite lookup_put_same.
              unfold writtenChunk. rewrite <- C, En. reflexivity.
           ++ intros j Hj E'. apply chunkKeyOf_inj in E'. lia.
        -- rewrite A by lia. unfold writtenChunk. cbn [svc2 records received].
           rewrite chunkBytes_put_other; [reflexivity|].
           intros E'. apply chunkKeyOf_inj in E'. lia.
      * intros k Hk. rewrite B.
        -- cbn [svc2 records received]. apply lookup_put_other. apply Hk. lia.
        -- intros j Hj. apply Hk. lia.
Qed.

Lemma write_getMetadata_found path svc m :
  Store.lookup (metadataKeyOf path) (records svc) = Some (Json m) ->
  fault svc (GetRecord (metadataKeyOf path)) = None ->
  WriteRoute.getMetadata path svc
  = (mkMetadataResult (Some (withNumChunks m)) None 200,
     received (GetRecord (metadataKeyOf path)) (records svc) svc).
Proof.
  intros L F. unfold WriteRoute.getMetadata. fold (metadataKeyOf path).
  now rewrite (call_get_found _ _ _ F L).
Qed.

Lemma write_getMetadata_absent path svc :
  Store.lookup (metadataKeyOf path) (records svc) = None ->
  fault svc (GetRecord (metadataKeyOf path)) = None ->
  WriteRoute.getMetadata path svc
  = (mkMetadataResult None None 404,
     received (GetRecord (metadataKeyOf path)) (records svc) svc).
Proof.
  intros L F. unfold WriteRoute.getMetadata. fold (metadataKeyOf path).
  now rewrite (call_get_absent _ _ F L).
Qed.

Lemma writeMetadata_accepted path m svc :
  fault svc (PostRecord (metadataKeyOf path) (Json m)) = None ->
  WriteRoute.writeMetadata path m svc
  = (mkCallStatus None 200,
     received (PostRecord (metadataKeyOf path) (Json m))
       (Store.put (metadataKeyOf path) (Json m) (records svc)) svc).
Proof.
  intros F. unfold WriteRoute.writeMetadata. fold (metadataKeyOf path).
  now rewrite (call_post _ _ _ F).
Qed.

Lemma chunk_range offset len :
  0 <= offset -> 0 < len ->
  offset / MAX_CHUNK_SIZE * MAX_CHUNK_SIZE <= offset
  /\ offset < (offset / MAX_CHUNK_SIZE + 1) * MAX_CHUNK_SIZE
  /\ (offset + len - 1) / MAX_CHUNK_SIZE * MAX_CHUNK_SIZE <= offset + len - 1
  /\ offset + len - 1 < ((offset + len - 1) / MAX_CHUNK_SIZE + 1) * MAX_CHUNK_SIZE
  /\ offset / MAX_CHUNK_SIZE <= (offset + len - 1) / MAX_CHUNK_SIZE.
Proof.
  intros O L. unfold MAX_CHUNK_SIZE.
  pose proof (Z.div_mod offset 3000 ltac:(lia)).
  pose proof (Z.mod_pos_bound offset 3000 ltac:(lia)).
  pose proof (Z.div_mod (offset + len - 1) 3000 ltac:(lia)).
  pose proof (Z.mod_pos_bound (offset + len - 1) 3000 ltac:(lia)).
  pose proof (Z.div_le_mono offset (offset + len - 1) 3000 ltac:(lia) ltac:(lia)).
  lia.
Qed.

(** The write route on a regular file, or on a path with no metadata, in a
    service that refuses nothing. *)
Lemma POST_accepted path offset body now svc :
  path <> EmptyString -> 0 <= offset -> faultless svc ->
  Base64.decode body <> [] ->
  (Store.lookup (metadataKeyOf path) (records svc) = None
   \/ exists m, Store.lookup (metadataKeyOf path) (records svc) = Some (Json m)
                /\ isDirectoryMode (mode m) = false) ->
  exists svc',
    WriteRoute.POST path offset body now svc
    = (mkResponse 200 (BytesWritten (Buf.length (Base64.decode body))), svc')
    /\ faultless svc'
    /\ (forall i,
        offset / MAX_CHUNK_SIZE <= i
          <= (offset + Buf.length (Base64.decode body) - 1) / MAX_CHUNK_SIZE ->
        Store.lookup (chunkKeyOf path i) (records svc')
        = Some (Text (Utf8.decode
                        (writtenChunk (records svc) path (Base64.decode body) offset i))))
    /\ (forall i,
        ~ (offset / MAX_CHUNK_SIZE <= i
             <= (offset + Buf.length (Base64.decode body) - 1) / MAX_CHUNK_SIZE) ->
        Store.lookup (chunkKeyOf path i) (records svc')
        = Store.lookup (chunkKeyOf path i) (records svc))
    /\ exists md,
        Store.lookup (metadataKeyOf path) (records svc') = Some (Json md)
        /\ isDirectoryMode (mode md) = false
        /\ size md = Z.max (storedSize (records svc) path)
                       (offset + Buf.length (Base64.decode body))
        /\ num_chunks md = Some (ceil_div (size md) MAX_CHUNK_SIZE).
Proof.
  intros P O F Dne M.
  assert (B : body <> EmptyString) by (intros ->; now apply Dne).
  remember (Base64.decode body) as D eqn:ED.
  assert (Len : 0 < Buf.length D).
  { unfold Buf.length. destruct D; [congruence | cbn; lia]. }
  destruct (chunk_range offset (Buf.length D) O Len) as (R1 & R2 & R3 & R4 & R5).
  unfold WriteRoute.POST.
  rewrite (truthy_nonempty _ P), (truthy_nonempty _ B). cbn [negb].
  replace (offset <? 0) with false by (symmetry; apply Z.ltb_ge; lia).
  rewrite <- ED.
  replace (Buf.length D =? 0) with false by (symmetry; apply Z.eqb_neq; lia).
  set (svc1 := received (GetRecord (metadataKeyOf path)) (records svc) svc).
  assert (F1 : faultless svc1) by exact F.
  destruct (writeChunks_accepted path D offset O Len
              (Z.to_nat ((offset + Buf.length D - 1) / MAX_CHUNK_SIZE
                         - offset / MAX_CHUNK_SIZE + 1))
              (offset / MAX_CHUNK_SIZE) 0 svc1 F1)
    as (cur' & svc2 & E & F2 & A & K).
  { exact R2. }
  { rewrite Z2Nat.id by lia.
    replace (offset / MAX_CHUNK_SIZE
             + ((offset + Buf.length D - 1) / MAX_CHUNK_SIZE - offset / MAX_CHUNK_SIZE + 1)
             - 1) with ((offset + Buf.length D - 1) / MAX_CHUNK_SIZE) by lia.
    lia. }
  { intros _. lia. }
  rewrite Z2Nat.id in A, K by lia.
  assert (Tail : forall metadata isNewFile,
    isDirectoryMode (mode metadata) = false ->
    size metadata = storedSize (records svc) path ->
    exists svc',
      (let '(w, svc3) :=
         WriteRoute.writeMetadata path
           (mkMetadata (mode metadata) (uid metadata) (gid metadata)
              (Z.max (size metadata) (offset + Buf.length D)) now now
              (if isNewFile : bool then now else ctime metadata)
              (Some (ceil_div (Z.max (size metadata) (offset + Buf.length D))
                       MAX_CHUNK_SIZE))) svc2 in
       match cs_error w with
       | Some metaWriteError =>
           (mkResponse (cs_status w)
              (ErrorJson ("Write succeeded but failed to update metadata: "
                            +++ metaWriteError)), svc3)
       | None => (mkResponse 200 (BytesWritten (Buf.length D)), svc3)
       end) = (mkResponse 200 (BytesWritten (Buf.length D)), svc')
      /\ faultless svc'
      /\ (forall i,
          offset / MAX_CHUNK_SIZE <= i <= (offset + Buf.length D - 1) / MAX_CHUNK_SIZE ->
          Store.lookup (chunkKeyOf path i) (records svc')
          = Some (Text (Utf8.decode (writtenChunk (records svc) path D offset i))))
      /\ (forall i,
          ~ (offset / MAX_CHUNK_SIZE <= i <= (offset + Buf.length D - 1) / MAX_CHUNK_SIZE) ->
          Store.lookup (chunkKeyOf path i) (records svc')
          = Store.lookup (chunkKeyOf path i) (records svc))
      /\ exists md,
          Store.lookup (metadataKeyOf path) (records svc') = Some (Json md)
          /\ isDirectoryMode (mode md) = false
          /\ size md = Z.max (storedSize (records svc) path) (offset + Buf.length D)
          /\ num_chunks md = Some (ceil_div (size md) MAX_CHUNK_SIZE)).
  { intros metadata isNewFile Dir Old. rewrite writeMetadata_accepted by apply F2.
    cbn [cs_error]. eexists. split; [reflexivity|]. split; [exact F2|].
    cbn [records received]. split; [|split].
    - intros i Hi. rewrite lookup_put_other by apply chunkKey_not_metadataKey.
      rewrite A by lia. reflexivity.
    - intros i Hi. rewrite lookup_put_other by apply chunkKey_not_metadataKey.
      apply K. intros i' Hi' E'. apply chunkKeyOf_inj in E'. lia.
    - eexists. split; [apply lookup_put_same|]. cbn [mode size num_chunks].
      split; [exact Dir|]. split; [now rewrite Old | reflexivity]. }
  destruct M as [M|(m & M & Dir)].
  - rewrite (write_getMetadata_absent _ _ M (F _)).
    cbn [mr_error mr_metadata negb andb]. fold svc1. rewrite E.
    apply (Tail (mkMetadata DEFAULT_FILE_MODE 1000 1000 0 now now now (Some 0)) true).
    + reflexivity.
    + unfold storedSize. now rewrite M.
  - rewrite (write_getMetadata_found _ _ _ M (F _)).
    cbn [mr_error mr_metadata negb andb]. fold svc1.
    assert (Dir' : isDirectoryMode (mode (withNumChunks m)) = false)
      by now rewrite withNumChunks_mode.
    rewrite Dir', E. apply (Tail (withNumChunks m) false Dir').
    unfold storedSize. rewrite M. apply withNumChunks_size.
Qed.

(** ** Writes of ASCII text *)

Lemma chunkBytes_ascii recs path i :
  (forall v, Store.lookup (chunkKeyOf path i) recs = Some v -> asciiText (value_string v)) ->
  asciiBytes (chunkBytes recs path i).
Proof.
  intros H. unfold chunkBytes.
  destruct (Store.lookup (chunkKeyOf path i) recs) as [v|]; [|constructor].
  rewrite encode_ascii by now apply H. apply asciiBytes_of_text. now apply H.
Qed.

Lemma writtenChunk_bytes recs path writeData offset i :
  0 <= offset -> 0 < Buf.length writeData ->
  i * MAX_CHUNK_SIZE < offset + Buf.length writeData ->
  offset < i * MAX_CHUNK_SIZE + MAX_CHUNK_SIZE ->
  Buf.length (writtenChunk recs path writeData offset i)
  = Z.max (Buf.length (chunkBytes recs path i))
      (Z.min MAX_CHUNK_SIZE (offset + Buf.length writeData - i * MAX_CHUNK_SIZE))
  /\ forall j, 0 <= j ->
       byteAt (writtenChunk recs path writeData offset i) j
       = if (Z.max 0 (offset - i * MAX_CHUNK_SIZE) <=? j)
            && (j <? Z.min MAX_CHUNK_SIZE
                       (offset + Buf.length writeData - i * MAX_CHUNK_SIZE))
         then byteAt writeData (i * MAX_CHUNK_SIZE + j - offset)
         else byteAt (chunkBytes recs path i) j.
Proof.
  intros O D Lo Hi. unfold writtenChunk.
  now destruct (newChunkOf_bytes (chunkBytes recs path i) writeData offset
                  (offset + Buf.length writeData) i
                  (Z.max offset (i * MAX_CHUNK_SIZE) - offset) O D eq_refl Lo Hi eq_refl)
    as (_ & L & B).
Qed.

Lemma writtenChunk_ascii recs path writeData offset i :
  0 <= offset -> 0 < Buf.length writeData ->
  i * MAX_CHUNK_SIZE < offset + Buf.length writeData ->
  offset < i * MAX_CHUNK_SIZE + MAX_CHUNK_SIZE ->
  asciiBytes writeData -> asciiBytes (chunkBytes recs path i) ->
  asciiBytes (writtenChunk recs path writeData offset i).
Proof.
  intros O D Lo Hi A E. apply asciiBytes_by_index. intros j J.
  destruct (writtenChunk_bytes recs path writeData offset i O D Lo Hi) as [_ B].
  rewrite B by exact J. destruct (_ && _); now apply asciiBytes_at.
Qed.

Lemma position_in_chunk k :
  0 <= k ->
  0 <= k mod MAX_CHUNK_SIZE < MAX_CHUNK_SIZE
  /\ k / MAX_CHUNK_SIZE * MAX_CHUNK_SIZE + k mod MAX_CHUNK_SIZE = k.
Proof.
  intros K. unfold MAX_CHUNK_SIZE.
  pose proof (Z.div_mod k 3000 ltac:(lia)).
  pose proof (Z.mod_pos_bound k 3000 ltac:(lia)). lia.
Qed.

(** C3, as amended: an existing regular file whose chunks hold ASCII text,
    in a store that answers the requests, and a write of ASCII data that is
    not empty.  The write succeeds; afterwards the bytes of the file in
    [offset, offset + len(data)) are the data, and every byte outside of the
    range is as before the write (a byte no chunk holds counts as zero),
    whichever chunks the range covers. *)
Theorem write_changes_its_range_only path offset body now svc m :
  path <> EmptyString -> 0 <= offset -> faultless svc ->
  Store.lookup (metadataKeyOf path) (records svc) = Some (Json m) ->
  isDirectoryMode (mode m) = false ->
  Base64.decode body <> [] -> asciiBytes (Base64.decode body) ->
  (forall i v, Store.lookup (chunkKeyOf path i) (records svc) = Some v ->
               asciiText (value_string v)) ->
  fst (WriteRoute.POST path offset body now svc)
  = mkResponse 200 (BytesWritten (Buf.length (Base64.decode body)))
  /\ writeFrameClaim path offset body now svc.
Proof.
  intros P O F M Dir Dne AD AE.
  destruct (POST_accepted path offset body now svc P O F Dne) as (svc' & E & _ & A & K & _).
  { right. now exists m. }
  unfold writeFrameClaim. rewrite E. cbn [fst snd]. split; [reflexivity|].
  remember (Base64.decode body) as D eqn:ED.
  assert (Len : 0 < Buf.length D).
  { unfold Buf.length. destruct D; [congruence | cbn; lia]. }
  destruct (chunk_range offset (Buf.length D) O Len) as (R1 & R2 & R3 & R4 & R5).
  intros k K0. destruct (position_in_chunk k K0) as [J Q].
  unfold fileByte.
  remember (k / MAX_CHUNK_SIZE) as i eqn:Ei.
  remember (k mod MAX_CHUNK_SIZE) as j eqn:Ej.
  assert (Mx : MAX_CHUNK_SIZE = 3000) by reflexivity.
  destruct (Z_le_dec (offset / MAX_CHUNK_SIZE) i) as [Lo|Lo];
    [destruct (Z_le_dec i ((offset + Buf.length D - 1) / MAX_CHUNK_SIZE)) as [Hi|Hi]|].
  - assert (In1 : i * MAX_CHUNK_SIZE < offset + Buf.length D) by lia.
    assert (In2 : offset < i * MAX_CHUNK_SIZE + MAX_CHUNK_SIZE) by lia.
    unfold chunkBytes at 1. rewrite A by lia. cbn [value_string].
    rewrite encode_decode_ascii.
    + destruct (writtenChunk_bytes (records svc) path D offset i O Len In1 In2) as [_ B].
      rewrite B by lia.
      replace (i * MAX_CHUNK_SIZE + j - offset) with (k - offset) by lia.
      destruct (Z.leb_spec (Z.max 0 (offset - i * MAX_CHUNK_SIZE)) j),
        (Z.ltb_spec j (Z.min MAX_CHUNK_SIZE (offset + Buf.length D - i * MAX_CHUNK_SIZE))),
        (Z.leb_spec offset k), (Z.ltb_spec k (offset + Buf.length D));
        cbn [andb]; try reflexivity; lia.
    + apply writtenChunk_ascii; try assumption. apply chunkBytes_ascii. apply AE.
  - unfold chunkBytes. rewrite K by lia.
    destruct (Z.leb_spec offset k), (Z.ltb_spec k (offset + Buf.length D));
      cbn [andb]; try reflexivity; lia.
  - unfold chunkBytes. rewrite K by lia.
    destruct (Z.leb_spec offset k), (Z.ltb_spec k (offset + Buf.length D));
      cbn [andb]; try reflexivity; lia.
Qed.

Lemma write_changes_its_range_only_witness :
  fst (WriteRoute.POST "/f" 2999 "WFk=" 0 smallFileService)
  = mkResponse 200 (BytesWritten (Buf.length (Base64.decode "WFk=")))
  /\ writeFrameClaim "/f" 2999 "WFk=" 0 smallFileService.
Proof.
  apply (write_changes_its_range_only "/f" 2999 "WFk=" 0 smallFileService
           (regularFile 2 (Some 1))).
  - discriminate.
  - lia.
  - intros c. reflexivity.
  - reflexivity.
  - reflexivity.
  - discriminate.
  - repeat constructor.
  - intros i v. unfold chunkKeyOf. cbn.
    destruct (String.eqb (JsString.ofZ i) "0"); [|discriminate].
    intros [= <-]. repeat constructor.
Defined.

(** C3, as stated, fails: the file holds [AB], the byte 0xFF is written at
    offset 0; the write succeeds, the file then starts with the three bytes
    of U+FFFD, and the byte at position 1, outside of the range, is no
    longer [B]. *)
Lemma binary_write_breaks_the_frame :
  fst (WriteRoute.POST "/f" 0 "/w==" 0 smallFileService) = mkResponse 200 (BytesWritten 1)
  /\ Base64.decode "/w==" = [xff]
  /\ fileByte (records smallFileService) "/f" 1 = x42
  /\ fileByte (records (snd (WriteRoute.POST "/f" 0 "/w==" 0 smallFileService))) "/f" 0 = xef
  /\ fileByte (records (snd (WriteRoute.POST "/f" 0 "/w==" 0 smallFileService))) "/f" 1 = xbf
  /\ ~ writeFrameClaim "/f" 0 "/w==" 0 smallFileService.
Proof.
  repeat split. intros H. specialize (H 1 ltac:(lia)). vm_compute in H. discriminate.
Qed.

(** ** Reading back what was written *)

Lemma read_getChunk_found path i svc v :
  Store.lookup (chunkKeyOf path i) (records svc) = Some v ->
  fault svc (GetRecord (chunkKeyOf path i)) = None ->
  ReadRoute.getChunk path i svc
  = (mkChunkResult (Some (value_string v)) None 200,
     received (GetRecord (chunkKeyOf path i)) (records svc) svc).
Proof.
  intros L F. unfold ReadRoute.getChunk. fold (chunkKeyOf path i).
  now rewrite (call_get_found _ _ _ F L).
Qed.

Lemma substring_prefix (s : jsstring) (n : Z) :
  0 <= n <= Text.length s -> Text.substring s 0 n = firstn (Z.to_nat n) s.
Proof.
  intros H. unfold Text.substring, Text.clamp.
  rewrite (Z.min_l 0), (Z.max_l 0 0), (Z.min_l n), (Z.max_r 0 n), (Z.min_l 0 n),
    (Z.max_r 0 n) by lia.
  now rewrite Z.sub_0_r.
Qed.

Lemma Forall_firstn' {A} (P : A -> Prop) n l : Forall P l -> Forall P (firstn n l).
Proof.
  intros H. revert n. induction H; intros [|n]; cbn; constructor; auto.
Qed.

Lemma Forall_skipn' {A} (P : A -> Prop) n l : Forall P l -> Forall P (skipn n l).
Proof.
  intros H. revert n. induction H; intros [|n]; cbn; auto.
Qed.

(** The part of the data that goes to chunk [i]. *)
Lemma slice_length (D : Buffer) i :
  0 <= i -> i * MAX_CHUNK_SIZE < Buf.length D ->
  List.length (firstn (Z.to_nat (Z.min MAX_CHUNK_SIZE (Buf.length D - i * MAX_CHUNK_SIZE)))
                 (skipn (Z.to_nat (i * MAX_CHUNK_SIZE)) D))
  = Z.to_nat (Z.min MAX_CHUNK_SIZE (Buf.length D - i * MAX_CHUNK_SIZE)).
Proof.
  intros I L. rewrite length_firstn, length_skipn.
  unfold Buf.length, MAX_CHUNK_SIZE in *. lia.
Qed.

(** A write at offset 0 of ASCII data: the text stored in chunk [i] starts
    with the part of the data that goes to the chunk, and is nothing more
    when the chunk is not the last of the write and held at most
    [MAX_CHUNK_SIZE] bytes before. *)
Lemma writtenChunk_text recs path (D : Buffer) i :
  asciiBytes D -> 0 <= i -> i * MAX_CHUNK_SIZE < Buf.length D ->
  Buf.length (chunkBytes recs path i) <= MAX_CHUNK_SIZE ->
  exists rest,
    Utf8.decode (writtenChunk recs path D 0 i)
    = map Byte.to_N
        (firstn (Z.to_nat (Z.min MAX_CHUNK_SIZE (Buf.length D - i * MAX_CHUNK_SIZE)))
           (skipn (Z.to_nat (i * MAX_CHUNK_SIZE)) D))
      ++ rest
    /\ (MAX_CHUNK_SIZE <= Buf.length D - i * MAX_CHUNK_SIZE -> rest = []).
Proof.
  intros A I Lo Ex.
  assert (Mx : MAX_CHUNK_SIZE = 3000) by reflexivity.
  assert (Len : 0 < Buf.length D) by lia.
  destruct (writtenChunk_bytes recs path D 0 i ltac:(lia) Len ltac:(lia) ltac:(lia))
    as [L B].
  remember (writtenChunk recs path D 0 i) as W eqn:EW.
  remember (Z.min MAX_CHUNK_SIZE (Buf.length D - i * MAX_CHUNK_SIZE)) as we eqn:Ewe.
  replace (0 + Buf.length D - i * MAX_CHUNK_SIZE) with (Buf.length D - i * MAX_CHUNK_SIZE)
    in * by lia.
  rewrite <- Ewe in *.
  pose proof (slice_length D i I Lo) as SL. rewrite <- Ewe in SL.
  assert (Pre : firstn (Z.to_nat we) W
                = firstn (Z.to_nat we) (skipn (Z.to_nat (i * MAX_CHUNK_SIZE)) D)).
  { apply (nth_ext _ _ x00 x00).
    - rewrite SL, length_firstn. unfold Buf.length in L. lia.
    - intros n Hn. rewrite length_firstn in Hn.
      rewrite !nth_firstn. destruct (Nat.ltb_spec n (Z.to_nat we)); [|reflexivity].
      rewrite nth_skipn. specialize (B (Z.of_nat n) ltac:(lia)).
      unfold byteAt in B. rewrite Nat2Z.id in B. rewrite B.
      destruct (Z.leb_spec (Z.max 0 (0 - i * MAX_CHUNK_SIZE)) (Z.of_nat n)); [|lia].
      destruct (Z.ltb_spec (Z.of_nat n) we); [|lia]. cbn [andb].
      f_equal. lia. }
  exists (Utf8.decode (skipn (Z.to_nat we) W)). split.
  - rewrite <- (firstn_skipn (Z.to_nat we) W) at 1. rewrite Pre.
    apply decode_ascii_app. apply Forall_firstn', Forall_skipn', A.
  - intros Full. rewrite skipn_all2; [reflexivity|]. unfold Buf.length in *. lia.
Qed.

(** The read loop over chunks that start with the parts of [D]. *)
Lemma readChunks_roundtrip path (D : Buffer) numChunks n e :
  asciiBytes D -> n = Buf.length D -> 0 < n -> e = (n - 1) / MAX_CHUNK_SIZE ->
  e < numChunks ->
  forall count i svc,
  faultless svc -> 0 <= i <= e -> Z.of_nat count = e - i + 1 ->
  (forall i', i <= i' <= e ->
     exists rest,
       Store.lookup (chunkKeyOf path i') (records svc)
       = Some (Text (map Byte.to_N
                       (firstn (Z.to_nat (Z.min MAX_CHUNK_SIZE (n - i' * MAX_CHUNK_SIZE)))
                          (skipn (Z.to_nat (i' * MAX_CHUNK_SIZE)) D))
                     ++ rest))
       /\ (MAX_CHUNK_SIZE <= n - i' * MAX_CHUNK_SIZE -> rest = [])) ->
  exists svc',
    ReadRoute.readChunks count path 0 n numChunks i
      (map Byte.to_N (firstn (Z.to_nat (i * MAX_CHUNK_SIZE)) D)) (i * MAX_CHUNK_SIZE) svc
    = (inr (map Byte.to_N D), svc').
Proof.
  intros A En Pos Ee Nc.
  assert (Mx : MAX_CHUNK_SIZE = 3000) by reflexivity.
  destruct (chunk_range 0 n ltac:(lia) Pos) as (_ & _ & R3 & R4 & R5).
  replace (0 + n - 1) with (n - 1) in * by lia. rewrite <- Ee in *.
  induction count as [|count IH]; intros i svc F I C H; [lia|].
  cbn [ReadRoute.readChunks].
  destruct (Z.ltb_spec i numChunks); [|lia]. cbn [negb].
  destruct (H i ltac:(lia)) as (rest & L & Full).
  rewrite (read_getChunk_found _ _ _ _ L (F _)).
  cbn [cr_error cr_chunkData value_string].
  assert (Lo : i * MAX_CHUNK_SIZE < Buf.length D) by lia.
  pose proof (slice_length D i ltac:(lia) Lo) as SL. rewrite <- En in SL.
  remember (Z.min MAX_CHUNK_SIZE (n - i * MAX_CHUNK_SIZE)) as we eqn:Ewe.
  remember (firstn (Z.to_nat we) (skipn (Z.to_nat (i * MAX_CHUNK_SIZE)) D)) as slice
    eqn:Esl.
  assert (TL : Text.length (map Byte.to_N slice ++ rest) = we + Z.of_nat (List.length rest)).
  { unfold Text.length. rewrite length_app, length_map, SL. lia. }
  assert (RE : Z.min (Text.length (map Byte.to_N slice ++ rest))
                 (0 + n - i * MAX_CHUNK_SIZE) = we).
  { rewrite TL. destruct (Z_le_dec MAX_CHUNK_SIZE (n - i * MAX_CHUNK_SIZE)) as [Fu|Fu].
    - rewrite (Full Fu). cbn [List.length Z.of_nat]. lia.
    - lia. }
  rewrite RE. rewrite (Z.max_l 0 (0 - i * MAX_CHUNK_SIZE)) by lia.
  rewrite Z.sub_0_r. rewrite (Z.max_r 0 we) by lia.
  destruct (Z.ltb_spec 0 we); [|lia].
  rewrite substring_prefix by (rewrite TL; lia).
  assert (FS : firstn (Z.to_nat we) (map Byte.to_N slice ++ rest) = map Byte.to_N slice).
  { rewrite firstn_app. rewrite (length_map Byte.to_N slice), SL, Nat.sub_diag.
    cbn [firstn]. rewrite app_nil_r. apply firstn_all2. rewrite length_map, SL. lia. }
  rewrite FS, <- map_app, Esl, <- firstn_plus.
  set (svc1 := received _ _ _).
  destruct (Z.leb_spec n (i * MAX_CHUNK_SIZE + we)) as [Done|More].
  - exists svc1. do 3 f_equal. apply firstn_all2. unfold Buf.length in En. lia.
  - assert (E1 : (Z.to_nat (i * MAX_CHUNK_SIZE) + Z.to_nat we)%nat
                 = Z.to_nat ((i + 1) * MAX_CHUNK_SIZE)) by lia.
    assert (E2 : i * MAX_CHUNK_SIZE + we = (i + 1) * MAX_CHUNK_SIZE) by lia.
    rewrite E1, E2. apply IH.
    + exact F.
    + lia.
    + lia.
    + intros i' Hi'. apply (H i'). lia.
Qed.

Lemma withNumChunks_keeps m c : num_chunks m = Some c -> withNumChunks m = m.
Proof. intros H. unfold withNumChunks. now rewrite H, andb_false_r. Qed.

(** C1, as amended: data in ASCII, written at offset 0 to a path that is
    a regular file or has no metadata and none of whose stored chunks is
    longer than [MAX_CHUNK_SIZE] bytes, in a store that answers the
    requests.  The read of [len(D)] bytes at offset 0 after the write
    returns exactly [D], whatever the length of [D]; and the write of data
    that is not empty succeeds. *)
Theorem write_then_read_ascii path body now svc :
  path <> EmptyString -> faultless svc ->
  asciiBytes (Base64.decode body) ->
  (Store.lookup (metadataKeyOf path) (records svc) = None
   \/ exists m, Store.lookup (metadataKeyOf path) (records svc) = Some (Json m)
                /\ isDirectoryMode (mode m) = false) ->
  (forall i, Buf.length (chunkBytes (records svc) path i) <= MAX_CHUNK_SIZE) ->
  roundTripClaim path body now svc
  /\ (Base64.decode body <> [] ->
      fst (WriteRoute.POST path 0 body now svc)
      = mkResponse 200 (BytesWritten (Buf.length (Base64.decode body)))).
Proof.
  intros P F A M Small.
  destruct (list_eq_dec Byte.byte_eq_dec (Base64.decode body) []) as [Emp|Dne].
  { split; [|congruence]. unfold roundTripClaim, ReadRoute.GET. rewrite Emp.
    now rewrite (truthy_nonempty _ P). }
  destruct (POST_accepted path 0 body now svc P ltac:(lia) F Dne M)
    as (svc' & E & F' & W & _ & md & Lm & Dir & Sz & Nc).
  assert (Sz' : Buf.length (Base64.decode body) <= size md) by (rewrite Sz; lia).
  clear Sz. rename Sz' into Sz.
  unfold roundTripClaim. rewrite E. cbn [fst snd]. split; [|reflexivity].
  remember (Base64.decode body) as D eqn:ED.
  remember (Buf.length D) as n eqn:En.
  assert (Pos : 0 < n).
  { subst n. unfold Buf.length. destruct D; [congruence | cbn; lia]. }
  assert (Mx : MAX_CHUNK_SIZE = 3000) by reflexivity.
  destruct (chunk_range 0 n ltac:(lia) Pos) as (_ & _ & R3 & R4 & R5).
  replace (0 + n - 1) with (n - 1) in * by lia.
  replace (0 + n) with n in * by lia.
  change (0 / MAX_CHUNK_SIZE) with 0 in *.
  pose proof (ceil_div_spec (size md) MAX_CHUNK_SIZE ltac:(lia)) as Cd.
  unfold ReadRoute.GET. rewrite (truthy_nonempty _ P). cbn [negb Z.ltb Z.compare orb].
  replace (n <? 0) with false by (symmetry; apply Z.ltb_ge; lia).
  replace (n =? 0) with false by (symmetry; apply Z.eqb_neq; lia).
  rewrite (read_getMetadata_found _ _ _ Lm (F' _)).
  cbn [mr_error mr_metadata]. rewrite (withNumChunks_keeps _ _ Nc), Dir, Nc.
  replace (size md <=? 0) with false by (symmetry; apply Z.leb_gt; lia).
  rewrite Z.sub_0_r, Z.add_0_l, (Z.min_l n) by lia.
  replace (n <=? 0) with false by (symmetry; apply Z.leb_gt; lia).
  rewrite Z.sub_0_r.
  destruct (readChunks_roundtrip path D (ceil_div (size md) MAX_CHUNK_SIZE) n
              ((n - 1) / MAX_CHUNK_SIZE) A En Pos eq_refl ltac:(lia)
              (Z.to_nat ((n - 1) / MAX_CHUNK_SIZE + 1)) 0
              (received (GetRecord (metadataKeyOf path)) (records svc') svc'))
    as (svc'' & R).
  - exact F'.
  - lia.
  - lia.
  - intros i' Hi'. cbn [records received]. rewrite W by lia.
    destruct (writtenChunk_text (records svc) path D i' A ltac:(lia) ltac:(lia)
                (Small i')) as (rest & Dc & Full).
    rewrite <- En in Dc, Full. exists rest. rewrite Dc. split; [reflexivity | exact Full].
  - change (Z.to_nat (0 * MAX_CHUNK_SIZE)) with O in R. cbn [firstn map] in R.
    change (0 * MAX_CHUNK_SIZE) with 0 in R.
    change (0 / MAX_CHUNK_SIZE) with 0. rewrite R.
    assert (TL : Text.length (map Byte.to_N D) = n).
    { unfold Text.length. rewrite length_map. exact (eq_sym En). }
    rewrite TL, Z.ltb_irrefl. cbn [fst]. do 2 f_equal.
    rewrite <- (decode_ascii _ A). now apply encode_decode_ascii.
Qed.

Lemma write_then_read_ascii_witness :
  roundTripClaim "/f" "SGVsbG8=" 0 smallFileService
  /\ (Base64.decode "SGVsbG8=" <> [] ->
      fst (WriteRoute.POST "/f" 0 "SGVsbG8=" 0 smallFileService)
      = mkResponse 200 (BytesWritten (Buf.length (Base64.decode "SGVsbG8=")))).
Proof.
  apply (write_then_read_ascii "/f" "SGVsbG8=" 0 smallFileService).
  - discriminate.
  - intros c. reflexivity.
  - repeat constructor.
  - right. eexists. split; reflexivity.
  - intros i. unfold chunkBytes, chunkKeyOf. cbn.
    destruct (String.eqb (JsString.ofZ i) "0"); vm_compute; discriminate.
Defined.

(** C1, as stated, fails for binary content: the one byte 0xFF is written
    to a new file and the read of one byte returns the three bytes of
    U+FFFD. *)
Lemma binary_round_trip_fails :
  Base64.decode "/w==" = [xff]
  /\ fst (WriteRoute.POST "/b" 0 "/w==" 0 emptyService) = mkResponse 200 (BytesWritten 1)
  /\ fst (ReadRoute.GET "/b" 0 1 (snd (WriteRoute.POST "/b" 0 "/w==" 0 emptyService)))
     = mkResponse 200 (Body [xef; xbf; xbd])
  /\ ~ roundTripClaim "/b" "/w==" 0 emptyService.
Proof. repeat split. intros H. vm_compute in H. discriminate. Qed.

(** ** Base64: every buffer is the content of a request body *)

Lemma letter_sextet v :
  (v < 64)%N ->
  Base64.sextet (Base64.letter v) = Some v
  /\ Ascii.eqb (Base64.letter v) "="%char = false.
Proof.
  intros H.
  assert (All : Forall (fun v => Base64.sextet (Base64.letter v) = Some v
                                 /\ Ascii.eqb (Base64.letter v) "="%char = false)
                  (map N.of_nat (seq 0 64))).
  { apply Forall_forall. intros w I.
    assert (C : forallb (fun v =>
                  match Base64.sextet (Base64.letter v) with
                  | Some u => N.eqb u v
                  | None => false
                  end && negb (Ascii.eqb (Base64.letter v) "="%char))
                  (map N.of_nat (seq 0 64)) = true) by (vm_compute; reflexivity).
    rewrite forallb_forall in C. specialize (C w I).
    apply andb_prop in C. destruct C as [C1 C2].
    destruct (Base64.sextet (Base64.letter w)) as [u|]; [|discriminate].
    apply N.eqb_eq in C1. subst u. split; [reflexivity|].
    now destruct (Ascii.eqb (Base64.letter w) "="%char). }
  rewrite Forall_forall in All. apply All.
  apply in_map_iff. exists (N.to_nat v). split; [lia | apply in_seq; lia].
Qed.

Lemma sextets_letter v s :
  (v < 64)%N -> Base64.sextets (String (Base64.letter v) s) = v :: Base64.sextets s.
Proof.
  intros H. destruct (letter_sextet v H) as [S E]. cbn [Base64.sextets].
  now rewrite E, S.
Qed.

Lemma split_div q r d :
  (r < d)%N -> ((q * d + r) / d = q /\ (q * d + r) mod d = r)%N.
Proof.
  intros H. split.
  - symmetry. apply (N.div_unique _ d q r); lia.
  - symmetry. apply (N.mod_unique _ d q r); lia.
Qed.

Lemma list_ind3 {A} (P : list A -> Prop) :
  P [] -> (forall x, P [x]) -> (forall x y, P [x; y]) ->
  (forall x y z r, P r -> P (x :: y :: z :: r)) ->
  forall l, P l.
Proof.
  intros P0 P1 P2 P3.
  fix IH 1. intros [|x [|y [|z r]]];
    [exact P0 | apply P1 | apply P2 | apply P3, IH].
Qed.

(** Decoding the standard encoding of a buffer gives the buffer back. *)
Lemma base64_decode_encode (bs : Buffer) : Base64.decode (Base64.encode bs) = bs.
Proof.
  unfold Base64.decode. induction bs as [|x|x y|x y z r IH] using list_ind3.
  - reflexivity.
  - pose proof (Byte.to_N_bounded x) as A.
    cbn [Base64.encode].
    pose proof (N.div_mod (Byte.to_N x) 4 ltac:(lia)) as Ea.
    pose proof (N.mod_lt (Byte.to_N x) 4 ltac:(lia)).
    assert (Byte.to_N x / 4 < 64)%N by (apply N.Div0.div_lt_upper_bound; lia).
    rewrite !sextets_letter by lia. cbn [Base64.sextets Ascii.eqb Bool.eqb].
    cbn [Base64.bytes_of_sextets].
    destruct (split_div (Byte.to_N x mod 4) 0 16) as [E _]; [lia|].
    rewrite N.add_0_r in E. rewrite E.
    rewrite <- (byte_of_to_N x) at 3. do 2 f_equal. lia.
  - pose proof (Byte.to_N_bounded x) as A. pose proof (Byte.to_N_bounded y) as B.
    cbn [Base64.encode].
    pose proof (N.div_mod (Byte.to_N x) 4 ltac:(lia)) as Ea.
    pose proof (N.div_mod (Byte.to_N y) 16 ltac:(lia)) as Eb.
    pose proof (N.mod_lt (Byte.to_N x) 4 ltac:(lia)).
    pose proof (N.mod_lt (Byte.to_N y) 16 ltac:(lia)).
    assert (Byte.to_N x / 4 < 64)%N by (apply N.Div0.div_lt_upper_bound; lia).
    assert (Byte.to_N y / 16 < 16)%N by (apply N.Div0.div_lt_upper_bound; lia).
    rewrite !sextets_letter by lia. cbn [Base64.sextets Ascii.eqb Bool.eqb].
    cbn [Base64.bytes_of_sextets].
    destruct (split_div (Byte.to_N x mod 4) (Byte.to_N y / 16) 16) as [-> ->]; [lia|].
    destruct (split_div (Byte.to_N y mod 16) 0 4) as [E _]; [lia|].
    rewrite N.add_0_r in E. rewrite E.
    rewrite <- (byte_of_to_N x) at 3. rewrite <- (byte_of_to_N y) at 3.
    f_equal; [f_equal; lia|]. f_equal. f_equal. lia.
  - pose proof (Byte.to_N_bounded x) as A. pose proof (Byte.to_N_bounded y) as B.
    pose proof (Byte.to_N_bounded z) as C.
    cbn [Base64.encode].
    pose proof (N.div_mod (Byte.to_N x) 4 ltac:(lia)) as Ea.
    pose proof (N.div_mod (Byte.to_N y) 16 ltac:(lia)) as Eb.
    pose proof (N.div_mod (Byte.to_N z) 64 ltac:(lia)) as Ec.
    pose proof (N.mod_lt (Byte.to_N x) 4 ltac:(lia)).
    pose proof (N.mod_lt (Byte.to_N y) 16 ltac:(lia)).
    pose proof (N.mod_lt (Byte.to_N z) 64 ltac:(lia)).
    assert (Byte.to_N x / 4 < 64)%N by (apply N.Div0.div_lt_upper_bound; lia).
    assert (Byte.to_N y / 16 < 16)%N by (apply N.Div0.div_lt_upper_bound; lia).
    assert (Byte.to_N z / 64 < 4)%N by (apply N.Div0.div_lt_upper_bound; lia).
    rewrite !sextets_letter by lia. cbn [Base64.bytes_of_sextets].
    destruct (split_div (Byte.to_N x mod 4) (Byte.to_N y / 16) 16) as [-> ->]; [lia|].
    destruct (split_div (Byte.to_N y mod 16) (Byte.to_N z / 64) 4) as [-> ->]; [lia|].
    rewrite IH.
    rewrite <- (byte_of_to_N x) at 3. rewrite <- (byte_of_to_N y) at 3.
    rewrite <- (byte_of_to_N z) at 3.
    repeat f_equal; lia.
Qed.

Lemma every_buffer_has_a_body (D : Buffer) :
  exists body, Base64.decode body = D /\ (D <> [] -> body <> EmptyString).
Proof.
  exists (Base64.encode D). split; [apply base64_decode_encode|].
  intros N E. apply N. now rewrite <- (base64_decode_encode D), E.
Qed.

(** ** Further properties *)

(** X1: the scan of a prefix ([listAllKeysWithPrefix]) always returns, however
    the service cuts its answer into pages, and when no page fails it
    returns every key with the prefix, in the order of enumeration. *)
Theorem scan_returns_every_key prefix svc :
  exists l,
    fst (DeleteRoute.listAllKeysWithPrefix prefix svc) = Some l
    /\ (DeleteRoute.kr_error l = None ->
        DeleteRoute.kr_keys l = Some (Store.keysWithPrefix prefix (records svc)))
    /\ ((forall marker, fault svc (ListKeys prefix None marker) = None) ->
        DeleteRoute.kr_error l = None).
Proof.
  destruct (listAllKeysWithPrefix_returns prefix svc) as (l & E & K).
  exists l. split; [exact E|]. split; [exact K|]. intros F.
  exact (listPages_no_error prefix svc F _ _ _ svc l eq_refl E).
Qed.

(** X2, chunk-boundary exactness: ASCII data of exactly [k * MAX_CHUNK_SIZE]
    bytes written at offset 0 to a path with no record, in a store that
    answers the requests, leaves exactly [k] chunks, each of exactly
    [MAX_CHUNK_SIZE] bytes, and a metadata record with that size and
    [num_chunks = k]. *)
Theorem full_chunks_of_a_multiple path body now svc k :
  path <> EmptyString -> faultless svc -> asciiBytes (Base64.decode body) ->
  0 < k -> Buf.length (Base64.decode body) = k * MAX_CHUNK_SIZE ->
  Store.lookup (metadataKeyOf path) (records svc) = None ->
  (forall i, Store.lookup (chunkKeyOf path i) (records svc) = None) ->
  (forall i, 0 <= i < k ->
     exists t,
       Store.lookup (chunkKeyOf path i)
         (records (snd (WriteRoute.POST path 0 body now svc))) = Some (Text t)
       /\ Buf.length (Utf8.encode t) = MAX_CHUNK_SIZE)
  /\ (forall i, ~ 0 <= i < k ->
      Store.lookup (chunkKeyOf path i)
        (records (snd (WriteRoute.POST path 0 body now svc))) = None)
  /\ exists md,
      Store.lookup (metadataKeyOf path)
        (records (snd (WriteRoute.POST path 0 body now svc))) = Some (Json md)
      /\ size md = k * MAX_CHUNK_SIZE /\ num_chunks md = Some k.
Proof.
  intros P F A K L M C.
  assert (Mx : MAX_CHUNK_SIZE = 3000) by reflexivity.
  assert (Dne : Base64.decode body <> []).
  { intros E. rewrite E in L. cbn in L. lia. }
  destruct (POST_accepted path 0 body now svc P ltac:(lia) F Dne (or_introl M))
    as (svc' & E & _ & W & U & md & Lm & _ & Sz & Nc).
  rewrite E. cbn [snd].
  destruct (chunk_range 0 (Buf.length (Base64.decode body)) ltac:(lia) ltac:(lia))
    as (_ & _ & R3 & R4 & _).
  change (0 / MAX_CHUNK_SIZE) with 0 in *.
  assert (Last : (0 + Buf.length (Base64.decode body) - 1) / MAX_CHUNK_SIZE = k - 1) by lia.
  rewrite Last in W, U. split; [|split].
  - intros i Hi. rewrite W by lia. eexists. split; [reflexivity|].
    assert (Em : Buf.length (chunkBytes (records svc) path i) <= MAX_CHUNK_SIZE).
    { unfold chunkBytes. rewrite C. cbn. lia. }
    destruct (writtenChunk_text (records svc) path (Base64.decode body) i A
                ltac:(lia) ltac:(lia) Em) as (rest & Dc & Full).
    rewrite Dc, (Full ltac:(lia)), app_nil_r.
    rewrite encode_ascii by (apply asciiText_of_bytes, Forall_firstn', Forall_skipn', A).
    unfold Buf.length at 1. rewrite !length_map, slice_length by lia. lia.
  - intros i Hi. rewrite U by lia. apply C.
  - exists md. split; [exact Lm|]. unfold storedSize in Sz. rewrite M in Sz.
    assert (S' : size md = k * MAX_CHUNK_SIZE) by lia.
    split; [exact S'|]. rewrite Nc, S'. f_equal.
    pose proof (ceil_div_spec (k * MAX_CHUNK_SIZE) MAX_CHUNK_SIZE ltac:(lia)). lia.
Qed.

Lemma full_chunks_of_a_multiple_witness :
  exists md,
    Store.lookup (metadataKeyOf "/g")
      (records (snd (WriteRoute.POST "/g" 0 (Base64.encode (repeat x61 3000)) 0
                       emptyService))) = Some (Json md)
    /\ size md = 1 * MAX_CHUNK_SIZE /\ num_chunks md = Some 1.
Proof.
  refine (proj2 (proj2 (full_chunks_of_a_multiple "/g" (Base64.encode (repeat x61 3000))
                          0 emptyService 1 _ _ _ _ _ _ _))).
  - discriminate.
  - intros c. reflexivity.
  - rewrite base64_decode_encode. apply Forall_forall. intros x I.
    apply repeat_spec in I. subst x. reflexivity.
  - lia.
  - rewrite base64_decode_encode. reflexivity.
  - reflexivity.
  - intros i. reflexivity.
Defined.

(** X3, idempotent mkdir: on a path the route admits and that has no record, in
    a store that answers the requests, the first call creates the directory
    (status 201) and a second call succeeds as well (status 200, "Directory
    already exists") and changes no record. *)
Theorem mkdir_twice path now now' svc :
  path <> EmptyString -> path <> "/" -> JsString.endsWith path "/" = false ->
  faultless svc ->
  Store.lookup (metadataKeyOf path) (records svc) = None ->
  fst (MkdirRoute.POST path now svc) = mkResponse 201 SuccessJson
  /\ fst (MkdirRoute.POST path now' (snd (MkdirRoute.POST path now svc)))
     = mkResponse 200 (SuccessMessage "Directory already exists")
  /\ records (snd (MkdirRoute.POST path now' (snd (MkdirRoute.POST path now svc))))
     = records (snd (MkdirRoute.POST path now svc)).
Proof.
  intros P R T F L.
  assert (G : forall t s, MkdirRoute.POST path t s
              = let '(mr, svc1) := MkdirRoute.getMetadata path s in
                match mr_error mr with
                | Some metaError =>
                    (mkResponse (mr_status mr)
                       (ErrorJson ("Failed to check existing path: " +++ metaError)), svc1)
                | None =>
                    match mr_metadata mr with
                    | Some metadata =>
                        if isDirectoryMode (mode metadata) then
                          (mkResponse 200 (SuccessMessage "Directory already exists"), svc1)
                        else
                          (mkResponse 409 (ErrorJson "Path exists but is not a directory"),
                           svc1)
                    | None =>
                        let '(w, svc2) :=
                          MkdirRoute.writeMetadata path
                            (mkMetadata DEFAULT_DIR_MODE 1000 1000 0 t t t None) svc1 in
                        match cs_error w with
                        | Some writeMetaError =>
                            (mkResponse (cs_status w)
                               (ErrorJson ("Failed to create directory metadata: "
                                             +++ writeMetaError)), svc2)
                        | None => (mkResponse 201 SuccessJson, svc2)
                        end
                    end
                end).
  { intros t s. unfold MkdirRoute.POST.
    now rewrite (truthy_nonempty _ P), (proj2 (String.eqb_neq _ _) R), T. }
  rewrite !G. unfold MkdirRoute.getMetadata, MkdirRoute.writeMetadata.
  rewrite (proj2 (String.eqb_neq _ _) R). fold (metadataKeyOf path).
  rewrite (call_get_absent _ _ (F _) L). cbn [api_status notFound failed Z.eqb Pos.eqb].
  cbn [mr_error mr_metadata]. rewrite call_post by apply F.
  cbn [api_error cs_error fst snd]. split; [reflexivity|].
  rewrite (call_get_found _ _ (Json (mkMetadata DEFAULT_DIR_MODE 1000 1000 0 now now now None)));
    [|apply F| cbn [records received]; apply lookup_put_same].
  cbn. split; reflexivity.
Qed.

Lemma mkdir_twice_witness :
  fst (MkdirRoute.POST "/d" 1 emptyService) = mkResponse 201 SuccessJson
  /\ fst (MkdirRoute.POST "/d" 2 (snd (MkdirRoute.POST "/d" 1 emptyService)))
     = mkResponse 200 (SuccessMessage "Directory already exists")
  /\ records (snd (MkdirRoute.POST "/d" 2 (snd (MkdirRoute.POST "/d" 1 emptyService))))
     = records (snd (MkdirRoute.POST "/d" 1 emptyService)).
Proof.
  apply (mkdir_twice "/d" 1 2 emptyService); try reflexivity; try discriminate.
  intros c. reflexivity.
Defined.

(** * The routes together *)

(** ** What a request can change *)

Lemma call_frame c svc k :
  ~ writesKey k c ->
  Store.lookup k (records (snd (callHpkVApi c svc))) = Store.lookup k (records svc).
Proof.
  intros N. unfold callHpkVApi. destruct (fault svc c); [reflexivity|].
  destruct c as [key|key v|key|p d m]; cbn [serve writesKey] in *.
  - now destruct (Store.lookup key (records svc)).
  - cbn. apply lookup_put_other. congruence.
  - destruct (Store.lookup key (records svc)); cbn; [|reflexivity].
    apply lookup_remove_other. congruence.
  - reflexivity.
Qed.

Lemma call_read_records c svc :
  isRead c -> records (snd (callHpkVApi c svc)) = records svc.
Proof. intros H. now destruct (call_read_same c svc H) as (-> & _). Qed.


Lemma write_getChunk_state path i svc :
  snd (WriteRoute.getChunk path i svc)
  = snd (callHpkVApi (GetRecord (chunkKeyOf path i)) svc).
Proof.
  unfold WriteRoute.getChunk. fold (chunkKeyOf path i).
  destruct (callHpkVApi _ svc) as [r svc1]. cbn [snd].
  destruct (api_status r =? 404); [reflexivity|]. now destruct (api_error r).
Qed.

Lemma write_getMetadata_state path svc :
  snd (WriteRoute.getMetadata path svc)
  = snd (callHpkVApi (GetRecord (metadataKeyOf path)) svc).
Proof.
  unfold WriteRoute.getMetadata. fold (metadataKeyOf path).
  destruct (callHpkVApi _ svc) as [r svc1]. cbn [snd].
  destruct (api_status r =? 404); [reflexivity|]. destruct (api_error r); [reflexivity|].
  now destruct (api_data r) as [[[[|]|]| |]|].
Qed.

Lemma writeChunk_state path i data svc :
  snd (WriteRoute.writeChunk path i data svc)
  = snd (callHpkVApi (PostRecord (chunkKeyOf path i) (Text data)) svc).
Proof.
  unfold WriteRoute.writeChunk. fold (chunkKeyOf path i).
  now destruct (callHpkVApi _ svc) as [r svc1].
Qed.

(** The loop over the chunks changes chunk records of the path only,
    whatever the service answers. *)
Lemma writeChunks_frame count path writeData offset writeEnd k :
  (forall i, k <> chunkKeyOf path i) ->
  forall i cur svc,
  Store.lookup k
    (records (snd (WriteRoute.writeChunks count path writeData offset writeEnd i cur svc)))
  = Store.lookup k (records svc).
Proof.
  intros N. induction count as [|count IH]; intros i cur svc; [reflexivity|].
  cbn [WriteRoute.writeChunks].
  pose proof (write_getChunk_state path i svc) as G.
  destruct (WriteRoute.getChunk path i svc) as [g svc1]. cbn [snd] in G.
  assert (R1 : records svc1 = records svc) by (rewrite G; now apply call_read_records).
  destruct (cr_error g); [cbn [snd]; now rewrite R1|].
  destruct (WriteRoute.newChunkOf _ _ _ _ _ _) as [newChunk n].
  pose proof (writeChunk_state path i (Utf8.decode newChunk) svc1) as W.
  destruct (WriteRoute.writeChunk path i _ svc1) as [w svc2]. cbn [snd] in W.
  assert (R2 : Store.lookup k (records svc2) = Store.lookup k (records svc)).
  { rewrite W, call_frame, R1; [reflexivity|]. cbn. intros E. now apply (N i). }
  destruct (cs_error w); [exact R2|]. now rewrite IH.
Qed.

(** The write route leaves every record other than the chunk records and
    the metadata record of its path as it was, whatever the service
    answers. *)
Lemma POST_frame path offset body now svc k :
  k <> metadataKeyOf path -> (forall i, k <> chunkKeyOf path i) ->
  Store.lookup k (records (snd (WriteRoute.POST path offset body now svc)))
  = Store.lookup k (records svc).
Proof.
  intros Nm Nc. unfold WriteRoute.POST.
  destruct (negb (JsString.truthy path)); [reflexivity|].
  destruct (offset <? 0); [reflexivity|].
  destruct (negb (JsString.truthy body)); [reflexivity|].
  destruct (Buf.length (Base64.decode body) =? 0); [reflexivity|].
  pose proof (write_getMetadata_state path svc) as G.
  destruct (WriteRoute.getMetadata path svc) as [mr svc1]. cbn [snd] in G.
  assert (R1 : records svc1 = records svc) by (rewrite G; now apply call_read_records).
  destruct (mr_error mr); [cbn [snd]; now rewrite R1|].
  destruct (_ && _); [cbn [snd]; now rewrite R1|].
  match goal with |- context [WriteRoute.writeChunks ?n ?p ?d ?o ?e ?i ?c ?s] =>
    pose proof (writeChunks_frame n p d o e k Nc i c s) as L;
    destruct (WriteRoute.writeChunks n p d o e i c s) as [[response|cur] svc2]
  end; cbn [snd] in L.
  - cbn [snd]. now rewrite L, R1.
  - unfold WriteRoute.writeMetadata. fold (metadataKeyOf path).
    match goal with |- context [callHpkVApi ?c svc2] =>
      pose proof (call_frame c svc2 k) as M; destruct (callHpkVApi c svc2) as [r svc3]
    end. cbn [snd] in M.
    assert (E : Store.lookup k (records svc3) = Store.lookup k (records svc)).
    { rewrite M, L, R1; [reflexivity|]. cbn. congruence. }
    now destruct (api_error r).
Qed.

(** ** The keys of distinct paths *)

Lemma list_of_append (a b : string) :
  list_ascii_of_string (a +++ b) = list_ascii_of_string a ++ list_ascii_of_string b.
Proof. induction a as [|c a IH]; cbn; [reflexivity | now rewrite IH]. Qed.

Lemma list_of_string_inj (a b : string) :
  list_ascii_of_string a = list_ascii_of_string b -> a = b.
Proof.
  intros H. rewrite <- (string_of_list_ascii_of_string a), H.
  apply string_of_list_ascii_of_string.
Qed.

Lemma append_inj_r (a b s : string) : a +++ s = b +++ s -> a = b.
Proof.
  intros H. apply list_of_string_inj. apply (f_equal list_ascii_of_string) in H.
  rewrite !list_of_append in H. now apply app_inv_tail in H.
Qed.

Lemma uint_numerals (d : Decimal.uint) :
  Forall (fun c => numeralChar c = true)
    (list_ascii_of_string (NilEmpty.string_of_uint d)).
Proof. induction d; cbn [NilEmpty.string_of_uint list_ascii_of_string]; now constructor. Qed.

(** A printed integer is not empty and holds digits and the sign only. *)
Lemma ofZ_numerals (n : Z) :
  list_ascii_of_string (JsString.ofZ n) <> []
  /\ Forall (fun c => numeralChar c = true) (list_ascii_of_string (JsString.ofZ n)).
Proof.
  unfold JsString.ofZ, NilZero.string_of_int, NilZero.string_of_uint.
  destruct (Z.to_int n) as [d|d]; destruct d;
    cbn [NilEmpty.string_of_uint list_ascii_of_string];
    (split; [discriminate | repeat constructor; apply uint_numerals]).
Qed.

(** Two texts cut at the last occurrence of a character are cut at the same
    place. *)
Lemma last_separator {A} (k : A) (a b d1 d2 : list A) :
  ~ In k d1 -> ~ In k d2 -> a ++ k :: d1 = b ++ k :: d2 -> a = b /\ d1 = d2.
Proof.
  intros N1 N2. revert b. induction a as [|x a IH]; intros [|y b] H; cbn in H.
  - injection H as H. now split.
  - injection H as -> H. elim N1. rewrite H. apply in_or_app. right. now left.
  - injection H as -> H. elim N2. rewrite <- H. apply in_or_app. right. now left.
  - injection H as -> H. destruct (IH b H) as [-> ->]. now split.
Qed.

Lemma numerals_without c l :
  numeralChar c = false -> Forall (fun c => numeralChar c = true) l -> ~ In c l.
Proof.
  intros C F I. rewrite Forall_forall in F. apply F in I. congruence.
Qed.

Lemma chunkKeys_of_paths p q i j : chunkKeyOf p i = chunkKeyOf q j -> p = q /\ i = j.
Proof.
  intros H. pose proof H as H'. unfold chunkKeyOf in H.
  apply (f_equal list_ascii_of_string) in H. rewrite !list_of_append in H.
  assert (E : forall x y : list ascii,
             x ++ list_ascii_of_string CHUNK_SUFFIX ++ y
             = (x ++ list_ascii_of_string ".chun") ++ "k"%char :: y)
    by (intros; now rewrite <- app_assoc).
  rewrite !E in H.
  apply last_separator in H.
  - destruct H as [H _]. apply app_inv_tail, list_of_string_inj in H. subst q.
    split; [reflexivity | now apply chunkKeyOf_inj in H'].
  - apply numerals_without; [reflexivity | apply ofZ_numerals].
  - apply numerals_without; [reflexivity | apply ofZ_numerals].
Qed.

Lemma last_numeral l d :
  l <> [] -> Forall (fun c => numeralChar c = true) l -> numeralChar (last l d) = true.
Proof.
  intros N F. rewrite (app_removelast_last d N) in F.
  apply Forall_app in F. destruct F as [_ F]. now inversion F.
Qed.

Lemma chunkKey_not_a_metadataKey p q i : chunkKeyOf p i <> metadataKeyOf q.
Proof.
  intros H. unfold chunkKeyOf, metadataKeyOf in H.
  apply (f_equal (fun s => last (list_ascii_of_string s) "x"%char)) in H.
  cbv beta in H. rewrite !list_of_append in H.
  change (list_ascii_of_string METADATA_SUFFIX)
    with (list_ascii_of_string ".__meta_" ++ ["_"%char]) in H.
  rewrite (app_assoc (list_ascii_of_string q)), last_last in H.
  destruct (ofZ_numerals i) as [N F].
  rewrite (app_removelast_last "x"%char N) in H at 1.
  rewrite !app_assoc, last_last in H.
  pose proof (last_numeral _ "x"%char N F) as L. rewrite H in L. discriminate.
Qed.

(** X4: the keys the routes derive from paths never collide.  Two paths
    with the same metadata key are the same path; two chunks with the same
    key are the same chunk of the same path; and no chunk key of any path is
    the metadata key of any path. *)
Theorem derived_keys_never_collide p q i j :
  (metadataKeyOf p = metadataKeyOf q -> p = q)
  /\ (chunkKeyOf p i = chunkKeyOf q j -> p = q /\ i = j)
  /\ chunkKeyOf p i <> metadataKeyOf q.
Proof.
  split; [|split].
  - apply append_inj_r.
  - apply chunkKeys_of_paths.
  - apply chunkKey_not_a_metadataKey.
Qed.

(** X5: a write to one path leaves every other path as it was, whatever
    the service answers: the metadata record of the other path, each of its
    chunk records and so each byte of its content are unchanged. *)
Theorem write_leaves_other_paths_alone path other offset body now svc :
  other <> path ->
  Store.lookup (metadataKeyOf other)
    (records (snd (WriteRoute.POST path offset body now svc)))
  = Store.lookup (metadataKeyOf other) (records svc)
  /\ (forall i,
        Store.lookup (chunkKeyOf other i)
          (records (snd (WriteRoute.POST path offset body now svc)))
        = Store.lookup (chunkKeyOf other i) (records svc))
  /\ (forall k,
        fileByte (records (snd (WriteRoute.POST path offset body now svc))) other k
        = fileByte (records svc) other k).
Proof.
  intros N.
  assert (C : forall i,
             Store.lookup (chunkKeyOf other i)
               (records (snd (WriteRoute.POST path offset body now svc)))
             = Store.lookup (chunkKeyOf other i) (records svc)).
  { intros i. apply POST_frame.
    - apply chunkKey_not_a_metadataKey.
    - intros j E. apply chunkKeys_of_paths in E. now destruct E. }
  split; [|split].
  - apply POST_frame.
    + intros E. now apply append_inj_r in E.
    + intros i E. symmetry in E. now apply chunkKey_not_a_metadataKey in E.
  - exact C.
  - intros k. unfold fileByte, chunkBytes. now rewrite C.
Qed.

Lemma write_leaves_other_paths_alone_witness :
  Store.lookup (metadataKeyOf "/f.chunk1")
    (records (snd (WriteRoute.POST "/f" 3000 "WFk=" 5 fileService)))
  = Store.lookup (metadataKeyOf "/f.chunk1") (records fileService)
  /\ (forall i,
        Store.lookup (chunkKeyOf "/f.chunk1" i)
          (records (snd (WriteRoute.POST "/f" 3000 "WFk=" 5 fileService)))
        = Store.lookup (chunkKeyOf "/f.chunk1" i) (records fileService))
  /\ (forall k,
        fileByte (records (snd (WriteRoute.POST "/f" 3000 "WFk=" 5 fileService)))
          "/f.chunk1" k
        = fileByte (records fileService) "/f.chunk1" k).
Proof.
  apply (write_leaves_other_paths_alone "/f" "/f.chunk1" 3000 "WFk=" 5 fileService).
  discriminate.
Defined.



(** ** Files stored without gaps *)

Lemma length_chunkSlice C i :
  0 <= i ->
  Buf.length (chunkSlice C i)
  = Z.min MAX_CHUNK_SIZE (Z.max 0 (Buf.length C - i * MAX_CHUNK_SIZE)).
Proof.
  intros I. unfold chunkSlice, Buf.length, MAX_CHUNK_SIZE.
  rewrite length_firstn, length_skipn. lia.
Qed.

Lemma byteAt_chunkSlice C i j :
  0 <= i -> 0 <= j < MAX_CHUNK_SIZE ->
  byteAt (chunkSlice C i) j = byteAt C (i * MAX_CHUNK_SIZE + j).
Proof.
  intros I J. unfold byteAt, chunkSlice, MAX_CHUNK_SIZE in *.
  rewrite nth_firstn. destruct (Nat.ltb_spec (Z.to_nat j) (Z.to_nat 3000)); [|lia].
  rewrite nth_skipn. f_equal. lia.
Qed.

Lemma asciiBytes_chunkSlice C i : asciiBytes C -> asciiBytes (chunkSlice C i).
Proof. intros A. unfold chunkSlice. now apply Forall_firstn', Forall_skipn'. Qed.

Lemma asciiBytes_sliceOf C offset len : asciiBytes C -> asciiBytes (sliceOf C offset len).
Proof. intros A. unfold sliceOf. now apply Forall_firstn', Forall_skipn'. Qed.

Lemma encode_text_of_bytes b : asciiBytes b -> Utf8.encode (map Byte.to_N b) = b.
Proof. intros A. rewrite <- (decode_ascii _ A). now apply encode_decode_ascii. Qed.

Lemma substring_inside (s : jsstring) (a b : Z) :
  0 <= a <= b -> b <= Text.length s ->
  Text.substring s a b = firstn (Z.to_nat (b - a)) (skipn (Z.to_nat a) s).
Proof.
  intros H L. unfold Text.substring, Text.clamp.
  rewrite (Z.min_l a), (Z.min_l b), (Z.max_r 0 a), (Z.max_r 0 b) by lia.
  now rewrite (Z.min_l a b), (Z.max_r a b) by lia.
Qed.

(** A part of a chunk is a part of the content. *)
Lemma slice_of_chunkSlice C i a n :
  0 <= i -> 0 <= a -> 0 <= n -> a + n <= MAX_CHUNK_SIZE ->
  firstn (Z.to_nat n) (skipn (Z.to_nat a) (chunkSlice C i))
  = sliceOf C (i * MAX_CHUNK_SIZE + a) n.
Proof.
  intros I A N L. unfold chunkSlice, sliceOf, MAX_CHUNK_SIZE in *.
  rewrite skipn_firstn_comm, firstn_firstn, skipn_skipn.
  f_equal; [lia | f_equal; lia].
Qed.

Lemma sliceOf_app C offset a b :
  0 <= offset -> 0 <= a -> 0 <= b ->
  sliceOf C offset a ++ sliceOf C (offset + a) b = sliceOf C offset (a + b).
Proof.
  intros O A B. unfold sliceOf.
  replace (Z.to_nat (a + b)) with (Z.to_nat a + Z.to_nat b)%nat by lia.
  rewrite firstn_plus, skipn_skipn. do 3 f_equal. lia.
Qed.

Lemma sliceOf_clamped C offset len :
  0 <= offset -> 0 <= len ->
  sliceOf C offset (Z.min len (Buf.length C - offset)) = sliceOf C offset len.
Proof.
  intros O L. unfold sliceOf, Buf.length.
  destruct (Z.le_ge_cases len (Z.of_nat (List.length C) - offset)) as [H|H].
  - now rewrite Z.min_l.
  - rewrite Z.min_r by exact H.
    rewrite !firstn_all2; [reflexivity | |]; rewrite length_skipn; lia.
Qed.

(** The read loop over the chunks of a file stored without gaps: it
    gathers the bytes of the range, chunk after chunk. *)
Lemma readChunks_dense path C offset readSize numChunks e :
  asciiBytes C -> 0 <= offset -> 0 < readSize -> offset + readSize <= Buf.length C ->
  e = (offset + readSize - 1) / MAX_CHUNK_SIZE -> e < numChunks ->
  forall count i svc,
  faultless svc -> offset / MAX_CHUNK_SIZE <= i <= e -> Z.of_nat count = e - i + 1 ->
  (forall i', 0 <= i' -> i' * MAX_CHUNK_SIZE < Buf.length C ->
     Store.lookup (chunkKeyOf path i') (records svc)
     = Some (Text (map Byte.to_N (chunkSlice C i')))) ->
  exists svc',
    ReadRoute.readChunks count path offset readSize numChunks i
      (map Byte.to_N (sliceOf C offset (Z.max offset (i * MAX_CHUNK_SIZE) - offset)))
      (Z.max offset (i * MAX_CHUNK_SIZE) - offset) svc
    = (inr (map Byte.to_N (sliceOf C offset readSize)), svc')
    /\ records svc' = records svc.
Proof.
  intros A O Pos End Ee Nc.
  assert (Mx : MAX_CHUNK_SIZE = 3000) by reflexivity.
  destruct (chunk_range offset readSize O Pos) as (R1 & R2 & R3 & R4 & R5).
  rewrite <- Ee in *.
  induction count as [|count IH]; intros i svc F I Cn H; [lia|].
  cbn [ReadRoute.readChunks].
  destruct (Z.ltb_spec i numChunks); [|lia]. cbn [negb].
  assert (I0 : 0 <= i).
  { pose proof (Z.div_pos offset MAX_CHUNK_SIZE O ltac:(lia)). lia. }
  assert (Lo : i * MAX_CHUNK_SIZE < Buf.length C) by lia.
  rewrite (read_getChunk_found _ _ _ _ (H i I0 Lo) (F _)).
  cbn [cr_error cr_chunkData value_string].
  set (svc1 := received _ _ _).
  assert (F1 : faultless svc1) by exact F.
  assert (S1 : records svc1 = records svc) by reflexivity.
  clearbody svc1.
  assert (TL : Text.length (map Byte.to_N (chunkSlice C i))
               = Z.min MAX_CHUNK_SIZE (Buf.length C - i * MAX_CHUNK_SIZE)).
  { unfold Text.length. rewrite length_map.
    change (Z.of_nat (List.length (chunkSlice C i))) with (Buf.length (chunkSlice C i)).
    rewrite length_chunkSlice by exact I0. lia. }
  rewrite TL.
  remember (Z.max 0 (offset - i * MAX_CHUNK_SIZE)) as rs eqn:Ers.
  remember (Z.min MAX_CHUNK_SIZE (offset + readSize - i * MAX_CHUNK_SIZE)) as re eqn:Ere.
  replace (Z.min (Z.min MAX_CHUNK_SIZE (Buf.length C - i * MAX_CHUNK_SIZE))
             (offset + readSize - i * MAX_CHUNK_SIZE)) with re by lia.
  assert (W : 0 <= rs < re) by lia.
  rewrite (Z.max_r 0 (re - rs)) by lia.
  destruct (Z.ltb_spec 0 (re - rs)); [|lia].
  rewrite substring_inside by lia.
  rewrite skipn_map, firstn_map, <- map_app.
  rewrite slice_of_chunkSlice by lia.
  replace (i * MAX_CHUNK_SIZE + rs) with (offset + (Z.max offset (i * MAX_CHUNK_SIZE) - offset))
    by lia.
  rewrite sliceOf_app by lia.
  destruct (Z.leb_spec readSize (Z.max offset (i * MAX_CHUNK_SIZE) - offset + (re - rs)))
    as [Done|More].
  - exists svc1. split; [|exact S1]. do 4 f_equal. lia.
  - replace (Z.max offset (i * MAX_CHUNK_SIZE) - offset + (re - rs))
      with (Z.max offset ((i + 1) * MAX_CHUNK_SIZE) - offset) by lia.
    destruct (IH (i + 1) svc1) as (svc' & E & R).
    + exact F1.
    + lia.
    + lia.
    + now rewrite S1.
    + exists svc'. split; [exact E | now rewrite R].
Qed.

(** The read route on a file stored without gaps. *)
Lemma GET_dense path offset len svc C :
  path <> EmptyString -> 0 <= offset -> 0 <= len -> faultless svc ->
  holdsFile (records svc) path C ->
  fst (ReadRoute.GET path offset len svc) = mkResponse 200 (Body (sliceOf C offset len))
  /\ records (snd (ReadRoute.GET path offset len svc)) = records svc.
Proof.
  intros P O L F (A & (m & Lm & Dir & Sz & Nc) & Ch & _).
  assert (Mx : MAX_CHUNK_SIZE = 3000) by reflexivity.
  unfold ReadRoute.GET. rewrite (truthy_nonempty _ P). cbn [negb].
  replace (offset <? 0) with false by (symmetry; apply Z.ltb_ge; lia).
  replace (len <? 0) with false by (symmetry; apply Z.ltb_ge; lia).
  cbn [orb].
  destruct (Z.eqb_spec len 0) as [->|L0]; [now split|].
  rewrite (read_getMetadata_found _ _ _ Lm (F _)).
  cbn [mr_error mr_metadata]. rewrite withNumChunks_mode, Dir, withNumChunks_size, Sz.
  cbn [fst snd records received].
  destruct (Z.leb_spec (Buf.length C) offset) as [Past|In].
  { split; [|reflexivity]. unfold sliceOf. rewrite skipn_all2, firstn_nil; [reflexivity|].
    unfold Buf.length in Past. lia. }
  remember (Z.min len (Buf.length C - offset)) as readSize eqn:Ers.
  destruct (Z.leb_spec readSize 0); [lia|].
  destruct (chunk_range offset readSize O ltac:(lia)) as (R1 & R2 & R3 & R4 & R5).
  pose proof (ceil_div_spec (Buf.length C) MAX_CHUNK_SIZE ltac:(lia)) as Cd.
  assert (NC : match num_chunks (withNumChunks m) with
               | Some n => n
               | None => ceil_div (Buf.length C) MAX_CHUNK_SIZE
               end = ceil_div (Buf.length C) MAX_CHUNK_SIZE).
  { unfold withNumChunks. rewrite Sz.
    destruct (Z.ltb_spec 0 (Buf.length C)); [|lia].
    destruct Nc as [E|E]; rewrite E; cbn [andb num_chunks]; [reflexivity|].
    now rewrite E, Sz. }
  rewrite NC.
  destruct (readChunks_dense path C offset readSize (ceil_div (Buf.length C) MAX_CHUNK_SIZE)
              ((offset + readSize - 1) / MAX_CHUNK_SIZE) A O ltac:(lia) ltac:(lia) eq_refl)
    with (count := Z.to_nat ((offset + readSize - 1) / MAX_CHUNK_SIZE
                             - offset / MAX_CHUNK_SIZE + 1))
         (i := offset / MAX_CHUNK_SIZE)
         (svc := received (GetRecord (metadataKeyOf path)) (records svc) svc)
    as (svc' & E & R).
  - nia.
  - exact F.
  - lia.
  - lia.
  - exact Ch.
  - rewrite (Z.max_l offset) in E by lia. rewrite Z.sub_diag in E.
    change (sliceOf C offset 0) with (@nil byte) in E. cbn [map] in E.
    rewrite E. cbn [fst snd].
    assert (TL : Text.length (map Byte.to_N (sliceOf C offset readSize)) <= readSize).
    { unfold Text.length, sliceOf. rewrite length_map, length_firstn. lia. }
    destruct (Z.ltb_spec readSize (Text.length (map Byte.to_N (sliceOf C offset readSize))));
      [lia|].
    split; [|exact R].
    rewrite encode_text_of_bytes by now apply asciiBytes_sliceOf.
    subst readSize. now rewrite sliceOf_clamped.
Qed.

Lemma length_spliced C offset D :
  0 <= offset ->
  Buf.length (spliced C offset D) = Z.max (Buf.length C) (offset + Buf.length D).
Proof.
  intros O. unfold spliced, Buf.alloc, Buf.length in *.
  rewrite !length_app, length_firstn, length_app, repeat_length, length_skipn. lia.
Qed.

Lemma byteAt_spliced C offset D k :
  0 <= offset -> 0 <= k ->
  byteAt (spliced C offset D) k
  = if (offset <=? k) && (k <? offset + Buf.length D)
    then byteAt D (k - offset) else byteAt C k.
Proof.
  intros O K. unfold spliced, Buf.alloc, byteAt, Buf.length in *.
  set (pad := repeat x00 (Z.to_nat (offset - Z.of_nat (List.length C)))).
  assert (Lp : List.length pad = Z.to_nat (offset - Z.of_nat (List.length C)))
    by apply repeat_length.
  assert (Zp : forall n, nth n pad x00 = x00) by (intros n; apply nth_repeat).
  assert (L : List.length (firstn (Z.to_nat offset) (C ++ pad)) = Z.to_nat offset)
    by (rewrite length_firstn, length_app; lia).
  clearbody pad.
  destruct (Z.leb_spec offset k) as [A|A]; cbn [andb].
  - rewrite app_nth2 by lia. rewrite L.
    destruct (Z.ltb_spec k (offset + Z.of_nat (List.length D))) as [B|B].
    + rewrite app_nth1 by lia. f_equal. lia.
    + rewrite app_nth2 by lia. rewrite nth_skipn. f_equal. lia.
  - rewrite app_nth1 by lia. rewrite nth_firstn.
    destruct (Nat.ltb_spec (Z.to_nat k) (Z.to_nat offset)); [|lia].
    destruct (Nat.lt_ge_cases (Z.to_nat k) (List.length C)) as [In|Out].
    + now apply app_nth1.
    + rewrite app_nth2 by exact Out. rewrite (nth_overflow C) by exact Out.
      apply Zp.
Qed.

Lemma asciiBytes_spliced C offset D :
  asciiBytes C -> asciiBytes D -> asciiBytes (spliced C offset D).
Proof.
  intros A B. unfold spliced, Buf.alloc, asciiBytes. rewrite !Forall_app.
  split; [|split; [exact B | now apply Forall_skipn']].
  apply Forall_firstn', Forall_app. split; [exact A|].
  rewrite Forall_forall. intros b Hb. apply repeat_spec in Hb. now subst.
Qed.

Lemma buffers_by_index (a b : Buffer) :
  Buf.length a = Buf.length b ->
  (forall j, 0 <= j < Buf.length a -> byteAt a j = byteAt b j) -> a = b.
Proof.
  intros L H. unfold Buf.length in *. apply (nth_ext a b x00 x00); [lia|].
  intros n Hn. specialize (H (Z.of_nat n) ltac:(lia)). unfold byteAt in H.
  now rewrite Nat2Z.id in H.
Qed.

(** The bytes the write route reads from chunk [i] of a file stored
    without gaps. *)
Lemma chunkBytes_dense recs path C i :
  asciiBytes C -> 0 <= i ->
  (forall i, 0 <= i -> i * MAX_CHUNK_SIZE < Buf.length C ->
     Store.lookup (chunkKeyOf path i) recs = Some (Text (map Byte.to_N (chunkSlice C i)))) ->
  (forall i, i < 0 \/ Buf.length C <= i * MAX_CHUNK_SIZE ->
     Store.lookup (chunkKeyOf path i) recs = None) ->
  chunkBytes recs path i = chunkSlice C i.
Proof.
  intros A I H N. unfold chunkBytes.
  destruct (Z.lt_ge_cases (i * MAX_CHUNK_SIZE) (Buf.length C)) as [L|L].
  - rewrite (H i I L). cbn [value_string].
    apply encode_text_of_bytes. now apply asciiBytes_chunkSlice.
  - rewrite (N i) by now right. unfold chunkSlice.
    rewrite skipn_all2; [now rewrite firstn_nil|]. unfold Buf.length in L. lia.
Qed.

(** The write route on a file stored without gaps, or on a path with no
    record, at an offset that skips no chunk: the file is then stored
    without gaps and holds the content with the data written over it, zero
    bytes between the old end and the offset when the write starts past the
    end. *)
Lemma POST_dense path offset body now svc C :
  path <> EmptyString -> 0 <= offset ->
  offset / MAX_CHUNK_SIZE <= Buf.length C / MAX_CHUNK_SIZE -> faultless svc ->
  Base64.decode body <> [] -> asciiBytes (Base64.decode body) ->
  holdsFile (records svc) path C \/ (C = [] /\ noRecordOf (records svc) path) ->
  exists svc',
    WriteRoute.POST path offset body now svc
    = (mkResponse 200 (BytesWritten (Buf.length (Base64.decode body))), svc')
    /\ faultless svc'
    /\ holdsFile (records svc') path (spliced C offset (Base64.decode body)).
Proof.
  intros P O Near F Dne AD Held.
  assert (Mx : MAX_CHUNK_SIZE = 3000) by reflexivity.
  assert (CL : 0 <= Buf.length C) by (unfold Buf.length; lia).
  pose proof (position_in_chunk (Buf.length C) CL) as [Cm Cd].
  assert (Facts :
    asciiBytes C
    /\ storedSize (records svc) path = Buf.length C
    /\ (Store.lookup (metadataKeyOf path) (records svc) = None
        \/ exists m, Store.lookup (metadataKeyOf path) (records svc) = Some (Json m)
                     /\ isDirectoryMode (mode m) = false)
    /\ (forall i, 0 <= i -> i * MAX_CHUNK_SIZE < Buf.length C ->
          Store.lookup (chunkKeyOf path i) (records svc)
          = Some (Text (map Byte.to_N (chunkSlice C i))))
    /\ (forall i, i < 0 \/ Buf.length C <= i * MAX_CHUNK_SIZE ->
          Store.lookup (chunkKeyOf path i) (records svc) = None)).
  { destruct Held as [(A & (m & Lm & Dir & Sz & _) & Ch & No) | (-> & Nm & Nc)].
    - split; [exact A|]. split; [unfold storedSize; now rewrite Lm|].
      split; [right; now exists m|]. now split.
    - split; [constructor|]. split; [unfold storedSize; now rewrite Nm|].
      split; [now left|]. split; [|now intros]. intros i I L. cbn in L. lia. }
  destruct Facts as (A & St & M & Ch & No).
  destruct (POST_accepted path offset body now svc P ltac:(lia) F Dne M)
    as (svc' & E & F' & Wr & Keep & md & Lm & Dir & Sz & Nc).
  exists svc'. split; [exact E|]. split; [exact F'|].
  remember (Base64.decode body) as D eqn:ED.
  assert (Len : 0 < Buf.length D).
  { unfold Buf.length. destruct D; [congruence | cbn; lia]. }
  destruct (chunk_range offset (Buf.length D) ltac:(lia) Len) as (R1 & R2 & R3 & R4 & R5).
  pose proof (length_spliced C offset D O) as LS.
  assert (S0 : 0 <= offset / MAX_CHUNK_SIZE)
    by (apply Z.div_pos; lia).
  split; [now apply asciiBytes_spliced|]. split; [|split].
  - exists md. split; [exact Lm|]. split; [exact Dir|]. rewrite LS, <- St.
    split; [exact Sz | now right].
  - intros i I L.
    pose proof (length_chunkSlice C i I) as LC.
    pose proof (length_chunkSlice (spliced C offset D) i I) as LC'.
    destruct (Z_le_dec (offset / MAX_CHUNK_SIZE) i) as [Lo|Lo];
      [destruct (Z_le_dec i ((offset + Buf.length D - 1) / MAX_CHUNK_SIZE)) as [Hi|Hi]|].
    + rewrite Wr by lia. do 2 f_equal.
      assert (In1 : i * MAX_CHUNK_SIZE < offset + Buf.length D) by lia.
      assert (In2 : offset < i * MAX_CHUNK_SIZE + MAX_CHUNK_SIZE) by lia.
      destruct (writtenChunk_bytes (records svc) path D offset i ltac:(lia) Len In1 In2)
        as [WL WB].
      rewrite (chunkBytes_dense _ _ C i A I Ch No) in WL, WB.
      assert (W : writtenChunk (records svc) path D offset i
                  = chunkSlice (spliced C offset D) i).
      { apply buffers_by_index; [lia|]. intros j J.
        rewrite WB by lia.
        rewrite (byteAt_chunkSlice (spliced C offset D)), byteAt_spliced by lia.
        destruct (Z.leb_spec (Z.max 0 (offset - i * MAX_CHUNK_SIZE)) j),
          (Z.ltb_spec j (Z.min MAX_CHUNK_SIZE (offset + Buf.length D - i * MAX_CHUNK_SIZE))),
          (Z.leb_spec offset (i * MAX_CHUNK_SIZE + j)),
          (Z.ltb_spec (i * MAX_CHUNK_SIZE + j) (offset + Buf.length D));
          cbn [andb]; try reflexivity; try lia;
          apply byteAt_chunkSlice; lia. }
      rewrite W. apply decode_ascii. apply asciiBytes_chunkSlice.
      now apply asciiBytes_spliced.
    + rewrite Keep by lia. rewrite Ch by lia. do 3 f_equal.
      apply buffers_by_index; [lia|]. intros j J.
      rewrite !byteAt_chunkSlice, byteAt_spliced by lia.
      destruct (Z.leb_spec offset (i * MAX_CHUNK_SIZE + j)),
        (Z.ltb_spec (i * MAX_CHUNK_SIZE + j) (offset + Buf.length D));
        cbn [andb]; try reflexivity; lia.
    + rewrite Keep by lia. rewrite Ch by lia. do 3 f_equal.
      apply buffers_by_index; [lia|]. intros j J.
      rewrite !byteAt_chunkSlice, byteAt_spliced by lia.
      destruct (Z.leb_spec offset (i * MAX_CHUNK_SIZE + j)),
        (Z.ltb_spec (i * MAX_CHUNK_SIZE + j) (offset + Buf.length D));
        cbn [andb]; try reflexivity; lia.
  - intros i I. rewrite Keep by lia. apply No. lia.
Qed.

Lemma smallFileService_holds : holdsFile (records smallFileService) "/f" [x41; x42].
Proof.
  split; [repeat constructor|]. split; [|split].
  - eexists. split; [reflexivity|]. split; [reflexivity|]. split; [reflexivity|].
    now right.
  - intros i I L. assert (i = 0) as -> by (unfold MAX_CHUNK_SIZE in L; cbn in L; lia).
    reflexivity.
  - intros i I. unfold chunkKeyOf. cbn.
    destruct (String.eqb_spec (JsString.ofZ i) "0") as [E|]; [|reflexivity].
    apply (ofZ_inj i 0) in E. subst i. cbn in I. lia.
Qed.

(** X7: a read of a file stored without gaps returns exactly the bytes of
    the requested range that the file has: [len] bytes from [offset], fewer
    when the file ends before, none at or past the end of the file. *)
Theorem read_returns_the_range path offset len svc C :
  path <> EmptyString -> 0 <= offset -> 0 <= len -> faultless svc ->
  holdsFile (records svc) path C ->
  fst (ReadRoute.GET path offset len svc) = mkResponse 200 (Body (sliceOf C offset len)).
Proof. intros P O L F H. now destruct (GET_dense path offset len svc C P O L F H). Qed.

Lemma read_returns_the_range_witness :
  fst (ReadRoute.GET "/f" 1 5 smallFileService)
  = mkResponse 200 (Body (sliceOf [x41; x42] 1 5)).
Proof.
  apply (read_returns_the_range "/f" 1 5 smallFileService [x41; x42]).
  - discriminate.
  - lia.
  - lia.
  - intros c. reflexivity.
  - exact smallFileService_holds.
Defined.

(** X8: a write of ASCII data to a file stored without gaps (or to a path
    with no record) that skips no chunk, that is, starts no later than in
    the chunk where the content ends, in a store that answers the requests,
    succeeds and leaves the file stored without gaps, holding the old
    content with the data written over it at the offset, and zero bytes
    between the old end and the offset when the write starts past the end:
    the size grows to cover the data and never shrinks. *)
Theorem write_splices_the_content path offset body now svc C :
  path <> EmptyString -> 0 <= offset ->
  offset / MAX_CHUNK_SIZE <= Buf.length C / MAX_CHUNK_SIZE -> faultless svc ->
  Base64.decode body <> [] -> asciiBytes (Base64.decode body) ->
  holdsFile (records svc) path C \/ (C = [] /\ noRecordOf (records svc) path) ->
  fst (WriteRoute.POST path offset body now svc)
  = mkResponse 200 (BytesWritten (Buf.length (Base64.decode body)))
  /\ holdsFile (records (snd (WriteRoute.POST path offset body now svc))) path
       (spliced C offset (Base64.decode body)).
Proof.
  intros P O Near F Dne A H.
  destruct (POST_dense path offset body now svc C P O Near F Dne A H)
    as (svc' & E & _ & H').
  rewrite E. now split.
Qed.

Lemma write_splices_the_content_witness :
  fst (WriteRoute.POST "/f" 4 "WFk=" 5 smallFileService)
  = mkResponse 200 (BytesWritten (Buf.length (Base64.decode "WFk=")))
  /\ holdsFile (records (snd (WriteRoute.POST "/f" 4 "WFk=" 5 smallFileService))) "/f"
       (spliced [x41; x42] 4 (Base64.decode "WFk=")).
Proof.
  apply (write_splices_the_content "/f" 4 "WFk=" 5 smallFileService [x41; x42]).
  - discriminate.
  - lia.
  - discriminate.
  - intros c. reflexivity.
  - discriminate.
  - repeat constructor.
  - left. exact smallFileService_holds.
Defined.

Lemma afterWrites_dense path ws :
  path <> EmptyString ->
  forall svc C,
  faultless svc -> holdsFile (records svc) path C -> contiguousWrites ws C ->
  faultless (afterWrites path ws svc)
  /\ holdsFile (records (afterWrites path ws svc)) path (contentAfter ws C).
Proof.
  intros P. induction ws as [|[[offset body] now] ws IH]; intros svc C F H V.
  - now split.
  - destruct V as (O & Near & Dne & A & V). cbn [afterWrites contentAfter].
    destruct (POST_dense path offset body now svc C P O Near F Dne A (or_introl H))
      as (svc' & E & F' & H').
    rewrite E. cbn [snd]. now apply IH.
Qed.

(** X9: writes of ASCII data that skip no chunk behave as writes to a
    plain byte array (one that fills with zero bytes when a write starts
    past its end).  After any sequence of such writes to a file stored
    without gaps (or to a path with no record, if there is at least one
    write), in a store that answers the requests, every read returns the
    requested range of the array the same writes produce. *)
Theorem writes_then_read_as_a_byte_array path ws svc C offset len :
  path <> EmptyString -> faultless svc ->
  holdsFile (records svc) path C
  \/ (C = [] /\ noRecordOf (records svc) path /\ ws <> []) ->
  contiguousWrites ws C ->
  0 <= offset -> 0 <= len ->
  fst (ReadRoute.GET path offset len (afterWrites path ws svc))
  = mkResponse 200 (Body (sliceOf (contentAfter ws C) offset len)).
Proof.
  intros P F H V O L.
  assert (G : faultless (afterWrites path ws svc)
              /\ holdsFile (records (afterWrites path ws svc)) path (contentAfter ws C)).
  { destruct H as [H|(E & N & Ne)]; [now apply afterWrites_dense|].
    destruct ws as [|[[offset0 body] now] ws]; [congruence|].
    destruct V as (O0 & Near & Dne & A & V). cbn [afterWrites contentAfter].
    destruct (POST_dense path offset0 body now svc C P O0 Near F Dne A
                (or_intror (conj E N))) as (svc' & E' & F' & H').
    rewrite E'. cbn [snd]. now apply afterWrites_dense. }
  destruct G as [F' H'].
  now destruct (GET_dense path offset len _ _ P O L F' H').
Qed.

Lemma writes_then_read_as_a_byte_array_witness :
  fst (ReadRoute.GET "/g" 2 3
         (afterWrites "/g" [(0, "SGVsbG8=", 1); (7, "WFk=", 2); (1, "WFk=", 3)]
            emptyService))
  = mkResponse 200
      (Body (sliceOf (contentAfter [(0, "SGVsbG8=", 1); (7, "WFk=", 2); (1, "WFk=", 3)] [])
               2 3)).
Proof.
  apply (writes_then_read_as_a_byte_array "/g"
           [(0, "SGVsbG8=", 1); (7, "WFk=", 2); (1, "WFk=", 3)] emptyService [] 2 3).
  - discriminate.
  - intros c. reflexivity.
  - right. split; [reflexivity|]. split; [|discriminate]. split; [reflexivity|].
    intros i. reflexivity.
  - cbn. repeat split; try lia; try discriminate; repeat constructor.
  - lia.
  - lia.
Defined.

(** ** Deleting, once more *)

Lemma deleteAll_keeps_faults keys :
  forall svc, fault (snd (DeleteRoute.deleteAll keys svc)) = fault svc.
Proof.
  induction keys as [|key keys IH]; intros svc; [reflexivity|].
  cbn [DeleteRoute.deleteAll].
  pose proof (deleteKey_keeps_faults key svc) as K.
  destruct (DeleteRoute.deleteKey key svc) as [r svc1]. cbn [snd] in K.
  specialize (IH svc1).
  destruct (DeleteRoute.deleteAll keys svc1) as [rs svc2]. cbn [snd] in *.
  congruence.
Qed.

Lemma lookup_removeAll_other k keys :
  forall l, ~ In k keys -> Store.lookup k (removeAll keys l) = Store.lookup k l.
Proof.
  induction keys as [|key keys IH]; intros l N; [reflexivity|].
  cbn. rewrite IH by (intros I; apply N; now right).
  apply lookup_remove_other. intros E. apply N. now left.
Qed.

(** Branch 2b of the delete route in a service that refuses nothing: the
    keys given and every key with the chunk prefix are removed. *)
Lemma deleteFile_accepted path keys0 svc :
  faultless svc ->
  exists svc',
    DeleteRoute.deleteFile path keys0 svc = (Some (mkResponse 200 SuccessJson), svc')
    /\ faultless svc'
    /\ records svc'
       = removeAll (keys0 ++ Store.keysWithPrefix (chunkPrefixOf path) (records svc))
           (records svc).
Proof.
  intros F. unfold DeleteRoute.deleteFile. fold (chunkPrefixOf path).
  destruct (listAllKeysWithPrefix_returns (chunkPrefixOf path) svc) as (l & E & K).
  assert (NoErr : DeleteRoute.kr_error l = None).
  { unfold DeleteRoute.listAllKeysWithPrefix in E.
    exact (listPages_no_error _ svc (fun m => F _) _ _ _ svc l eq_refl E). }
  specialize (K NoErr).
  destruct (listAllKeysWithPrefix_same (chunkPrefixOf path) svc svc (sameStore_refl svc))
    as [_ (R1 & Fa & _)].
  destruct (DeleteRoute.listAllKeysWithPrefix _ svc) as [o svc2].
  cbn [fst snd] in *. subst o. rewrite NoErr, K.
  assert (F2 : faultless svc2) by (intros c; now rewrite <- Fa).
  destruct (deleteAll_accepted
              (keys0 ++ Store.keysWithPrefix (chunkPrefixOf path) (records svc)) svc2)
    as [A B]; [intros k _; apply F2|].
  pose proof (deleteAll_keeps_faults
                (keys0 ++ Store.keysWithPrefix (chunkPrefixOf path) (records svc)) svc2) as Kf.
  destruct (DeleteRoute.deleteAll _ svc2) as [results svc3]. cbn [fst snd] in *.
  rewrite A. eexists. split; [reflexivity|]. split.
  - intros c. now rewrite Kf.
  - now rewrite B, <- R1.
Qed.

Lemma DELETE_absent path svc :
  path <> EmptyString -> path <> "/" ->
  Store.lookup (metadataKeyOf path) (records svc) = None ->
  fault svc (GetRecord (metadataKeyOf path)) = None ->
  DeleteRoute.DELETE path svc
  = DeleteRoute.deleteFile path [metadataKeyOf path]
      (received (GetRecord (metadataKeyOf path)) (records svc) svc).
Proof.
  intros P R M F. unfold DeleteRoute.DELETE.
  rewrite (truthy_nonempty _ P), (proj2 (String.eqb_neq _ _) R). cbn [negb orb].
  now rewrite (delete_getMetadata_absent _ _ R M F).
Qed.

(** The delete route on a path that is not a directory, in a service that
    refuses nothing. *)
Lemma DELETE_accepted path svc :
  path <> EmptyString -> path <> "/" -> faultless svc ->
  (Store.lookup (metadataKeyOf path) (records svc) = None
   \/ exists m, Store.lookup (metadataKeyOf path) (records svc) = Some (Json m)
                /\ isDirectoryMode (mode m) = false) ->
  exists svc',
    DeleteRoute.DELETE path svc = (Some (mkResponse 200 SuccessJson), svc')
    /\ faultless svc'
    /\ records svc'
       = removeAll (metadataKeyOf path
                      :: Store.keysWithPrefix (chunkPrefixOf path) (records svc))
           (records svc).
Proof.
  intros P R F M.
  assert (E : DeleteRoute.DELETE path svc
              = DeleteRoute.deleteFile path [metadataKeyOf path]
                  (received (GetRecord (metadataKeyOf path)) (records svc) svc)).
  { destruct M as [M|(m & M & D)].
    - now apply DELETE_absent.
    - now apply (DELETE_file path svc m). }
  rewrite E.
  apply (deleteFile_accepted path [metadataKeyOf path]
           (received (GetRecord (metadataKeyOf path)) (records svc) svc)).
  exact F.
Qed.

Lemma keysWithPrefix_In k p l :
  In k (Store.keysWithPrefix p l)
  <-> JsString.startsWith k p = true /\ Store.lookup k l <> None.
Proof.
  unfold Store.keysWithPrefix. rewrite filter_In, lookup_in_keys. tauto.
Qed.

(** The records after a delete that went through, key by key. *)
Lemma lookup_after_delete path l k :
  Store.lookup k
    (removeAll (metadataKeyOf path :: Store.keysWithPrefix (chunkPrefixOf path) l) l)
  = if String.eqb k (metadataKeyOf path) || JsString.startsWith k (chunkPrefixOf path)
    then None else Store.lookup k l.
Proof.
  destruct (String.eqb_spec k (metadataKeyOf path)) as [->|N]; cbn [orb].
  - apply lookup_removeAll_in. now left.
  - destruct (JsString.startsWith k (chunkPrefixOf path)) eqn:S.
    + destruct (Store.lookup k l) eqn:L.
      * apply lookup_removeAll_in. right. apply keysWithPrefix_In. split; [exact S|].
        now rewrite L.
      * now apply lookup_removeAll_absent.
    + apply lookup_removeAll_other. intros [E|I]; [congruence|].
      apply keysWithPrefix_In in I. destruct I as [S' _]. congruence.
Qed.

(** X10: what a delete of a file removes.  For a path that is not a
    directory (a regular file, or no metadata record), in a store that
    answers the requests, the delete answers success; afterwards the
    metadata key of the path and every key that starts with the chunk prefix
    of the path are gone, and every other record is as it was. *)
Theorem delete_removes_the_prefix path svc :
  path <> EmptyString -> path <> "/" -> faultless svc ->
  (Store.lookup (metadataKeyOf path) (records svc) = None
   \/ exists m, Store.lookup (metadataKeyOf path) (records svc) = Some (Json m)
                /\ isDirectoryMode (mode m) = false) ->
  fst (DeleteRoute.DELETE path svc) = Some (mkResponse 200 SuccessJson)
  /\ (forall k,
        Store.lookup k (records (snd (DeleteRoute.DELETE path svc)))
        = if String.eqb k (metadataKeyOf path)
             || JsString.startsWith k (chunkPrefixOf path)
          then None else Store.lookup k (records svc))
  /\ noRecordOf (records (snd (DeleteRoute.DELETE path svc))) path.
Proof.
  intros P R F M.
  destruct (DELETE_accepted path svc P R F M) as (svc' & E & _ & Rs).
  rewrite E. cbn [fst snd]. rewrite Rs. split; [reflexivity|]. split.
  - intros k. apply lookup_after_delete.
  - split.
    + rewrite lookup_after_delete. now rewrite String.eqb_refl.
    + intros i. rewrite lookup_after_delete.
      now rewrite chunkKey_has_chunkPrefix, orb_true_r.
Qed.

Lemma delete_removes_the_prefix_witness :
  fst (DeleteRoute.DELETE "/f" fileService) = Some (mkResponse 200 SuccessJson)
  /\ (forall k,
        Store.lookup k (records (snd (DeleteRoute.DELETE "/f" fileService)))
        = if String.eqb k (metadataKeyOf "/f")
             || JsString.startsWith k (chunkPrefixOf "/f")
          then None else Store.lookup k (records fileService))
  /\ noRecordOf (records (snd (DeleteRoute.DELETE "/f" fileService))) "/f".
Proof.
  apply (delete_removes_the_prefix "/f" fileService).
  - discriminate.
  - discriminate.
  - intros c. reflexivity.
  - right. eexists. split; reflexivity.
Defined.

Lemma keysWithPrefix_none p l :
  (forall k, JsString.startsWith k p = true -> Store.lookup k l = None) ->
  Store.keysWithPrefix p l = [].
Proof.
  intros H. destruct (Store.keysWithPrefix p l) as [|k ks] eqn:E; [reflexivity|].
  assert (I : In k (Store.keysWithPrefix p l)) by (rewrite E; now left).
  apply keysWithPrefix_In in I. destruct I as [S N]. now elim N; apply H.
Qed.

(** X11: delete is idempotent.  After the delete of a path that is not a
    directory, in a store that answers the requests, a second delete of the
    path answers success as well and changes no record. *)
Theorem delete_twice path svc :
  path <> EmptyString -> path <> "/" -> faultless svc ->
  (Store.lookup (metadataKeyOf path) (records svc) = None
   \/ exists m, Store.lookup (metadataKeyOf path) (records svc) = Some (Json m)
                /\ isDirectoryMode (mode m) = false) ->
  fst (DeleteRoute.DELETE path (snd (DeleteRoute.DELETE path svc)))
  = Some (mkResponse 200 SuccessJson)
  /\ records (snd (DeleteRoute.DELETE path (snd (DeleteRoute.DELETE path svc))))
     = records (snd (DeleteRoute.DELETE path svc)).
Proof.
  intros P R F M.
  destruct (DELETE_accepted path svc P R F M) as (svc' & E & F' & Rs).
  rewrite E. cbn [snd].
  assert (Gone : forall k,
             String.eqb k (metadataKeyOf path)
             || JsString.startsWith k (chunkPrefixOf path) = true ->
             Store.lookup k (records svc') = None).
  { intros k H. rewrite Rs, lookup_after_delete. now rewrite H. }
  assert (M' : Store.lookup (metadataKeyOf path) (records svc') = None)
    by (apply Gone; now rewrite String.eqb_refl).
  destruct (DELETE_accepted path svc' P R F' (or_introl M')) as (svc'' & E' & _ & Rs').
  rewrite E'. cbn [fst snd]. split; [reflexivity|].
  rewrite Rs', keysWithPrefix_none.
  - cbn. now apply remove_absent.
  - intros k S. apply Gone. now rewrite S, orb_true_r.
Qed.

Lemma delete_twice_witness :
  fst (DeleteRoute.DELETE "/f" (snd (DeleteRoute.DELETE "/f" fileService)))
  = Some (mkResponse 200 SuccessJson)
  /\ records (snd (DeleteRoute.DELETE "/f" (snd (DeleteRoute.DELETE "/f" fileService))))
     = records (snd (DeleteRoute.DELETE "/f" fileService)).
Proof.
  apply (delete_twice "/f" fileService).
  - discriminate.
  - discriminate.
  - intros c. reflexivity.
  - right. eexists. split; reflexivity.
Defined.

(** X12: a file deleted and written again holds the new data only.  In a
    store that answers the requests, after the delete of a path that is not
    a directory and a write of ASCII data at offset 0, the file is stored
    without gaps and its content is the data: nothing of what the path held
    before is left. *)
Theorem delete_then_write_starts_afresh path body now svc :
  path <> EmptyString -> path <> "/" -> faultless svc ->
  (Store.lookup (metadataKeyOf path) (records svc) = None
   \/ exists m, Store.lookup (metadataKeyOf path) (records svc) = Some (Json m)
                /\ isDirectoryMode (mode m) = false) ->
  Base64.decode body <> [] -> asciiBytes (Base64.decode body) ->
  holdsFile
    (records (snd (WriteRoute.POST path 0 body now (snd (DeleteRoute.DELETE path svc)))))
    path (Base64.decode body).
Proof.
  intros P R F M Dne A.
  destruct (DELETE_accepted path svc P R F M) as (svc' & E & F' & Rs).
  rewrite E. cbn [snd].
  assert (N : noRecordOf (records svc') path).
  { split.
    - rewrite Rs, lookup_after_delete. now rewrite String.eqb_refl.
    - intros i. rewrite Rs, lookup_after_delete.
      now rewrite chunkKey_has_chunkPrefix, orb_true_r. }
  destruct (POST_dense path 0 body now svc' [] P ltac:(lia) ltac:(reflexivity) F' Dne A
              (or_intror (conj eq_refl N))) as (svc'' & E' & _ & H).
  rewrite E'. cbn [snd].
  assert (S : spliced [] 0 (Base64.decode body) = Base64.decode body).
  { unfold spliced. cbn [Z.to_nat firstn app]. now rewrite skipn_nil, app_nil_r. }
  now rewrite S in H.
Qed.

Lemma delete_then_write_starts_afresh_witness :
  holdsFile
    (records (snd (WriteRoute.POST "/f" 0 "WFk=" 9 (snd (DeleteRoute.DELETE "/f" fileService)))))
    "/f" (Base64.decode "WFk=").
Proof.
  apply (delete_then_write_starts_afresh "/f" "WFk=" 9 fileService).
  - discriminate.
  - discriminate.
  - intros c. reflexivity.
  - right. eexists. split; reflexivity.
  - discriminate.
  - repeat constructor.
Defined.

(** ** Directories *)

Lemma prefix_with_slash (p s : string) :
  String.prefix (p +++ "/") (p +++ String "." s) = false.
Proof.
  induction p as [|c p IH]; [reflexivity|]. cbn.
  destruct (ascii_dec c c) as [_|n]; [exact IH | now elim n].
Qed.

Lemma keys_put k v l :
  Store.keys (Store.put k v l)
  = match Store.lookup k l with
    | Some _ => Store.keys l
    | None => Store.keys l ++ [k]
    end.
Proof.
  unfold Store.keys. induction l as [|[k' v'] l IH]; cbn; [reflexivity|].
  destruct (String.eqb_spec k k') as [->|N]; cbn; [reflexivity|].
  rewrite IH. now destruct (Store.lookup k l).
Qed.

Lemma remove_put_absent k v l :
  Store.lookup k l = None -> Store.remove k (Store.put k v l) = l.
Proof.
  induction l as [|[k' v'] l IH]; cbn.
  - now rewrite String.eqb_refl.
  - destruct (String.eqb k k') eqn:E; [discriminate|]. intros H. cbn.
    now rewrite E, IH.
Qed.

Lemma mkdir_getMetadata_absent path svc :
  path <> "/" ->
  Store.lookup (metadataKeyOf path) (records svc) = None ->
  fault svc (GetRecord (metadataKeyOf path)) = None ->
  MkdirRoute.getMetadata path svc
  = (mkMetadataResult None None 404,
     received (GetRecord (metadataKeyOf path)) (records svc) svc).
Proof.
  intros R L F. unfold MkdirRoute.getMetadata.
  apply String.eqb_neq in R. rewrite R. fold (metadataKeyOf path).
  now rewrite (call_get_absent _ _ F L).
Qed.


(** The mkdir route on a path with no record, in a service that refuses
    nothing. *)
Lemma mkdir_accepted path now svc :
  path <> EmptyString -> path <> "/" -> JsString.endsWith path "/" = false ->
  faultless svc ->
  Store.lookup (metadataKeyOf path) (records svc) = None ->
  exists svc',
    MkdirRoute.POST path now svc = (mkResponse 201 SuccessJson, svc')
    /\ faultless svc'
    /\ records svc'
       = Store.put (metadataKeyOf path)
           (Json (mkMetadata DEFAULT_DIR_MODE 1000 1000 0 now now now None))
           (records svc)
    /\ pageLimit svc' = pageLimit svc.
Proof.
  intros P R T F L. unfold MkdirRoute.POST.
  rewrite (truthy_nonempty _ P), (proj2 (String.eqb_neq _ _) R), T. cbn [negb orb].
  rewrite (mkdir_getMetadata_absent _ _ R L (F _)). cbn [mr_error mr_metadata].
  unfold MkdirRoute.writeMetadata. fold (metadataKeyOf path).
  rewrite call_post by apply F. cbn [api_error api_status cs_error].
  eexists. split; [reflexivity|]. split; [exact F|]. split; reflexivity.
Qed.

(** Branch 2a of the delete route on a directory with nothing under it. *)
Lemma deleteDirectory_empty path svc :
  JsString.endsWith path "/" = false -> faultless svc ->
  Store.keysWithPrefix (path +++ "/") (records svc) = [] ->
  exists svc',
    DeleteRoute.deleteDirectory path (metadataKeyOf path) svc
    = (Some (mkResponse 200 SuccessJson), svc')
    /\ faultless svc'
    /\ records svc' = Store.remove (metadataKeyOf path) (records svc).
Proof.
  intros T F Empty. unfold DeleteRoute.deleteDirectory. rewrite T.
  destruct (listAllKeysWithPrefix_returns (path +++ "/") svc) as (l & E & K).
  assert (NoErr : DeleteRoute.kr_error l = None).
  { unfold DeleteRoute.listAllKeysWithPrefix in E.
    exact (listPages_no_error _ svc (fun m => F _) _ _ _ svc l eq_refl E). }
  specialize (K NoErr).
  destruct (listAllKeysWithPrefix_same (path +++ "/") svc svc (sameStore_refl svc))
    as [_ (R1 & Fa & _)].
  destruct (DeleteRoute.listAllKeysWithPrefix _ svc) as [o svc2].
  cbn [fst snd] in *. subst o. rewrite NoErr, K, Empty.
  assert (F2 : faultless svc2) by (intros c; now rewrite <- Fa).
  rewrite deleteKey_accepted by apply F2. cbn [cs_error].
  eexists. split; [reflexivity|]. split; [exact F2|].
  cbn [records received]. now rewrite <- R1.
Qed.

(** X13: mkdir and delete undo each other.  For a path the routes admit
    that has no record and nothing under it, in a store that answers the
    requests, mkdir answers 201, the delete that follows answers success,
    and the records are then exactly as they were before the two
    requests. *)
Theorem mkdir_then_delete_restores path now svc :
  path <> EmptyString -> path <> "/" -> JsString.endsWith path "/" = false ->
  faultless svc ->
  Store.lookup (metadataKeyOf path) (records svc) = None ->
  Store.keysWithPrefix (path +++ "/") (records svc) = [] ->
  fst (MkdirRoute.POST path now svc) = mkResponse 201 SuccessJson
  /\ fst (DeleteRoute.DELETE path (snd (MkdirRoute.POST path now svc)))
     = Some (mkResponse 200 SuccessJson)
  /\ records (snd (DeleteRoute.DELETE path (snd (MkdirRoute.POST path now svc))))
     = records svc.
Proof.
  intros P R T F L Empty.
  destruct (mkdir_accepted path now svc P R T F L) as (svc1 & E & F1 & R1 & _).
  rewrite E. cbn [fst snd]. split; [reflexivity|].
  assert (L1 : Store.lookup (metadataKeyOf path) (records svc1)
               = Some (Json (mkMetadata DEFAULT_DIR_MODE 1000 1000 0 now now now None)))
    by (rewrite R1; apply lookup_put_same).
  rewrite (DELETE_directory path svc1 _ P R L1 eq_refl (F1 _)).
  destruct (deleteDirectory_empty path
              (received (GetRecord (metadataKeyOf path)) (records svc1) svc1) T F1)
    as (svc2 & E2 & _ & R2).
  - cbn [records received]. rewrite R1. unfold Store.keysWithPrefix in *.
    rewrite keys_put, L, filter_app, Empty. cbn [app filter].
    unfold JsString.startsWith, metadataKeyOf, METADATA_SUFFIX.
    now rewrite prefix_with_slash.
  - rewrite E2. cbn [fst snd]. split; [reflexivity|].
    rewrite R2. cbn [records received]. rewrite R1. now apply remove_put_absent.
Qed.

Lemma mkdir_then_delete_restores_witness :
  fst (MkdirRoute.POST "/new" 7 fileService) = mkResponse 201 SuccessJson
  /\ fst (DeleteRoute.DELETE "/new" (snd (MkdirRoute.POST "/new" 7 fileService)))
     = Some (mkResponse 200 SuccessJson)
  /\ records (snd (DeleteRoute.DELETE "/new" (snd (MkdirRoute.POST "/new" 7 fileService))))
     = records fileService.
Proof.
  apply (mkdir_then_delete_restores "/new" 7 fileService); try reflexivity;
    try discriminate.
  intros c. reflexivity.
Defined.



(** ** Routes that only read *)

Lemma read_getMetadata_state path svc :
  snd (ReadRoute.getMetadata path svc)
  = snd (callHpkVApi (GetRecord (metadataKeyOf path)) svc).
Proof.
  unfold ReadRoute.getMetadata. fold (metadataKeyOf path).
  destruct (callHpkVApi _ svc) as [r svc1]. cbn [snd].
  destruct (api_error r); [reflexivity|].
  now destruct (api_data r) as [[[[|]|]| |]|].
Qed.

Lemma read_getChunk_state path i svc :
  snd (ReadRoute.getChunk path i svc)
  = snd (callHpkVApi (GetRecord (chunkKeyOf path i)) svc).
Proof.
  unfold ReadRoute.getChunk. fold (chunkKeyOf path i).
  destruct (callHpkVApi _ svc) as [r svc1]. cbn [snd]. now destruct (api_error r).
Qed.

Lemma readChunks_records count path offset readSize numChunks :
  forall i combinedData bytesRead svc,
  records (snd (ReadRoute.readChunks count path offset readSize numChunks i
                  combinedData bytesRead svc))
  = records svc.
Proof.
  induction count as [|count IH]; intros i combinedData bytesRead svc; [reflexivity|].
  cbn [ReadRoute.readChunks].
  destruct (negb (i <? numChunks)); [reflexivity|].
  pose proof (read_getChunk_state path i svc) as G.
  destruct (ReadRoute.getChunk path i svc) as [g svc1]. cbn [snd] in G.
  assert (R1 : records svc1 = records svc) by (rewrite G; now apply call_read_records).
  destruct (match cr_error g with
            | Some chunkError =>
                if negb (cr_status g =? 404)
                then Some (mkResponse (cr_status g) (ErrorJson chunkError))
                else None
            | None => None
            end); [exact R1|].
  destruct (readSize <=? _); [exact R1|]. now rewrite IH.
Qed.

(** X15: the routes that read change nothing.  Whatever the service
    answers, a read, a listing and a metadata request leave every record of
    the store as it was. *)
Theorem reading_changes_nothing path offset len svc :
  records (snd (ReadRoute.GET path offset len svc)) = records svc
  /\ records (snd (ListRoute.GET path svc)) = records svc
  /\ records (snd (MetadataRoute.GET path svc)) = records svc.
Proof.
  split; [|split].
  - unfold ReadRoute.GET.
    destruct (negb (JsString.truthy path)); [reflexivity|].
    destruct (_ || _); [reflexivity|].
    destruct (len =? 0); [reflexivity|].
    pose proof (read_getMetadata_state path svc) as G.
    destruct (ReadRoute.getMetadata path svc) as [mr svc1]. cbn [snd] in G.
    assert (R1 : records svc1 = records svc) by (rewrite G; now apply call_read_records).
    destruct (mr_error mr); [exact R1|].
    destruct (mr_metadata mr) as [metadata|]; [|exact R1].
    destruct (isDirectoryMode (mode metadata)); [exact R1|].
    destruct (size metadata <=? offset); [exact R1|].
    destruct (_ <=? 0); [exact R1|].
    match goal with |- context [ReadRoute.readChunks ?n ?p ?o ?r ?c ?i ?d ?b ?s] =>
      pose proof (readChunks_records n p o r c i d b s) as L;
      destruct (ReadRoute.readChunks n p o r c i d b s) as [[response|data] svc2]
    end; cbn [snd] in *; now rewrite L.
  - unfold ListRoute.GET.
    destruct (negb (JsString.truthy path)); [reflexivity|].
    match goal with |- context [callHpkVApi ?c svc] =>
      pose proof (call_read_records c svc I) as L; destruct (callHpkVApi c svc) as [r svc1]
    end. cbn [snd] in L.
    destruct (api_error r); [exact L|].
    now destruct (api_data r) as [[| |]|].
  - unfold MetadataRoute.GET.
    destruct (negb (JsString.truthy path)); [reflexivity|].
    match goal with |- context [callHpkVApi ?c svc] =>
      pose proof (call_read_records c svc I) as L; destruct (callHpkVApi c svc) as [r svc1]
    end. cbn [snd] in L.
    destruct (api_error r); [exact L|].
    now destruct (api_data r) as [[[[|]|]| |]|].
Qed.

(** ** The metadata route after a write and after mkdir *)

Lemma metadata_GET_found path svc m :
  path <> EmptyString ->
  Store.lookup (metadataKeyOf path) (records svc) = Some (Json m) ->
  fault svc (GetRecord (metadataKeyOf path)) = None ->
  fst (MetadataRoute.GET path svc)
  = MetadataRoute.mkMetadataResponse 200 (MetadataRoute.MetadataObject m).
Proof.
  intros P L F. unfold MetadataRoute.GET. rewrite (truthy_nonempty _ P). cbn [negb].
  assert (K : (if String.eqb path "/" then "/.__meta__" else path +++ METADATA_SUFFIX)
              = metadataKeyOf path).
  { destruct (String.eqb_spec path "/") as [->|]; reflexivity. }
  rewrite K. now rewrite (call_get_found _ _ _ F L).
Qed.

(** X16: the size a write leaves.  After a write that succeeds (to a
    regular file or to a path with no metadata, in a store that answers the
    requests) the metadata route returns a record of a regular file whose
    size is the larger of the size recorded before and the end of the
    write, with [num_chunks = ceil(size / MAX_CHUNK_SIZE)]: a write extends
    a file and never truncates it. *)
Theorem stat_after_write path offset body now svc :
  path <> EmptyString -> 0 <= offset -> faultless svc ->
  Base64.decode body <> [] ->
  (Store.lookup (metadataKeyOf path) (records svc) = None
   \/ exists m, Store.lookup (metadataKeyOf path) (records svc) = Some (Json m)
                /\ isDirectoryMode (mode m) = false) ->
  exists md,
    fst (MetadataRoute.GET path (snd (WriteRoute.POST path offset body now svc)))
    = MetadataRoute.mkMetadataResponse 200 (MetadataRoute.MetadataObject md)
    /\ isDirectoryMode (mode md) = false
    /\ size md = Z.max (storedSize (records svc) path)
                   (offset + Buf.length (Base64.decode body))
    /\ num_chunks md = Some (ceil_div (size md) MAX_CHUNK_SIZE).
Proof.
  intros P O F Dne M.
  destruct (POST_accepted path offset body now svc P O F Dne M)
    as (svc' & E & F' & _ & _ & md & Lm & Dir & Sz & Nc).
  rewrite E. cbn [snd]. exists md.
  rewrite (metadata_GET_found path svc' md P Lm (F' _)). now repeat split.
Qed.

Lemma stat_after_write_witness :
  exists md,
    fst (MetadataRoute.GET "/f" (snd (WriteRoute.POST "/f" 1 "WFk=" 5 smallFileService)))
    = MetadataRoute.mkMetadataResponse 200 (MetadataRoute.MetadataObject md)
    /\ isDirectoryMode (mode md) = false
    /\ size md = Z.max (storedSize (records smallFileService) "/f")
                   (1 + Buf.length (Base64.decode "WFk="))
    /\ num_chunks md = Some (ceil_div (size md) MAX_CHUNK_SIZE).
Proof.
  apply (stat_after_write "/f" 1 "WFk=" 5 smallFileService).
  - discriminate.
  - lia.
  - intros c. reflexivity.
  - discriminate.
  - right. eexists. split; reflexivity.
Defined.

(** X17: what mkdir creates.  After mkdir of a path the route admits that
    had no record, in a store that answers the requests, the metadata route
    returns the record of a directory: the default directory mode, size 0,
    the three times at the clock of the request, and no [num_chunks]. *)
Theorem stat_after_mkdir path now svc :
  path <> EmptyString -> path <> "/" -> JsString.endsWith path "/" = false ->
  faultless svc ->
  Store.lookup (metadataKeyOf path) (records svc) = None ->
  fst (MetadataRoute.GET path (snd (MkdirRoute.POST path now svc)))
  = MetadataRoute.mkMetadataResponse 200
      (MetadataRoute.MetadataObject
         (mkMetadata DEFAULT_DIR_MODE 1000 1000 0 now now now None))
  /\ isDirectoryMode DEFAULT_DIR_MODE = true.
Proof.
  intros P R T F L.
  destruct (mkdir_accepted path now svc P R T F L) as (svc' & E & F' & Rs & _).
  rewrite E. cbn [snd]. split; [|reflexivity].
  apply metadata_GET_found; [exact P | | apply F'].
  rewrite Rs. apply lookup_put_same.
Qed.

Lemma stat_after_mkdir_witness :
  fst (MetadataRoute.GET "/new" (snd (MkdirRoute.POST "/new" 7 fileService)))
  = MetadataRoute.mkMetadataResponse 200
      (MetadataRoute.MetadataObject
         (mkMetadata DEFAULT_DIR_MODE 1000 1000 0 7 7 7 None))
  /\ isDirectoryMode DEFAULT_DIR_MODE = true.
Proof.
  apply (stat_after_mkdir "/new" 7 fileService); try reflexivity; try discriminate.
  intros c. reflexivity.
Defined.

(** ** Listings *)

Lemma truthy_true (s : string) : JsString.truthy s = true -> s <> EmptyString.
Proof. now destruct s. Qed.

Lemma split_head_without c s :
  match JsString.split c s with
  | p :: _ => JsString.includesChar c p = false
  | [] => True
  end.
Proof.
  induction s as [|a r IH]; cbn; [reflexivity|].
  destruct (Ascii.eqb a c) eqn:E; [reflexivity|].
  destruct (JsString.split c r) as [|p ps]; cbn; now rewrite E.
Qed.

(** One turn of the loop adds at most one entry, and only one whose name is
    a path component. *)
Lemma processItem_adds prefix entries seen key :
  fst (ListRoute.processItem prefix (entries, seen) key) = entries
  \/ exists e,
       fst (ListRoute.processItem prefix (entries, seen) key) = entries ++ [e]
       /\ componentName (name e).
Proof.
  unfold ListRoute.processItem.
  destruct (_ && _); [now left|].
  destruct (String.eqb key _); [now left|].
  destruct (JsString.endsWith key METADATA_SUFFIX).
  - destruct (JsString.startsWith _ prefix); [|now left].
    match goal with |- context [JsString.truthy ?n && _] => set (nm := n) end.
    destruct (JsString.truthy nm) eqn:T; [|now left].
    destruct (JsString.includesChar "/" nm) eqn:S; [now left|].
    right. eexists. split; [reflexivity|]. split; [now apply truthy_true | exact S].
  - destruct (JsString.startsWith key prefix); [|now left].
    pose proof (split_head_without "/" (JsString.substringFrom (String.length prefix) key))
      as H.
    destruct (JsString.split "/" _) as [|dirName [|p ps]]; [now left | now left|].
    destruct (JsString.truthy dirName) eqn:T; [|now left].
    destruct (negb (ListRoute.setHas seen dirName)); [|now left].
    right. eexists. split; [reflexivity|]. split; [now apply truthy_true | exact H].
Qed.

Lemma processItems_entries prefix items :
  forall entries seen,
  Forall (fun e => componentName (name e)) entries ->
  Forall (fun e => componentName (name e))
    (fst (fold_left (ListRoute.processItem prefix) items (entries, seen)))
  /\ (List.length (fst (fold_left (ListRoute.processItem prefix) items (entries, seen)))
      <= List.length entries + List.length items)%nat.
Proof.
  induction items as [|key items IH]; intros entries seen G; cbn [fold_left].
  - split; [exact G | cbn; lia].
  - destruct (processItem_adds prefix entries seen key) as [E|(e & E & C)];
      destruct (ListRoute.processItem prefix (entries, seen) key) as [entries' seen'];
      cbn [fst] in E; subst entries'.
    + destruct (IH entries seen' G) as [A B]. split; [exact A | cbn; lia].
    + destruct (IH (entries ++ [e]) seen') as [A B].
      * apply Forall_app. split; [exact G | now constructor].
      * split; [exact A|]. rewrite length_app in B. cbn in *. lia.
Qed.

Lemma mapSet_keys m k v :
  map fst (ListRoute.mapSet m k v)
  = if existsb (String.eqb k) (map fst m) then map fst m else map fst m ++ [k].
Proof.
  induction m as [|[k' v'] m IH]; cbn; [reflexivity|].
  destruct (String.eqb_spec k k') as [->|E]; cbn; [reflexivity|].
  rewrite IH. now destruct (existsb (String.eqb k) (map fst m)).
Qed.

Lemma mapSet_values (P : string -> Entry -> Prop) m k v :
  Forall (fun kv => P (fst kv) (snd kv)) m -> P k v ->
  Forall (fun kv => P (fst kv) (snd kv)) (ListRoute.mapSet m k v).
Proof.
  intros H Pv. induction H as [|[k' v'] m H0 H IH]; cbn.
  - now repeat constructor.
  - destruct (String.eqb k k'); constructor; auto.
Qed.

Lemma existsb_eqb_In k l : existsb (String.eqb k) l = true <-> In k l.
Proof.
  rewrite existsb_exists. split.
  - intros (x & I & E). apply String.eqb_eq in E. now subst.
  - intros I. exists k. split; [exact I | apply String.eqb_refl].
Qed.

(** The map the duplicates are removed with: its keys are distinct, each
    value is one of the entries and sits under its own name. *)
Lemma uniqueEntries_map (P : Entry -> Prop) entries :
  forall m,
  NoDup (map fst m) ->
  Forall (fun kv => fst kv = name (snd kv) /\ P (snd kv)) m ->
  Forall P entries ->
  let m' := fold_left (fun m e => ListRoute.mapSet m (name e) e) entries m in
  NoDup (map fst m')
  /\ Forall (fun kv => fst kv = name (snd kv) /\ P (snd kv)) m'
  /\ (List.length m' <= List.length m + List.length entries)%nat.
Proof.
  induction entries as [|e entries IH]; intros m N V G; cbn [fold_left].
  - split; [exact N|]. split; [exact V | cbn; lia].
  - inversion G as [|? ? Pe G']; subst.
    destruct (IH (ListRoute.mapSet m (name e) e)) as (A & B & C).
    + rewrite mapSet_keys.
      destruct (existsb (String.eqb (name e)) (map fst m)) eqn:E; [exact N|].
      apply NoDup_app; [exact N | repeat constructor; intros [] | ].
      * intros x I [<-|[]]. apply existsb_eqb_In in I. congruence.
    + apply (mapSet_values (fun k v => k = name v /\ P v)); [exact V | now split].
    + exact G'.
    + split; [exact A|]. split; [exact B|].
      assert (L : (List.length (ListRoute.mapSet m (name e) e) <= S (List.length m))%nat).
      { rewrite <- (length_map fst), mapSet_keys.
        destruct (existsb _ _); rewrite ?length_app, !length_map; cbn; lia. }
      cbn. lia.
Qed.

Lemma uniqueEntries_spec (P : Entry -> Prop) entries :
  Forall P entries ->
  NoDup (map name (ListRoute.uniqueEntries entries))
  /\ Forall P (ListRoute.uniqueEntries entries)
  /\ (List.length (ListRoute.uniqueEntries entries) <= List.length entries)%nat.
Proof.
  intros G. unfold ListRoute.uniqueEntries.
  destruct (uniqueEntries_map P entries [] (NoDup_nil _) (Forall_nil _) G) as (A & B & C).
  set (m := fold_left _ entries []) in *. cbn in C.
  assert (E : map name (map snd m) = map fst m).
  { rewrite map_map. apply map_ext_Forall. eapply Forall_impl; [|exact B].
    intros kv [H _]. now rewrite H. }
  rewrite E, length_map. split; [exact A|]. split; [|exact C].
  apply Forall_map. eapply Forall_impl; [|exact B]. now intros kv [_ H].
Qed.

Lemma entriesOf_spec prefix items :
  NoDup (map name (ListRoute.entriesOf prefix items))
  /\ Forall (fun e => componentName (name e)) (ListRoute.entriesOf prefix items)
  /\ (List.length (ListRoute.entriesOf prefix items) <= List.length items)%nat.
Proof.
  unfold ListRoute.entriesOf.
  destruct (processItems_entries prefix items [] [] (Forall_nil _)) as [G L].
  destruct (uniqueEntries_spec (fun e => componentName (name e)) _ G) as (A & B & C).
  split; [exact A|]. split; [exact B|]. cbn in L. lia.
Qed.

(** X18: what a listing can hold.  Whatever the store holds and answers,
    the entries of a listing have distinct names, each name is one path
    component (not empty, without a slash), and there are at most as many
    entries as one page of the store has keys: the route asks for one page
    and does not follow the marker. *)
Theorem listing_entries_are_components path svc status es :
  fst (ListRoute.GET path svc) = mkResponse status (Entries es) ->
  NoDup (map name es)
  /\ Forall (fun e => componentName (name e)) es
  /\ (List.length es <= pageSize svc)%nat.
Proof.
  unfold ListRoute.GET.
  destruct (negb (JsString.truthy path)); [discriminate|].
  match goal with |- context [ListRoute.entriesOf ?p] => set (prefix := p) end.
  clearbody prefix. unfold callHpkVApi.
  destruct (fault svc (ListKeys prefix (Some "/") None)) as [f|].
  - destruct f; discriminate.
  - cbn [serve api_error api_data fst].
    intros [= _ <-].
    destruct (entriesOf_spec prefix
                (firstn (pageSize svc)
                   (skipn (markerPosition None) (listed svc prefix (Some "/")))))
      as (A & B & C).
    split; [exact A|]. split; [exact B|].
    eapply Nat.le_trans; [exact C|]. rewrite length_firstn. lia.
Qed.

Lemma listing_entries_are_components_witness :
  NoDup (map name [mkEntry "x" false])
  /\ Forall (fun e => componentName (name e)) [mkEntry "x" false]
  /\ (List.length [mkEntry "x" false] <= pageSize listingService)%nat.
Proof.
  apply (listing_entries_are_components "/a" listingService 200 [mkEntry "x" false]).
  reflexivity.
Defined.

(** *** The children of a directory *)

Lemma length_append (a b : string) :
  String.length (a +++ b) = (String.length a + String.length b)%nat.
Proof. induction a as [|c a IH]; cbn; [reflexivity | now rewrite IH]. Qed.

Lemma substring_skip (p s : string) n :
  String.substring (String.length p) n (p +++ s) = String.substring 0 n s.
Proof. induction p as [|c p IH]; cbn; [reflexivity | exact IH]. Qed.

Lemma substring_whole (s : string) : String.substring 0 (String.length s) s = s.
Proof. induction s as [|c s IH]; cbn; [reflexivity | now rewrite IH]. Qed.

Lemma substring_head (a b : string) : String.substring 0 (String.length a) (a +++ b) = a.
Proof.
  induction a as [|c a IH]; cbn; [now destruct b | now rewrite IH].
Qed.

Lemma endsWith_append (a suf : string) : JsString.endsWith (a +++ suf) suf = true.
Proof.
  unfold JsString.endsWith. rewrite length_append.
  replace (String.length a + String.length suf - String.length suf)%nat
    with (String.length a) by lia.
  rewrite substring_skip, substring_whole, String.eqb_refl, andb_true_r.
  apply Nat.leb_le. lia.
Qed.

Lemma substringFrom_append (p s : string) :
  JsString.substringFrom (String.length p) (p +++ s) = s.
Proof.
  unfold JsString.substringFrom. rewrite length_append.
  replace (String.length p + String.length s - String.length p)%nat
    with (String.length s) by lia.
  rewrite substring_skip. apply substring_whole.
Qed.

Lemma dropLast_slash (P : string) : JsString.dropLast (P +++ "/") = P.
Proof.
  unfold JsString.dropLast. rewrite length_append. cbn [String.length].
  replace (String.length P + 1 - 1)%nat with (String.length P) by lia.
  apply substring_head.
Qed.

Lemma endsWith_slash (s : string) :
  JsString.endsWith s "/" = true -> exists P, s = P +++ "/".
Proof.
  unfold JsString.endsWith. cbn [String.length].
  induction s as [|c r IH]; [discriminate|].
  destruct r as [|c' r'].
  - cbn. destruct (Ascii.eqb_spec c "/"%char) as [->|]; [|discriminate].
    intros _. now exists EmptyString.
  - intros H. destruct IH as (P & E).
    + apply andb_true_iff in H. destruct H as [_ H].
      apply andb_true_iff. split; [reflexivity|].
      cbn [String.length Nat.sub String.substring] in *.
      rewrite ?Nat.sub_0_r in *. exact H.
    + exists (String c P). cbn. now rewrite <- E.
Qed.

Lemma listPrefix_slash (path : string) :
  path <> EmptyString -> exists P, listPrefix path = P +++ "/".
Proof.
  intros N. unfold listPrefix.
  destruct (String.eqb path "/"); [now exists EmptyString|].
  destruct (JsString.endsWith path "/") eqn:E; [now apply endsWith_slash|].
  now exists path.
Qed.

Lemma includesChar_append c (a b : string) :
  JsString.includesChar c (a +++ b)
  = JsString.includesChar c a || JsString.includesChar c b.
Proof.
  induction a as [|x a IH]; cbn; [reflexivity|]. now rewrite IH, orb_assoc.
Qed.

Lemma upToDelimiter_none d (s : string) :
  JsString.includesChar d s = false -> Store.upToDelimiter d s = None.
Proof.
  induction s as [|a r IH]; cbn; [reflexivity|].
  destruct (Ascii.eqb a d); [discriminate|]. cbn. intros H. now rewrite IH.
Qed.

(** The loop on the metadata key of a direct child: the child is entered. *)
Lemma processItem_child P n entries seen :
  componentName n ->
  ListRoute.processItem (P +++ "/") (entries, seen) ((P +++ "/") +++ n +++ METADATA_SUFFIX)
  = (entries ++ [mkEntry n false], seen).
Proof.
  intros [Ne Ns]. unfold ListRoute.processItem.
  assert (E1 : String.eqb (P +++ "/") "/"
               && String.eqb ((P +++ "/") +++ n +++ METADATA_SUFFIX) "/.__meta__" = false).
  { apply andb_false_iff. right. apply String.eqb_neq. intros H.
    apply (f_equal String.length) in H. rewrite !length_append in H.
    cbn [String.length METADATA_SUFFIX] in H.
    destruct n; [congruence | cbn in H; lia]. }
  rewrite E1.
  assert (E2 : String.eqb ((P +++ "/") +++ n +++ METADATA_SUFFIX)
                 (JsString.dropLast (P +++ "/") +++ METADATA_SUFFIX) = false).
  { apply String.eqb_neq. rewrite dropLast_slash, append_assoc. intros H.
    apply append_inj_l in H. discriminate. }
  rewrite E2.
  rewrite <- (append_assoc (P +++ "/") n METADATA_SUFFIX).
  rewrite endsWith_append, length_append.
  replace (String.length ((P +++ "/") +++ n) + String.length METADATA_SUFFIX
           - String.length METADATA_SUFFIX)%nat
    with (String.length ((P +++ "/") +++ n)) by lia.
  rewrite substring_head. unfold JsString.startsWith.
  rewrite prefix_append, substringFrom_append, (truthy_nonempty _ Ne), Ns.
  reflexivity.
Qed.

Lemma processItems_keep prefix items :
  forall entries seen e,
  In e entries -> In e (fst (fold_left (ListRoute.processItem prefix) items (entries, seen))).
Proof.
  induction items as [|key items IH]; intros entries seen e I; [exact I|].
  cbn [fold_left].
  destruct (processItem_adds prefix entries seen key) as [E|(e' & E & _)];
    destruct (ListRoute.processItem prefix (entries, seen) key) as [entries' seen'];
    cbn [fst] in E; subst entries'; apply IH; [exact I|].
  apply in_or_app. now left.
Qed.

Lemma processItems_child P n items :
  componentName n -> In ((P +++ "/") +++ n +++ METADATA_SUFFIX) items ->
  forall entries seen,
  In (mkEntry n false)
    (fst (fold_left (ListRoute.processItem (P +++ "/")) items (entries, seen))).
Proof.
  intros C. induction items as [|key items IH]; intros [] entries seen.
  - subst key. cbn [fold_left]. rewrite (processItem_child P n entries seen C).
    apply processItems_keep. apply in_or_app. right. now left.
  - cbn [fold_left].
    destruct (ListRoute.processItem (P +++ "/") (entries, seen) key) as [entries' seen'].
    now apply IH.
Qed.

Lemma mapSet_has_key m k v : In k (map fst (ListRoute.mapSet m k v)).
Proof.
  rewrite mapSet_keys. destruct (existsb (String.eqb k) (map fst m)) eqn:E.
  - now apply existsb_eqb_In.
  - apply in_or_app. right. now left.
Qed.

Lemma mapSet_keeps_keys m k v x : In x (map fst m) -> In x (map fst (ListRoute.mapSet m k v)).
Proof.
  intros I. rewrite mapSet_keys. destruct (existsb _ _); [exact I|].
  apply in_or_app. now left.
Qed.

Lemma uniqueEntries_keys entries :
  forall m x,
  In x (map fst m) \/ In x (map name entries) ->
  In x (map fst (fold_left (fun m e => ListRoute.mapSet m (name e) e) entries m)).
Proof.
  induction entries as [|e entries IH]; intros m x H; cbn [fold_left].
  - destruct H as [H|[]]. exact H.
  - apply IH. destruct H as [H|[<-|H]].
    + left. now apply mapSet_keeps_keys.
    + left. apply mapSet_has_key.
    + now right.
Qed.

(** No name is lost when the duplicates are removed. *)
Lemma uniqueEntries_names entries e :
  In e entries ->
  exists e', In e' (ListRoute.uniqueEntries entries) /\ name e' = name e.
Proof.
  intros I.
  assert (G : Forall (fun _ : Entry => True) entries) by (apply Forall_forall; auto).
  destruct (uniqueEntries_map (fun _ => True) entries [] (NoDup_nil _) (Forall_nil _) G)
    as (_ & B & _).
  pose proof (uniqueEntries_keys entries [] (name e)
                (or_intror (in_map name _ _ I))) as K.
  unfold ListRoute.uniqueEntries.
  set (m := fold_left _ entries []) in *.
  apply in_map_iff in K. destruct K as ([k v] & E & Ikv). cbn in E. subst k.
  exists v. split; [apply in_map_iff; now exists (name e, v)|].
  rewrite Forall_forall in B. destruct (B _ Ikv) as [H _]. cbn in H. now rewrite <- H.
Qed.

(** The listing is complete for the children that have a metadata record. *)
Lemma listing_complete path n svc :
  path <> EmptyString -> componentName n ->
  fault svc (ListKeys (listPrefix path) (Some "/") None) = None ->
  (List.length (records svc) <= pageLimit svc)%nat ->
  Store.lookup (listPrefix path +++ n +++ METADATA_SUFFIX) (records svc) <> None ->
  exists es,
    fst (ListRoute.GET path svc) = mkResponse 200 (Entries es)
    /\ exists e, In e es /\ name e = n.
Proof.
  intros Pn C F Page L.
  destruct (listPrefix_slash path Pn) as (P & EP).
  unfold ListRoute.GET. rewrite (truthy_nonempty _ Pn). cbn [negb].
  fold (listPrefix path). rewrite EP in *.
  unfold callHpkVApi. rewrite F. cbn [serve api_error api_data fst markerPosition skipn].
  eexists. split; [reflexivity|].
  set (key := (P +++ "/") +++ n +++ METADATA_SUFFIX) in *.
  assert (K : In key (Store.keysWithPrefix (P +++ "/") (records svc))).
  { apply keysWithPrefix_In. split; [|exact L].
    unfold JsString.startsWith, key. apply prefix_append. }
  assert (Items : In key (firstn (pageSize svc) (listed svc (P +++ "/") (Some "/")))).
  { rewrite firstn_all2.
    - unfold listed. destruct (groupsByDelimiter svc); [|exact K].
      apply in_map_iff. exists key. split; [|exact K].
      unfold Store.grouped, key. rewrite substringFrom_append.
      rewrite upToDelimiter_none; [reflexivity|].
      rewrite includesChar_append. destruct C as [_ ->]. reflexivity.
    - unfold pageSize.
      assert (Len : (List.length (listed svc (P +++ "/") (Some "/"))
                     <= List.length (records svc))%nat).
      { unfold listed, Store.keysWithPrefix, Store.keys.
        pose proof (filter_length_le (fun k => JsString.startsWith k (P +++ "/"))
                      (map fst (records svc))) as H.
        rewrite length_map in H. destruct (groupsByDelimiter svc);
          rewrite ?length_map; exact H. }
      lia. }
  unfold ListRoute.entriesOf.
  pose proof (processItems_child P n _ C Items [] []) as In1.
  destruct (uniqueEntries_names _ _ In1) as (e' & I' & N'). now exists e'.
Qed.

(** X19: a listing shows every child that has a metadata record.  If the
    store answers the list request and has no more keys than one page
    holds, then for every name that is one path component under the listed
    directory and has a metadata record, the listing has an entry with that
    name. *)
Theorem children_with_records_are_listed path n svc :
  path <> EmptyString -> componentName n ->
  fault svc (ListKeys (listPrefix path) (Some "/") None) = None ->
  (List.length (records svc) <= pageLimit svc)%nat ->
  Store.lookup (listPrefix path +++ n +++ METADATA_SUFFIX) (records svc) <> None ->
  exists es,
    fst (ListRoute.GET path svc) = mkResponse 200 (Entries es)
    /\ exists e, In e es /\ name e = n.
Proof. exact (listing_complete path n svc). Qed.

Lemma children_with_records_are_listed_witness :
  exists es,
    fst (ListRoute.GET "/a" listingService) = mkResponse 200 (Entries es)
    /\ exists e, In e es /\ name e = "x".
Proof.
  apply (children_with_records_are_listed "/a" "x" listingService).
  - discriminate.
  - split; [discriminate | reflexivity].
  - reflexivity.
  - cbn. lia.
  - discriminate.
Defined.

(** *** Where the entries of a listing come from *)

Lemma prefix_split (p s : string) : String.prefix p s = true -> exists r, s = p +++ r.
Proof.
  revert s. induction p as [|c p IH]; intros s H; [now exists s|].
  destruct s as [|c' s]; [discriminate|]. cbn in H.
  destruct (ascii_dec c c') as [->|]; [|discriminate].
  destruct (IH s H) as (r & ->). now exists r.
Qed.

Lemma prefix_extends (p a b : string) :
  String.prefix p a = true -> String.prefix p (a +++ b) = true.
Proof.
  intros H. destruct (prefix_split p a H) as (r & ->).
  rewrite append_assoc. apply prefix_append.
Qed.

Lemma substring_split (n : nat) (s : string) :
  (n <= String.length s)%nat ->
  s = String.substring 0 n s +++ String.substring n (String.length s - n) s.
Proof.
  revert s. induction n as [|n IH]; intros s H.
  - rewrite Nat.sub_0_r, substring_whole. now destruct s.
  - destruct s as [|c s]; [cbn in H; lia|]. cbn [String.length] in *.
    cbn [String.substring Nat.sub String.append]. f_equal. apply IH. lia.
Qed.

Lemma endsWith_split (s suf : string) :
  JsString.endsWith s suf = true ->
  s = String.substring 0 (String.length s - String.length suf) s +++ suf.
Proof.
  unfold JsString.endsWith. intros H. apply andb_true_iff in H. destruct H as [L E].
  apply Nat.leb_le in L. apply String.eqb_eq in E.
  rewrite (substring_split (String.length s - String.length suf) s) at 1 by lia.
  replace (String.length s - (String.length s - String.length suf))%nat
    with (String.length suf) by lia.
  now rewrite E.
Qed.

Lemma split_two c (s : string) :
  forall p q r, JsString.split c s = p :: q :: r -> exists rest, s = p +++ String c rest.
Proof.
  induction s as [|a t IH]; intros p q r; cbn; [discriminate|].
  destruct (Ascii.eqb_spec a c) as [->|N].
  - intros [= <- _]. now exists t.
  - destruct (JsString.split c t) as [|p' ps]; [discriminate|].
    intros [= <- ->]. destruct (IH p' q r eq_refl) as (rest & ->). now exists rest.
Qed.

Lemma upToDelimiter_some d (s g : string) :
  Store.upToDelimiter d s = Some g ->
  exists a rest, g = a +++ String d EmptyString /\ s = g +++ rest.
Proof.
  revert g. induction s as [|x t IH]; intros g; cbn; [discriminate|].
  destruct (Ascii.eqb_spec x d) as [->|N].
  - intros [= <-]. now exists EmptyString, t.
  - destruct (Store.upToDelimiter d t) as [g'|]; [|discriminate].
    intros [= <-]. destruct (IH g' eq_refl) as (a & rest & -> & ->).
    now exists (String x a), rest.
Qed.

(** What an entry stands for among the items of the page: a file entry
    for the metadata key of a direct child, a directory entry for an item
    under the name. *)
Lemma processItem_source prefix entries seen key :
  fst (ListRoute.processItem prefix (entries, seen) key) = entries
  \/ exists e,
       fst (ListRoute.processItem prefix (entries, seen) key) = entries ++ [e]
       /\ (if isDir e
           then JsString.startsWith key (prefix +++ name e +++ "/") = true
           else key = prefix +++ name e +++ METADATA_SUFFIX
                /\ JsString.includesChar "/" (name e) = false).
Proof.
  unfold ListRoute.processItem.
  destruct (_ && _); [now left|].
  destruct (String.eqb key _); [now left|].
  destruct (JsString.endsWith key METADATA_SUFFIX) eqn:EW.
  - apply endsWith_split in EW.
    set (fullPath := String.substring 0 _ key) in *.
    destruct (JsString.startsWith fullPath prefix) eqn:S; [|now left].
    destruct (prefix_split _ _ S) as (r & Er). rewrite Er, substringFrom_append.
    destruct (JsString.truthy r); [|now left].
    destruct (JsString.includesChar "/" r) eqn:Sl; [now left|].
    right. eexists. split; [reflexivity|]. cbn [isDir name]. split; [|exact Sl].
    rewrite EW, Er. apply append_assoc.
  - destruct (JsString.startsWith key prefix) eqn:S; [|now left].
    destruct (prefix_split _ _ S) as (r & Er).
    assert (Rel : JsString.substringFrom (String.length prefix) key = r)
      by (rewrite Er; apply substringFrom_append).
    rewrite Rel.
    pose proof (split_two "/" r) as T.
    destruct (JsString.split "/" r) as [|dirName [|p ps]]; [now left | now left|].
    destruct (T dirName p ps eq_refl) as (rest & Erest).
    destruct (JsString.truthy dirName); [|now left].
    destruct (negb (ListRoute.setHas seen dirName)); [|now left].
    right. eexists. split; [reflexivity|]. cbn [isDir name].
    rewrite Er, Erest. unfold JsString.startsWith.
    replace (prefix +++ dirName +++ String "/" rest)
      with ((prefix +++ dirName +++ "/") +++ rest).
    + apply prefix_append.
    + now rewrite !append_assoc.
Qed.

Lemma processItems_source prefix (Q : Entry -> Prop) items :
  (forall key e, In key items ->
     (if isDir e
      then JsString.startsWith key (prefix +++ name e +++ "/") = true
      else key = prefix +++ name e +++ METADATA_SUFFIX
           /\ JsString.includesChar "/" (name e) = false) -> Q e) ->
  forall entries seen,
  Forall Q entries ->
  Forall Q (fst (fold_left (ListRoute.processItem prefix) items (entries, seen))).
Proof.
  induction items as [|key items IH]; intros H entries seen G; [exact G|].
  cbn [fold_left].
  destruct (processItem_source prefix entries seen key) as [E|(e & E & C)];
    destruct (ListRoute.processItem prefix (entries, seen) key) as [entries' seen'];
    cbn [fst] in E; subst entries'.
  - apply IH; [|exact G]. intros k e I. apply H. now right.
  - apply IH.
    + intros k e' I. apply H. now right.
    + apply Forall_app. split; [exact G|]. constructor; [|constructor].
      apply (H key e); [now left | exact C].
Qed.

Lemma in_firstn {A} (x : A) n l : In x (firstn n l) -> In x l.
Proof.
  intros H. rewrite <- (firstn_skipn n l). apply in_or_app. now left.
Qed.

(** The listing is sound: each entry stands for records of the store. *)
Lemma listing_sound path svc status es e :
  fst (ListRoute.GET path svc) = mkResponse status (Entries es) -> In e es ->
  if isDir e
  then exists k v,
         Store.lookup k (records svc) = Some v
         /\ JsString.startsWith k (listPrefix path +++ name e +++ "/") = true
  else exists v,
         Store.lookup (listPrefix path +++ name e +++ METADATA_SUFFIX) (records svc)
         = Some v.
Proof.
  unfold ListRoute.GET.
  destruct (negb (JsString.truthy path)); [discriminate|].
  fold (listPrefix path). set (prefix := listPrefix path). clearbody prefix.
  unfold callHpkVApi.
  destruct (fault svc (ListKeys prefix (Some "/") None)) as [f|];
    [destruct f; discriminate|].
  cbn [serve api_error api_data fst]. intros [= _ <-].
  set (Q := fun e : Entry =>
              if isDir e
              then exists k v,
                     Store.lookup k (records svc) = Some v
                     /\ JsString.startsWith k (prefix +++ name e +++ "/") = true
              else exists v,
                     Store.lookup (prefix +++ name e +++ METADATA_SUFFIX) (records svc)
                     = Some v).
  unfold ListRoute.entriesOf.
  match goal with |- In e (ListRoute.uniqueEntries (fst (fold_left _ ?items _))) -> _ =>
    assert (G : Forall Q (fst (fold_left (ListRoute.processItem prefix) items ([], []))))
  end.
  { apply processItems_source; [|constructor].
    intros key e' I C. apply in_firstn in I.
    assert (K : exists k0,
               In k0 (Store.keysWithPrefix prefix (records svc))
               /\ (key = k0
                   \/ exists a rest, key = prefix +++ a +++ "/"
                                     /\ k0 = key +++ rest)).
    { cbn [markerPosition skipn] in I. unfold listed in I.
      destruct (groupsByDelimiter svc); [|exists key; split; [exact I | now left]].
      apply in_map_iff in I. destruct I as (k0 & E & I0). exists k0. split; [exact I0|].
      unfold Store.grouped in E.
      destruct (Store.upToDelimiter "/" _) as [g|] eqn:U; [|now left].
      right. apply upToDelimiter_some in U. destruct U as (a & rest & -> & Er).
      exists a, rest. split; [now rewrite E|].
      apply keysWithPrefix_In in I0. destruct I0 as [S _].
      destruct (prefix_split _ _ S) as (r & Ek). rewrite Ek in Er.
      rewrite substringFrom_append in Er. subst r.
      rewrite Ek, <- E. now rewrite !append_assoc. }
    destruct K as (k0 & I0 & Shape).
    apply keysWithPrefix_In in I0. destruct I0 as [_ L0].
    destruct (Store.lookup k0 (records svc)) as [v0|] eqn:Lk; [clear L0 | now elim L0].
    unfold Q. destruct (isDir e').
    - exists k0, v0. split; [exact Lk|].
      destruct Shape as [<-|(a & rest & _ & ->)]; [exact C|].
      unfold JsString.startsWith in *. now apply prefix_extends.
    - destruct C as [C Sl]. destruct Shape as [<-|(a & rest & Ea & _)].
      + exists v0. now rewrite <- C.
      + exfalso. rewrite C in Ea. apply append_inj_l in Ea.
        apply (f_equal (JsString.includesChar "/")) in Ea.
        rewrite !includesChar_append, Sl in Ea. cbn in Ea.
        rewrite orb_true_r in Ea. discriminate. }
  destruct (uniqueEntries_spec Q _ G) as (_ & B & _).
  rewrite Forall_forall in B. intros I. exact (B e I).
Qed.

(** X20: every entry of a listing stands for records of the store.  An
    entry listed as a file has a metadata record as a direct child of the
    listed directory; an entry listed as a directory has at least one
    record under its name.  The kind of an entry is read off the keys
    alone: a child that has a metadata record and nothing under it is listed
    with [isDir = false], whatever its mode says. *)
Theorem listing_entries_have_records path svc status es e :
  fst (ListRoute.GET path svc) = mkResponse status (Entries es) -> In e es ->
  if isDir e
  then exists k v,
         Store.lookup k (records svc) = Some v
         /\ JsString.startsWith k (listPrefix path +++ name e +++ "/") = true
  else exists v,
         Store.lookup (listPrefix path +++ name e +++ METADATA_SUFFIX) (records svc)
         = Some v.
Proof. exact (listing_sound path svc status es e). Qed.

Lemma listing_entries_have_records_witness :
  exists v,
    Store.lookup (listPrefix "/a" +++ name (mkEntry "x" false) +++ METADATA_SUFFIX)
      (records listingService)
    = Some v.
Proof.
  apply (listing_entries_have_records "/a" listingService 200 [mkEntry "x" false]
           (mkEntry "x" false)).
  - reflexivity.
  - now left.
Defined.

Lemma no_final_slash (x n : string) :
  componentName n -> JsString.endsWith (x +++ n) "/" = false.
Proof.
  intros [Ne Ns]. destruct (JsString.endsWith (x +++ n) "/") eqn:E; [|reflexivity].
  exfalso. apply endsWith_slash in E. destruct E as (Q & E).
  apply (f_equal list_ascii_of_string) in E. rewrite !list_of_append in E.
  assert (Nl : list_ascii_of_string n <> []) by (destruct n; [congruence | discriminate]).
  rewrite (app_removelast_last "x"%char Nl), app_assoc in E.
  apply app_inj_tail in E. destruct E as [_ E].
  assert (I : In "/"%char (list_ascii_of_string n)).
  { rewrite (app_removelast_last "x"%char Nl), E. apply in_or_app. right. now left. }
  clear - I Ns. induction n as [|c n IH]; [contradiction|].
  cbn in *. destruct I as [->|I]; [discriminate|].
  apply orb_false_iff in Ns. destruct Ns as [_ Ns]. now apply IH.
Qed.

Lemma length_put k v l : (List.length (Store.put k v l) <= S (List.length l))%nat.
Proof.
  induction l as [|[k' v'] l IH]; cbn; [lia|].
  destruct (String.eqb k k'); cbn; lia.
Qed.

(** X21: a directory just made shows in the listing of its parent.  After
    mkdir of a child of the listed directory that had no record and has
    nothing under it, in a store that answers the requests and holds its
    keys in one page, the listing of the parent has the entry of the child,
    and with [isDir = false]: the kind of an entry comes from the keys, and
    an empty directory has a metadata key only. *)
Theorem new_directory_in_the_listing parent n now svc :
  parent <> EmptyString -> componentName n -> faultless svc ->
  (S (List.length (records svc)) <= pageLimit svc)%nat ->
  Store.lookup (metadataKeyOf (listPrefix parent +++ n)) (records svc) = None ->
  Store.keysWithPrefix ((listPrefix parent +++ n) +++ "/") (records svc) = [] ->
  fst (MkdirRoute.POST (listPrefix parent +++ n) now svc) = mkResponse 201 SuccessJson
  /\ exists es,
       fst (ListRoute.GET parent (snd (MkdirRoute.POST (listPrefix parent +++ n) now svc)))
       = mkResponse 200 (Entries es)
       /\ In (mkEntry n false) es.
Proof.
  intros Pn C F Page L Empty.
  destruct (listPrefix_slash parent Pn) as (P & EP).
  set (child := listPrefix parent +++ n) in *.
  assert (C1 : child <> EmptyString).
  { unfold child. rewrite EP. destruct P; discriminate. }
  assert (C2 : child <> "/").
  { unfold child. rewrite EP. intros H. apply (f_equal String.length) in H.
    rewrite !length_append in H. destruct C as [Ne _].
    destruct n; [congruence | cbn in H; lia]. }
  assert (C3 : JsString.endsWith child "/" = false) by now apply no_final_slash.
  destruct (mkdir_accepted child now svc C1 C2 C3 F L) as (svc' & E & F' & Rs & Pg).
  rewrite E. cbn [fst snd]. split; [reflexivity|].
  assert (Key : listPrefix parent +++ n +++ METADATA_SUFFIX = metadataKeyOf child)
    by (unfold metadataKeyOf, child; now rewrite append_assoc).
  destruct (listing_complete parent n svc' Pn C (F' _)) as (es & El & e & Ie & Ne).
  - rewrite Rs, Pg. eapply Nat.le_trans; [apply length_put | exact Page].
  - rewrite Key, Rs, lookup_put_same. discriminate.
  - exists es. split; [exact El|].
    pose proof (listing_sound parent svc' 200 es e El Ie) as S.
    destruct e as [nm dir]. cbn [name isDir] in *. subst nm.
    destruct dir; [exfalso | exact Ie].
    destruct S as (k & v & Lk & Sk).
    assert (I : In k (Store.keysWithPrefix (child +++ "/") (records svc'))).
    { apply keysWithPrefix_In. split; [|now rewrite Lk].
      unfold child. now rewrite append_assoc. }
    rewrite Rs in I. unfold Store.keysWithPrefix in I, Empty.
    rewrite keys_put, L, filter_app, Empty in I. cbn [app filter] in I.
    unfold JsString.startsWith, metadataKeyOf, METADATA_SUFFIX in I.
    rewrite prefix_with_slash in I. exact I.
Qed.

Lemma new_directory_in_the_listing_witness :
  fst (MkdirRoute.POST (listPrefix "/a" +++ "new") 3 listingService)
  = mkResponse 201 SuccessJson
  /\ exists es,
       fst (ListRoute.GET "/a"
              (snd (MkdirRoute.POST (listPrefix "/a" +++ "new") 3 listingService)))
       = mkResponse 200 (Entries es)
       /\ In (mkEntry "new" false) es.
Proof.
  apply (new_directory_in_the_listing "/a" "new" 3 listingService).
  - discriminate.
  - split; [discriminate | reflexivity].
  - intros c. reflexivity.
  - cbn. lia.
  - reflexivity.
  - reflexivity.
Defined.

(** ** Deletions the service refuses *)

Lemma deleteKey_records key svc :
  records (snd (DeleteRoute.deleteKey key svc))
  = if deletable svc key then Store.remove key (records svc) else records svc.
Proof.
  unfold deletable. destruct (fault svc (DeleteRecord key)) as [f|] eqn:F.
  - unfold DeleteRoute.deleteKey, callHpkVApi. rewrite F. cbn.
    now destruct (api_status (failed f) =? 404).
  - now rewrite (deleteKey_accepted _ _ F).
Qed.

(** Every deletion is issued: the keys the service does not refuse are
    removed, whatever happens to the others. *)
Lemma deleteAll_records keys :
  forall svc,
  records (snd (DeleteRoute.deleteAll keys svc))
  = removeAll (filter (deletable svc) keys) (records svc).
Proof.
  induction keys as [|key keys IH]; intros svc; [reflexivity|].
  cbn [DeleteRoute.deleteAll].
  pose proof (deleteKey_records key svc) as D.
  pose proof (deleteKey_keeps_faults key svc) as K.
  destruct (DeleteRoute.deleteKey key svc) as [r svc1]. cbn [snd] in D, K.
  specialize (IH svc1).
  destruct (DeleteRoute.deleteAll keys svc1) as [rs svc2]. cbn [snd] in *.
  rewrite IH, D.
  assert (E : filter (deletable svc1) keys = filter (deletable svc) keys).
  { apply filter_ext. intros k. unfold deletable. now rewrite K. }
  rewrite E. cbn [filter]. now destruct (deletable svc key).
Qed.

(** X22: the delete of a file attempts every key.  For a path that is
    not a directory whose scan for chunk keys goes through, each of the keys
    to delete (the metadata key and the keys with the chunk prefix) that the
    service does not refuse to delete is gone afterwards, also when another
    deletion fails and the route answers with an error; a key whose
    deletion is refused stays as it was. *)
Theorem delete_attempts_every_key path svc k :
  path <> EmptyString -> path <> "/" ->
  (Store.lookup (metadataKeyOf path) (records svc) = None
   \/ exists m, Store.lookup (metadataKeyOf path) (records svc) = Some (Json m)
                /\ isDirectoryMode (mode m) = false) ->
  fault svc (GetRecord (metadataKeyOf path)) = None ->
  (forall marker, fault svc (ListKeys (chunkPrefixOf path) None marker) = None) ->
  k = metadataKeyOf path \/ JsString.startsWith k (chunkPrefixOf path) = true ->
  Store.lookup k (records (snd (DeleteRoute.DELETE path svc)))
  = if deletable svc k then None else Store.lookup k (records svc).
Proof.
  intros P R M F1 F2 Kk.
  assert (E : DeleteRoute.DELETE path svc
              = DeleteRoute.deleteFile path [metadataKeyOf path]
                  (received (GetRecord (metadataKeyOf path)) (records svc) svc)).
  { destruct M as [M|(m & M & D)].
    - now apply DELETE_absent.
    - now apply (DELETE_file path svc m). }
  rewrite E. clear E.
  set (svc1 := received (GetRecord (metadataKeyOf path)) (records svc) svc).
  assert (Same : sameStore svc1 svc) by now repeat split.
  destruct (listAllKeysWithPrefix_same (chunkPrefixOf path) svc1 svc Same) as [E1 S1].
  destruct (listAllKeysWithPrefix_returns (chunkPrefixOf path) svc) as (l & E & K).
  assert (NoErr : DeleteRoute.kr_error l = None).
  { unfold DeleteRoute.listAllKeysWithPrefix in E.
    exact (listPages_no_error _ svc F2 _ _ _ svc l eq_refl E). }
  specialize (K NoErr). rewrite E in E1.
  unfold DeleteRoute.deleteFile. fold (chunkPrefixOf path).
  destruct (DeleteRoute.listAllKeysWithPrefix _ svc1) as [o svc2].
  cbn [fst snd] in *. subst o. rewrite NoErr, K.
  destruct S1 as (R1 & Fa & _). cbn [records fault svc1 received] in R1, Fa.
  pose proof (deleteAll_records
                ([metadataKeyOf path]
                   ++ Store.keysWithPrefix (chunkPrefixOf path) (records svc)) svc2) as D.
  destruct (DeleteRoute.deleteAll _ svc2) as [results svc3]. cbn [snd] in D.
  assert (Rec : records svc3
                = removeAll
                    (filter (deletable svc)
                       ([metadataKeyOf path]
                          ++ Store.keysWithPrefix (chunkPrefixOf path) (records svc)))
                    (records svc)).
  { rewrite D, <- R1. f_equal. apply filter_ext. intros x. unfold deletable.
    now rewrite <- Fa. }
  assert (Res : Store.lookup k (records svc3)
                 = if deletable svc k then None else Store.lookup k (records svc)).
  { rewrite Rec. destruct (deletable svc k) eqn:Dk.
    - destruct (Store.lookup k (records svc)) eqn:L.
      + apply lookup_removeAll_in. apply filter_In. split; [|exact Dk].
        destruct Kk as [->|S]; [now left|]. right. apply keysWithPrefix_In.
        split; [exact S | now rewrite L].
      + now apply lookup_removeAll_absent.
    - apply lookup_removeAll_other. intros I. apply filter_In in I.
      destruct I as [_ I]. congruence. }
  now destruct (DeleteRoute.firstError results).
Qed.

Lemma delete_attempts_every_key_witness :
  Store.lookup (chunkKeyOf "/f" 1) (records (snd (DeleteRoute.DELETE "/f" stubbornService)))
  = if deletable stubbornService (chunkKeyOf "/f" 1) then None
    else Store.lookup (chunkKeyOf "/f" 1) (records stubbornService).
Proof.
  apply (delete_attempts_every_key "/f" stubbornService (chunkKeyOf "/f" 1)).
  - discriminate.
  - discriminate.
  - right. eexists. split; reflexivity.
  - reflexivity.
  - reflexivity.
  - right. reflexivity.
Defined.

(** X23: the delete of a directory reports a failed scan.  When the scan
    for the keys under a directory fails, the route answers with the status
    of the failure and its message, and no record is removed (the delete of
    a file goes on after a failed scan, the delete of a directory does
    not). *)
Theorem directory_delete_reports_failed_scan path svc m l e :
  path <> EmptyString -> path <> "/" ->
  Store.lookup (metadataKeyOf path) (records svc) = Some (Json m) ->
  isDirectoryMode (mode m) = true ->
  fault svc (GetRecord (metadataKeyOf path)) = None ->
  fst (DeleteRoute.listAllKeysWithPrefix
         (if JsString.endsWith path "/" then path else path +++ "/") svc) = Some l ->
  DeleteRoute.kr_error l = Some e ->
  fst (DeleteRoute.DELETE path svc)
  = Some (mkResponse (DeleteRoute.kr_status l)
            (ErrorJson ("Failed to check if directory is empty: " +++ e)))
  /\ records (snd (DeleteRoute.DELETE path svc)) = records svc.
Proof.
  intros P R M D F S E.
  rewrite (DELETE_directory path svc m P R M D F).
  set (svc1 := received (GetRecord (metadataKeyOf path)) (records svc) svc).
  assert (Same : sameStore svc1 svc) by now repeat split.
  unfold DeleteRoute.deleteDirectory.
  set (prefix := if JsString.endsWith path "/" then path else path +++ "/") in *.
  destruct (listAllKeysWithPrefix_same prefix svc1 svc Same) as [E1 (R1 & _)].
  rewrite S in E1.
  destruct (DeleteRoute.listAllKeysWithPrefix prefix svc1) as [o svc2].
  cbn [fst snd] in *. subst o. rewrite E. cbn [fst snd]. split; [reflexivity|].
  now rewrite <- R1.
Qed.

Lemma directory_delete_reports_failed_scan_witness :
  fst (DeleteRoute.DELETE "/d"
         (mkService (records dirService) (fault brokenScanService) 1000 false []))
  = Some (mkResponse 503
            (ErrorJson ("Failed to check if directory is empty: "
                          +++ "Failed to list keys with prefix /d/: HPKV API Error (503): unavailable")))
  /\ records (snd (DeleteRoute.DELETE "/d"
                     (mkService (records dirService) (fault brokenScanService) 1000 false [])))
     = records dirService.
Proof.
  apply (directory_delete_reports_failed_scan "/d"
           (mkService (records dirService) (fault brokenScanService) 1000 false [])
           directory
           (DeleteRoute.mkKeysResult None
              (Some "Failed to list keys with prefix /d/: HPKV API Error (503): unavailable")
              503)).
  - discriminate.
  - discriminate.
  - reflexivity.
  - reflexivity.
  - reflexivity.
  - reflexivity.
  - reflexivity.
Defined.

(** ** The requests a write sends *)

Lemma writeChunks_calls path writeData offset writeEnd :
  forall count i cur svc,
  faultless svc ->
  List.length
    (calls (snd (WriteRoute.writeChunks count path writeData offset writeEnd i cur svc)))
  = (List.length (calls svc) + 2 * count)%nat.
Proof.
  induction count as [|count IH]; intros i cur svc F; cbn [WriteRoute.writeChunks].
  - cbn [snd]. lia.
  - destruct (write_getChunk_accepted path i svc (F _)) as (st & ->).
    cbn [cr_error cr_chunkData].
    destruct (WriteRoute.newChunkOf _ _ _ _ _ _) as [newChunk n].
    rewrite writeChunk_accepted by apply F. cbn [cs_error].
    rewrite IH by exact F. cbn [calls received List.length]. lia.
Qed.

(** X24: the requests a write costs.  A write that goes through (to a
    regular file or a path with no metadata, in a store that answers the
    requests) sends two requests for the metadata, one to read it and one
    to store it, and two for each chunk its range touches, one to read the
    chunk and one to store it. *)
Theorem write_request_count path offset body now svc :
  path <> EmptyString -> 0 <= offset -> faultless svc ->
  Base64.decode body <> [] ->
  (Store.lookup (metadataKeyOf path) (records svc) = None
   \/ exists m, Store.lookup (metadataKeyOf path) (records svc) = Some (Json m)
                /\ isDirectoryMode (mode m) = false) ->
  Z.of_nat (List.length (calls (snd (WriteRoute.POST path offset body now svc))))
  = Z.of_nat (List.length (calls svc)) + 2
    + 2 * ((offset + Buf.length (Base64.decode body) - 1) / MAX_CHUNK_SIZE
           - offset / MAX_CHUNK_SIZE + 1).
Proof.
  intros P O F Dne M.
  assert (B : body <> EmptyString) by (intros ->; now apply Dne).
  remember (Base64.decode body) as D eqn:ED.
  assert (Len : 0 < Buf.length D).
  { unfold Buf.length. destruct D; [congruence | cbn; lia]. }
  destruct (chunk_range offset (Buf.length D) O Len) as (R1 & R2 & R3 & R4 & R5).
  unfold WriteRoute.POST.
  rewrite (truthy_nonempty _ P), (truthy_nonempty _ B). cbn [negb].
  replace (offset <? 0) with false by (symmetry; apply Z.ltb_ge; lia).
  rewrite <- ED.
  replace (Buf.length D =? 0) with false by (symmetry; apply Z.eqb_neq; lia).
  set (count := Z.to_nat ((offset + Buf.length D - 1) / MAX_CHUNK_SIZE
                          - offset / MAX_CHUNK_SIZE + 1)).
  assert (Cn : Z.of_nat count
               = (offset + Buf.length D - 1) / MAX_CHUNK_SIZE - offset / MAX_CHUNK_SIZE + 1)
    by (unfold count; lia).
  clearbody count.
  assert (Tail : forall svc1 metadata,
    faultless svc1 -> List.length (calls svc1) = S (List.length (calls svc)) ->
    Z.of_nat
      (List.length
         (calls
            (snd
               (match WriteRoute.writeChunks count path D offset (offset + Buf.length D)
                        (offset / MAX_CHUNK_SIZE) 0 svc1 with
                | (inl response, svc2) => (response, svc2)
                | (inr _, svc2) =>
                    let '(w, svc3) := WriteRoute.writeMetadata path metadata svc2 in
                    match cs_error w with
                    | Some metaWriteError =>
                        (mkResponse (cs_status w)
                           (ErrorJson ("Write succeeded but failed to update metadata: "
                                         +++ metaWriteError)), svc3)
                    | None => (mkResponse 200 (BytesWritten (Buf.length D)), svc3)
                    end
                end))))
    = Z.of_nat (List.length (calls svc)) + 2 + 2 * Z.of_nat count).
  { intros svc1 metadata F1 C1.
    destruct (writeChunks_accepted path D offset O Len count (offset / MAX_CHUNK_SIZE) 0
                svc1 F1) as (cur' & svc2 & E & F2 & _).
    - exact R2.
    - lia.
    - intros _. lia.
    - pose proof (writeChunks_calls path D offset (offset + Buf.length D) count
                    (offset / MAX_CHUNK_SIZE) 0 svc1 F1) as L.
      rewrite E in L. cbn [snd] in L. rewrite E.
      rewrite writeMetadata_accepted by apply F2.
      cbn [cs_error snd calls received List.length]. lia. }
  rewrite <- Cn.
  destruct M as [M|(m & M & Dir)].
  - rewrite (write_getMetadata_absent _ _ M (F _)).
    cbn [mr_error mr_metadata negb andb]. apply Tail; [exact F | reflexivity].
  - rewrite (write_getMetadata_found _ _ _ M (F _)).
    cbn [mr_error mr_metadata negb andb].
    rewrite withNumChunks_mode, Dir. apply Tail; [exact F | reflexivity].
Qed.

Lemma write_request_count_witness :
  Z.of_nat (List.length (calls (snd (WriteRoute.POST "/f" 2999 "WFk=" 5 smallFileService))))
  = Z.of_nat (List.length (calls smallFileService)) + 2
    + 2 * ((2999 + Buf.length (Base64.decode "WFk=") - 1) / MAX_CHUNK_SIZE
           - 2999 / MAX_CHUNK_SIZE + 1).
Proof.
  apply (write_request_count "/f" 2999 "WFk=" 5 smallFileService).
  - discriminate.
  - lia.
  - intros c. reflexivity.
  - discriminate.
  - right. eexists. split; reflexivity.
Defined.

(** ** The paths of the file manager *)

Lemma split_not_nil c s : JsString.split c s <> [].
Proof.
  destruct s as [|a r]; cbn; [discriminate|].
  destruct (Ascii.eqb a c); [discriminate|].
  destruct (JsString.split c r); discriminate.
Qed.

Lemma split_append c (a b : string) :
  JsString.split c (a +++ String c b) = JsString.split c a ++ JsString.split c b.
Proof.
  induction a as [|x a IH]; cbn.
  - now rewrite Ascii.eqb_refl.
  - destruct (Ascii.eqb x c); [now rewrite IH|].
    rewrite IH. pose proof (split_not_nil c a) as N.
    destruct (JsString.split c a); [congruence | reflexivity].
Qed.

Lemma split_component c (n : string) :
  JsString.includesChar c n = false -> JsString.split c n = [n].
Proof.
  induction n as [|x n IH]; cbn; [reflexivity|].
  destruct (Ascii.eqb x c); [discriminate|]. cbn. intros H. now rewrite IH.
Qed.

Lemma components_of_child cur n :
  componentName n ->
  filter JsString.truthy (JsString.split "/" (FileManager.childPath cur n))
  = (if String.eqb cur "/" then []
     else filter JsString.truthy (JsString.split "/" cur)) ++ [n].
Proof.
  intros [Ne Ns]. unfold FileManager.childPath.
  destruct (String.eqb cur "/").
  - cbn. rewrite (split_component _ _ Ns). cbn. now rewrite (truthy_nonempty _ Ne).
  - change (cur +++ "/" +++ n) with (cur +++ String "/" n).
    rewrite split_append, filter_app, (split_component _ _ Ns). cbn [filter].
    now rewrite (truthy_nonempty _ Ne).
Qed.

Lemma join_snoc p ps n :
  FileManager.join ((p :: ps) ++ [n]) = FileManager.join (p :: ps) +++ "/" +++ n.
Proof.
  revert p. induction ps as [|q ps IH]; intros p; [reflexivity|].
  change (FileManager.join ((p :: q :: ps) ++ [n]))
    with (p +++ "/" +++ FileManager.join ((q :: ps) ++ [n])).
  rewrite IH. change (FileManager.join (p :: q :: ps))
    with (p +++ "/" +++ FileManager.join (q :: ps)).
  now rewrite !append_assoc.
Qed.

Lemma child_is_not_root cur n : componentName n -> FileManager.childPath cur n <> "/".
Proof.
  intros [Ne _] H. apply (f_equal String.length) in H. unfold FileManager.childPath in H.
  destruct (String.eqb cur "/"); rewrite !length_append in H;
    destruct n; try congruence; cbn in H; lia.
Qed.

(** A browsable path is written in one way: the root, or a slash before
    each of its components. *)
Lemma browsable_canonical cur :
  browsable cur ->
  cur = match (if String.eqb cur "/" then []
               else filter JsString.truthy (JsString.split "/" cur)) with
        | [] => "/"
        | p :: ps => "/" +++ FileManager.join (p :: ps)
        end.
Proof.
  induction 1 as [|cur n B IH C]; [reflexivity|].
  rewrite (proj2 (String.eqb_neq _ _) (child_is_not_root cur n C)).
  rewrite components_of_child by exact C.
  unfold FileManager.childPath.
  destruct (String.eqb cur "/") eqn:E.
  - apply String.eqb_eq in E. now subst.
  - destruct (filter JsString.truthy (JsString.split "/" cur)) as [|p ps] eqn:Fl.
    + apply String.eqb_neq in E. congruence.
    + cbn [app]. change (p :: ps ++ [n]) with ((p :: ps) ++ [n]).
      rewrite join_snoc. rewrite IH at 1. now rewrite !append_assoc.
Qed.

Lemma goUp_of_child cur n :
  browsable cur -> componentName n ->
  FileManager.handleGoUp (FileManager.childPath cur n) = cur.
Proof.
  intros B C. unfold FileManager.handleGoUp.
  rewrite (proj2 (String.eqb_neq _ _) (child_is_not_root cur n C)).
  rewrite components_of_child by exact C. rewrite removelast_last.
  rewrite (browsable_canonical cur B) at 3.
  now destruct (if String.eqb cur "/" then [] else _).
Qed.

Lemma browsable_listPrefix cur n :
  browsable cur -> FileManager.childPath cur n = listPrefix cur +++ n.
Proof.
  intros B. unfold FileManager.childPath, listPrefix.
  destruct (String.eqb_spec cur "/") as [->|N]; [reflexivity|].
  destruct B as [|cur n' B C]; [congruence|].
  assert (E : JsString.endsWith (FileManager.childPath cur n') "/" = false).
  { unfold FileManager.childPath. destruct (String.eqb cur "/").
    - now apply no_final_slash.
    - rewrite <- append_assoc. now apply no_final_slash. }
  rewrite E. now rewrite append_assoc.
Qed.

(** X25: the file manager stays on paths written in one way.  Starting
    from the root, neither a click on an entry (whose name is one path
    component) nor the button to go up leaves the browsable paths; and
    going up after entering a directory leads back to where the click was
    made. *)
Theorem file_manager_paths cur e :
  browsable cur -> componentName (name e) ->
  browsable (FileManager.handleNavigate cur e)
  /\ browsable (FileManager.handleGoUp cur)
  /\ (isDir e = true -> FileManager.handleGoUp (FileManager.handleNavigate cur e) = cur).
Proof.
  intros B C. split; [|split].
  - unfold FileManager.handleNavigate. destruct (isDir e); [now constructor | exact B].
  - destruct B as [|cur n B C']; [constructor|]. now rewrite goUp_of_child.
  - intros D. unfold FileManager.handleNavigate. rewrite D. now apply goUp_of_child.
Qed.

Lemma file_manager_paths_witness :
  browsable (FileManager.handleNavigate (FileManager.childPath "/" "a") (mkEntry "b" true))
  /\ browsable (FileManager.handleGoUp (FileManager.childPath "/" "a"))
  /\ (isDir (mkEntry "b" true) = true ->
      FileManager.handleGoUp
        (FileManager.handleNavigate (FileManager.childPath "/" "a") (mkEntry "b" true))
      = FileManager.childPath "/" "a").
Proof.
  apply (file_manager_paths (FileManager.childPath "/" "a") (mkEntry "b" true)).
  - apply browsable_child; [apply browsable_root|]. split; [discriminate | reflexivity].
  - split; [discriminate | reflexivity].
Defined.

(** X26: the file manager opens what the listing showed.  For a browsable
    directory, the path the file manager builds for an entry that the
    listing gave as a file is a path with a metadata record: the metadata
    request that opens the editor finds it. *)
Theorem listed_files_can_be_opened cur svc status es e :
  browsable cur ->
  fst (ListRoute.GET cur svc) = mkResponse status (Entries es) ->
  In e es -> isDir e = false ->
  exists v,
    Store.lookup (metadataKeyOf (FileManager.childPath cur (name e))) (records svc)
    = Some v.
Proof.
  intros B L I D.
  pose proof (listing_sound cur svc status es e L I) as S. rewrite D in S.
  destruct S as (v & S). exists v.
  rewrite (browsable_listPrefix cur (name e) B). unfold metadataKeyOf.
  now rewrite append_assoc.
Qed.

Lemma listed_files_can_be_opened_witness :
  exists v,
    Store.lookup
      (metadataKeyOf (FileManager.childPath (FileManager.childPath "/" "a")
                        (name (mkEntry "x" false))))
      (records listingService)
    = Some v.
Proof.
  apply (listed_files_can_be_opened (FileManager.childPath "/" "a") listingService 200
           [mkEntry "x" false] (mkEntry "x" false)).
  - apply browsable_child; [apply browsable_root|]. split; [discriminate | reflexivity].
  - reflexivity.
  - now left.
  - reflexivity.
Defined.

(** *** Directories in a listing *)

Lemma slash_is_not_the_suffix (x y : string) : x +++ "/" <> y +++ METADATA_SUFFIX.
Proof.
  intros H. apply (f_equal (fun s => last (list_ascii_of_string s) "x"%char)) in H.
  cbv beta in H. rewrite !list_of_append in H.
  change (list_ascii_of_string METADATA_SUFFIX)
    with (list_ascii_of_string ".__meta_" ++ ["_"%char]) in H.
  change (list_ascii_of_string "/") with ["/"%char] in H.
  rewrite (app_assoc (list_ascii_of_string y)), !last_last in H. discriminate.
Qed.

Lemma upToDelimiter_found d (n rest : string) :
  JsString.includesChar d n = false ->
  Store.upToDelimiter d (n +++ String d rest) = Some (n +++ String d EmptyString).
Proof.
  induction n as [|x n IH]; cbn.
  - now rewrite Ascii.eqb_refl.
  - destruct (Ascii.eqb x d); [discriminate|]. cbn. intros H. now rewrite IH.
Qed.

(** The loop on an item under a child of the directory: the child is
    entered as a directory, unless it was entered before. *)
Lemma processItem_directory P n entries seen :
  componentName n ->
  ListRoute.processItem (P +++ "/") (entries, seen) ((P +++ "/") +++ n +++ "/")
  = if ListRoute.setHas seen n then (entries, seen)
    else (entries ++ [mkEntry n true], n :: seen).
Proof.
  intros [Ne Ns]. unfold ListRoute.processItem.
  assert (K : (P +++ "/") +++ n +++ "/" = ((P +++ "/") +++ n) +++ "/")
    by now rewrite !append_assoc.
  assert (E1 : String.eqb (P +++ "/") "/"
               && String.eqb ((P +++ "/") +++ n +++ "/") "/.__meta__" = false).
  { apply andb_false_iff. right. apply String.eqb_neq. rewrite K.
    apply (slash_is_not_the_suffix _ "/"). }
  rewrite E1.
  assert (E2 : String.eqb ((P +++ "/") +++ n +++ "/")
                 (JsString.dropLast (P +++ "/") +++ METADATA_SUFFIX) = false).
  { apply String.eqb_neq. rewrite K. apply slash_is_not_the_suffix. }
  rewrite E2.
  assert (E3 : JsString.endsWith ((P +++ "/") +++ n +++ "/") METADATA_SUFFIX = false).
  { destruct (JsString.endsWith _ METADATA_SUFFIX) eqn:E; [|reflexivity].
    apply endsWith_split in E. rewrite K in E at 1.
    now apply slash_is_not_the_suffix in E. }
  rewrite E3. unfold JsString.startsWith.
  rewrite prefix_append, substringFrom_append.
  change (n +++ "/") with (n +++ String "/" EmptyString).
  rewrite split_append, (split_component _ _ Ns). cbn [JsString.split app].
  rewrite (truthy_nonempty _ Ne). now destruct (ListRoute.setHas seen n).
Qed.

(** The names the loop has seen are names of entries. *)
Lemma processItem_seen prefix entries seen key :
  (forall d, ListRoute.setHas seen d = true -> exists e, In e entries /\ name e = d) ->
  forall d,
  ListRoute.setHas (snd (ListRoute.processItem prefix (entries, seen) key)) d = true ->
  exists e, In e (fst (ListRoute.processItem prefix (entries, seen) key)) /\ name e = d.
Proof.
  intros H d. unfold ListRoute.processItem.
  assert (Grow : forall extra,
             ListRoute.setHas seen d = true ->
             exists e, In e (entries ++ extra) /\ name e = d).
  { intros extra S. destruct (H d S) as (e & I & N). exists e.
    split; [apply in_or_app; now left | exact N]. }
  destruct (_ && _); [apply H|].
  destruct (String.eqb key _); [apply H|].
  destruct (JsString.endsWith key METADATA_SUFFIX).
  - destruct (JsString.startsWith _ prefix); [|apply H].
    destruct (_ && _); [|apply H]. cbn [fst snd]. apply Grow.
  - destruct (JsString.startsWith key prefix); [|apply H].
    destruct (JsString.split "/" _) as [|dirName [|p ps]]; [apply H | apply H|].
    destruct (JsString.truthy dirName); [|apply H].
    destruct (negb (ListRoute.setHas seen dirName)); [|apply H].
    cbn [fst snd ListRoute.setHas existsb]. intros S.
    apply orb_true_iff in S. destruct S as [S|S]; [|now apply Grow].
    apply String.eqb_eq in S. subst d. exists (mkEntry dirName true).
    split; [apply in_or_app; right; now left | reflexivity].
Qed.

Lemma processItems_directory P n items :
  componentName n -> In ((P +++ "/") +++ n +++ "/") items ->
  forall entries seen,
  (forall d, ListRoute.setHas seen d = true -> exists e, In e entries /\ name e = d) ->
  exists e,
    In e (fst (fold_left (ListRoute.processItem (P +++ "/")) items (entries, seen)))
    /\ name e = n.
Proof.
  intros C. induction items as [|key items IH]; intros I entries seen Hs;
    [destruct I|]. destruct I as [Hk|Hk].
  - subst key. cbn [fold_left]. rewrite (processItem_directory P n entries seen C).
    destruct (ListRoute.setHas seen n) eqn:S.
    + destruct (Hs n S) as (e & I & N). exists e. split; [|exact N].
      now apply processItems_keep.
    + exists (mkEntry n true). split; [|reflexivity].
      apply processItems_keep. apply in_or_app. right. now left.
  - cbn [fold_left].
    pose proof (processItem_seen (P +++ "/") entries seen key Hs) as Hs'.
    destruct (ListRoute.processItem (P +++ "/") (entries, seen) key) as [entries' seen'].
    now apply IH.
Qed.

(** X27: a listing shows every directory that has records under it, when
    the store groups the keys by the delimiter.  If the store answers the
    list request, reports keys with a slash after the prefix as the common
    prefix up to that slash, and has no more keys than one page holds, then
    for every name that is one path component with at least one record
    under it in the listed directory, the listing has an entry with that
    name. *)
Theorem directories_with_records_are_listed path n k svc :
  path <> EmptyString -> componentName n ->
  groupsByDelimiter svc = true ->
  fault svc (ListKeys (listPrefix path) (Some "/") None) = None ->
  (List.length (records svc) <= pageLimit svc)%nat ->
  Store.lookup k (records svc) <> None ->
  JsString.startsWith k (listPrefix path +++ n +++ "/") = true ->
  exists es,
    fst (ListRoute.GET path svc) = mkResponse 200 (Entries es)
    /\ exists e, In e es /\ name e = n.
Proof.
  intros Pn C G F Page L S.
  destruct (listPrefix_slash path Pn) as (P & EP).
  unfold ListRoute.GET. rewrite (truthy_nonempty _ Pn). cbn [negb].
  fold (listPrefix path). rewrite EP in *.
  unfold callHpkVApi. rewrite F. cbn [serve api_error api_data fst markerPosition skipn].
  eexists. split; [reflexivity|].
  destruct (prefix_split _ _ S) as (rest & Ek).
  assert (Ek' : k = (P +++ "/") +++ n +++ String "/" rest)
    by (rewrite Ek; now rewrite !append_assoc).
  assert (K : In k (Store.keysWithPrefix (P +++ "/") (records svc))).
  { apply keysWithPrefix_In. split; [|exact L].
    unfold JsString.startsWith. rewrite Ek'. apply prefix_append. }
  assert (Items : In ((P +++ "/") +++ n +++ "/")
                    (firstn (pageSize svc) (listed svc (P +++ "/") (Some "/")))).
  { rewrite firstn_all2.
    - unfold listed. rewrite G. apply in_map_iff. exists k. split; [|exact K].
      unfold Store.grouped. rewrite Ek' at 1. rewrite substringFrom_append.
      destruct C as [_ Ns]. now rewrite (upToDelimiter_found _ _ _ Ns).
    - unfold pageSize.
      assert (Len : (List.length (listed svc (P +++ "/") (Some "/"))
                     <= List.length (records svc))%nat).
      { unfold listed, Store.keysWithPrefix, Store.keys.
        pose proof (filter_length_le (fun k => JsString.startsWith k (P +++ "/"))
                      (map fst (records svc))) as H.
        rewrite length_map in H. destruct (groupsByDelimiter svc);
          rewrite ?length_map; exact H. }
      lia. }
  unfold ListRoute.entriesOf.
  destruct (processItems_directory P n _ C Items [] []) as (e & Ie & Ne).
  - intros d Hd. discriminate.
  - destruct (uniqueEntries_names _ _ Ie) as (e' & I' & N'). exists e'.
    split; [exact I' | congruence].
Qed.

Lemma directories_with_records_are_listed_witness :
  exists es,
    fst (ListRoute.GET "/a"
           (mkService (records listingService) noFault 1000 true []))
    = mkResponse 200 (Entries es)
    /\ exists e, In e es /\ name e = "y".
Proof.
  apply (directories_with_records_are_listed "/a" "y" "/a/y/z.__meta__"
           (mkService (records listingService) noFault 1000 true [])).
  - discriminate.
  - split; [discriminate | reflexivity].
  - reflexivity.
  - reflexivity.
  - cbn. lia.
  - discriminate.
  - reflexivity.
Defined.

(** ** The requests a read sends *)

Lemma readChunks_requests count path offset readSize numChunks :
  forall i combinedData bytesRead svc,
  exists new,
    calls (snd (ReadRoute.readChunks count path offset readSize numChunks i
                  combinedData bytesRead svc))
    = new ++ calls svc
    /\ Forall (fun c => exists i', i <= i' < i + Z.of_nat count
                                  /\ c = GetRecord (chunkKeyOf path i')) new
    /\ (List.length new <= count)%nat.
Proof.
  induction count as [|count IH]; intros i combinedData bytesRead svc.
  - exists []. cbn. split; [reflexivity|]. split; [constructor | lia].
  - cbn [ReadRoute.readChunks].
    assert (Z0 : exists new : list ApiCall,
               calls svc = new ++ calls svc
               /\ Forall (fun c => exists i', i <= i' < i + Z.of_nat (S count)
                                             /\ c = GetRecord (chunkKeyOf path i')) new
               /\ (List.length new <= S count)%nat).
    { exists []. split; [reflexivity|]. split; [constructor | cbn; lia]. }
    destruct (negb (i <? numChunks)); [exact Z0|]. clear Z0.
    pose proof (read_getChunk_state path i svc) as G.
    destruct (ReadRoute.getChunk path i svc) as [g svc1]. cbn [snd] in G.
    assert (C1 : calls svc1 = GetRecord (chunkKeyOf path i) :: calls svc)
      by (rewrite G; apply call_logs).
    assert (Z1 : exists new : list ApiCall,
               calls svc1 = new ++ calls svc
               /\ Forall (fun c => exists i', i <= i' < i + Z.of_nat (S count)
                                             /\ c = GetRecord (chunkKeyOf path i')) new
               /\ (List.length new <= S count)%nat).
    { exists [GetRecord (chunkKeyOf path i)]. split; [exact C1|]. split; [|cbn; lia].
      constructor; [|constructor]. exists i. split; [lia | reflexivity]. }
    destruct (match cr_error g with
              | Some chunkError =>
                  if negb (cr_status g =? 404)
                  then Some (mkResponse (cr_status g) (ErrorJson chunkError))
                  else None
              | None => None
              end); [exact Z1|].
    destruct (readSize <=? _); [exact Z1|].
    match goal with |- context [ReadRoute.readChunks count _ _ _ _ _ ?d ?b svc1] =>
      destruct (IH (i + 1) d b svc1) as (new & E & A & L)
    end.
    exists (new ++ [GetRecord (chunkKeyOf path i)]).
    rewrite E, C1, <- app_assoc. split; [reflexivity|]. split.
    + apply Forall_app. split.
      * eapply Forall_impl; [|exact A]. intros c (i' & Hi & Ec). exists i'.
        split; [lia | exact Ec].
      * constructor; [|constructor]. exists i. split; [lia | reflexivity].
    + rewrite length_app. cbn. lia.
Qed.

(** X28: a read asks for its range only.  Whatever the store holds and
    answers, every request a read sends is a request to get a record,
    either the metadata record of the path or a chunk of the path that
    overlaps the requested range, and the read sends at most one request
    for the metadata and one for each such chunk. *)
Theorem read_asks_for_its_range_only path offset len svc :
  0 <= offset -> 0 <= len ->
  exists new,
    calls (snd (ReadRoute.GET path offset len svc)) = new ++ calls svc
    /\ Forall (readRequest path offset len) new
    /\ Z.of_nat (List.length new)
       <= 1 + Z.max 0 ((offset + len - 1) / MAX_CHUNK_SIZE - offset / MAX_CHUNK_SIZE + 1).
Proof.
  intros O L.
  assert (Z0 : exists new : list ApiCall,
             calls svc = new ++ calls svc
             /\ Forall (readRequest path offset len) new
             /\ Z.of_nat (List.length new)
                <= 1 + Z.max 0 ((offset + len - 1) / MAX_CHUNK_SIZE
                                - offset / MAX_CHUNK_SIZE + 1)).
  { exists []. split; [reflexivity|]. split; [apply Forall_nil|].
    cbn [List.length Z.of_nat]. lia. }
  unfold ReadRoute.GET.
  destruct (negb (JsString.truthy path)); [exact Z0|].
  destruct (_ || _); [exact Z0|].
  destruct (len =? 0); [exact Z0|]. clear Z0.
  pose proof (read_getMetadata_state path svc) as G.
  destruct (ReadRoute.getMetadata path svc) as [mr svc1]. cbn [snd] in G.
  assert (C1 : calls svc1 = GetRecord (metadataKeyOf path) :: calls svc)
    by (rewrite G; apply call_logs).
  assert (Z1 : exists new : list ApiCall,
             calls svc1 = new ++ calls svc
             /\ Forall (readRequest path offset len) new
             /\ Z.of_nat (List.length new)
                <= 1 + Z.max 0 ((offset + len - 1) / MAX_CHUNK_SIZE
                                - offset / MAX_CHUNK_SIZE + 1)).
  { exists [GetRecord (metadataKeyOf path)]. split; [exact C1|]. split.
    - constructor; [now left | constructor].
    - cbn [List.length]. lia. }
  destruct (mr_error mr); [exact Z1|].
  destruct (mr_metadata mr) as [metadata|]; [|exact Z1].
  destruct (isDirectoryMode (mode metadata)); [exact Z1|].
  destruct (size metadata <=? offset); [exact Z1|].
  destruct (Z.leb_spec (Z.min len (size metadata - offset)) 0) as [|Pos]; [exact Z1|].
  clear Z1.
  remember (Z.min len (size metadata - offset)) as readSize eqn:Ers.
  assert (Mx : MAX_CHUNK_SIZE = 3000) by reflexivity.
  assert (Le : (offset + readSize - 1) / MAX_CHUNK_SIZE
               <= (offset + len - 1) / MAX_CHUNK_SIZE)
    by (apply Z.div_le_mono; lia).
  destruct (chunk_range offset readSize O Pos) as (_ & _ & _ & _ & R5).
  match goal with |- context [ReadRoute.readChunks ?n ?p ?o ?r ?c ?i ?d ?b ?s] =>
    destruct (readChunks_requests n p o r c i d b s) as (new & E & A & Ln);
    destruct (ReadRoute.readChunks n p o r c i d b s) as [[response|data] svc2]
  end; cbn [snd] in *;
    (exists (new ++ [GetRecord (metadataKeyOf path)]);
     rewrite E, C1, <- app_assoc; split; [reflexivity|]; split;
     [apply Forall_app; split;
      [eapply Forall_impl; [|exact A]; intros c (i' & Hi & Ec); right; exists i';
       split; [lia | exact Ec]
      | constructor; [now left | constructor]]
     | rewrite length_app; cbn [List.length]; lia]).
Qed.

Lemma read_asks_for_its_range_only_witness :
  exists new,
    calls (snd (ReadRoute.GET "/f" 2999 2 fileService)) = new ++ calls fileService
    /\ Forall (readRequest "/f" 2999 2) new
    /\ Z.of_nat (List.length new)
       <= 1 + Z.max 0 ((2999 + 2 - 1) / MAX_CHUNK_SIZE - 2999 / MAX_CHUNK_SIZE + 1).
Proof.
  apply (read_asks_for_its_range_only "/f" 2999 2 fileService); lia.
Defined.

(** ** A write sent twice *)

Lemma spliced_twice C offset D :
  0 <= offset -> spliced (spliced C offset D) offset D = spliced C offset D.
Proof.
  intros O. apply buffers_by_index.
  - rewrite !length_spliced by exact O. lia.
  - intros j J. rewrite !byteAt_spliced by lia.
    now destruct ((offset <=? j) && (j <? offset + Buf.length D)).
Qed.

(** X29: a write sent again does no harm.  After a write of ASCII data
    that skips no chunk, to a file stored without gaps or to a path with no
    record, in a store that answers the requests, the same write sent a
    second time succeeds as well and leaves the file with the same content
    as the first. *)
Theorem write_retry_is_harmless path offset body now now' svc C :
  path <> EmptyString -> 0 <= offset ->
  offset / MAX_CHUNK_SIZE <= Buf.length C / MAX_CHUNK_SIZE -> faultless svc ->
  Base64.decode body <> [] -> asciiBytes (Base64.decode body) ->
  holdsFile (records svc) path C \/ (C = [] /\ noRecordOf (records svc) path) ->
  fst (WriteRoute.POST path offset body now'
         (snd (WriteRoute.POST path offset body now svc)))
  = mkResponse 200 (BytesWritten (Buf.length (Base64.decode body)))
  /\ holdsFile
       (records (snd (WriteRoute.POST path offset body now'
                        (snd (WriteRoute.POST path offset body now svc)))))
       path (spliced C offset (Base64.decode body)).
Proof.
  intros P O Near F Dne A H.
  destruct (POST_dense path offset body now svc C P O Near F Dne A H)
    as (svc1 & E1 & F1 & H1).
  rewrite E1. cbn [snd].
  assert (Near1 : offset / MAX_CHUNK_SIZE
                  <= Buf.length (spliced C offset (Base64.decode body)) / MAX_CHUNK_SIZE).
  { apply Z.div_le_mono; [reflexivity|].
    rewrite length_spliced by exact O. unfold Buf.length. lia. }
  destruct (POST_dense path offset body now' svc1 _ P O Near1 F1 Dne A (or_introl H1))
    as (svc2 & E2 & _ & H2).
  rewrite E2. cbn [fst snd]. split; [reflexivity|].
  now rewrite spliced_twice in H2.
Qed.

Lemma write_retry_is_harmless_witness :
  fst (WriteRoute.POST "/f" 1 "WFk=" 6
         (snd (WriteRoute.POST "/f" 1 "WFk=" 5 smallFileService)))
  = mkResponse 200 (BytesWritten (Buf.length (Base64.decode "WFk=")))
  /\ holdsFile
       (records (snd (WriteRoute.POST "/f" 1 "WFk=" 6
                        (snd (WriteRoute.POST "/f" 1 "WFk=" 5 smallFileService)))))
       "/f" (spliced [x41; x42] 1 (Base64.decode "WFk=")).
Proof.
  apply (write_retry_is_harmless "/f" 1 "WFk=" 5 6 smallFileService [x41; x42]).
  - discriminate.
  - lia.
  - discriminate.
  - intros c. reflexivity.
  - discriminate.
  - repeat constructor.
  - left. exact smallFileService_holds.
Defined.
